(** * Modbus stack of verify-rs485-demo: shallow embedding and properties

    The development follows the layering of the C sources:
    - [modbus_byte_order_convert.c]: big-endian put/get helpers;
    - [modbus_pdu.c]: the PDU codec (make / parse per function code);
    - [modbus_rtu.c]: the RTU frame wrapper (address + PDU + CRC-16);
    - [modbus_backend.c]: the transport abstraction with its operation table
      and the dual-timeout read loop;
    - [modbus_instance.c]: the instance level receive / send wrappers.

    Conventions. A C integer is a [Z]; a conversion to [uint8_t] or
    [uint16_t] is written out as [u8] / [u16].  A byte buffer is a
    [list Z]; a pointer into a buffer is the suffix of the buffer that
    starts at the pointed byte, so [p + n] is [skipn n p] and [*p] is
    [hd 0 p] (a read past the end of the list yields 0: the C code would
    read whatever lies behind the buffer).  A nullable pointer to a struct
    or to a function is an [option]; the opaque handle [void *hinst] is a
    [Z] whose null value is 0. *)

From Stdlib Require Import ZArith List Bool Lia String.
Import ListNotations.
Local Open Scope Z_scope.

(* ------------------------------------------------------------------ *)
(** ** Fixed-width conversions *)

Definition u8 (v : Z) : Z := v mod 256.
Definition u16 (v : Z) : Z := v mod 65536.
(** Conversion of a wider integer to a 32-bit signed [int]. *)
Definition s32 (v : Z) : Z := (v + 2147483648) mod 4294967296 - 2147483648.

Definition is_u8 (v : Z) : bool := (0 <=? v) && (v <? 256).
Definition is_u16 (v : Z) : bool := (0 <=? v) && (v <? 65536).

(** [*p] for a pointer [p] into a byte buffer. *)
Definition deref (p : list Z) : Z := hd 0 p.
(** [p + n]. *)
Definition ptr_add (p : list Z) (n : Z) : list Z := skipn (Z.to_nat n) p.

(* ------------------------------------------------------------------ *)
(** ** modbus_byte_order_convert.c

    A [put] stores bytes at [buf] and returns how many; it is modelled by
    the pair (bytes stored, return value).  A [get] reads at [buf] and
    returns the value read together with its return value. *)

Definition modbus_cvt_u8_put (val : Z) : list Z * Z :=
  ([u8 val], 1).

Definition modbus_cvt_u8_get (buf : list Z) : Z * Z :=
  (deref buf, 1).

Definition modbus_cvt_u16_put (val : Z) : list Z * Z :=
  ([u8 (Z.shiftr val 8); u8 val], 2).

Definition modbus_cvt_u16_get (buf : list Z) : Z * Z :=
  let uval := deref buf in
  let uval := u16 (Z.shiftl uval 8) in
  let uval := u16 (uval + deref (ptr_add buf 1)) in
  (uval, 2).

(** The big-endian value of two bytes, as [modbus_cvt_u16_get] computes
    it. *)
Definition be16 (hi lo : Z) : Z := u16 (u16 (Z.shiftl hi 8) + lo).

(** The write cursor of the [make] functions: [out] holds the bytes
    stored between [buf] and [p], [pos] is [p - buf]. *)
Record cursor : Type := mkCursor { out : list Z; pos : Z }.

Definition cursor0 : cursor := mkCursor [] 0.

(** [p += put(p, val)]. *)
Definition put_adv (r : list Z * Z) (c : cursor) : cursor :=
  mkCursor (out c ++ fst r) (pos c + snd r).

(** [memcpy(p, pdata, dlen); p += dlen]. *)
Definition memcpy_adv (pdata : list Z) (dlen : Z) (c : cursor) : cursor :=
  mkCursor (out c ++ firstn (Z.to_nat dlen) pdata) (pos c + dlen).

(** What a [make] function leaves behind: the bytes written from [buf] on
    and the returned length [(int)(p - buf)]. *)
Definition made (c : cursor) : list Z * Z := (out c, pos c).

(* ------------------------------------------------------------------ *)
(** ** modbus_pdu.h (declarations used by the codec)

    The header [modbus_pdu.h] is not among the sources; what the codec
    uses of it is modelled from the spec. *)

(** Modelled from the spec: the function codes of [modbus_pdu.h], with the
    values of the spec's function code set. *)
Definition MODBUS_FC_READ_COILS : Z := 0x01.
Definition MODBUS_FC_READ_DISCRETE_INPUTS : Z := 0x02.
Definition MODBUS_FC_READ_HOLDING_REGISTERS : Z := 0x03.
Definition MODBUS_FC_READ_INPUT_REGISTERS : Z := 0x04.
Definition MODBUS_FC_WRITE_SINGLE_COIL : Z := 0x05.
Definition MODBUS_FC_WRITE_SINGLE_REGISTER : Z := 0x06.
Definition MODBUS_FC_WRITE_MULTIPLE_COILS : Z := 0x0F.
Definition MODBUS_FC_WRITE_MULTIPLE_REGISTERS : Z := 0x10.
Definition MODBUS_FC_MASK_WRITE_REGISTER : Z := 0x16.
Definition MODBUS_FC_WRITE_AND_READ_REGISTERS : Z := 0x17.

(** Modelled from the spec: the two function codes of [modbus_pdu.h] that
    the spec leaves out of its set and on which the codec only breaks out
    of its switch; they carry their standard Modbus numbers. *)
Definition MODBUS_FC_READ_EXCEPTION_STATUS : Z := 0x07.
Definition MODBUS_FC_REPORT_SLAVE_ID : Z := 0x11.

(** Modelled from the spec: the macro [MODBUS_FC_EXCEPT_CHK] of
    [modbus_pdu.h], as the spec's "the high bit of fc is set". *)
Definition MODBUS_FC_EXCEPT_CHK (fc : Z) : bool := Z.testbit fc 7.

(** Modelled from the spec: the macro [MB_PDU_SIZE_MIN] of [modbus_pdu.h].
    The spec gives the RTU frame a minimum length of 4, which is the
    address, the two CRC bytes and a PDU of 1 byte. *)
Definition MB_PDU_SIZE_MIN : Z := 1.

(** Modelled from the spec: the macro [MB_PDU_SIZE_MAX] of [modbus_pdu.h].
    The spec gives the RTU frame a maximum length of 256. *)
Definition MB_PDU_SIZE_MAX : Z := 253.

(** Modelled from the spec: the direction of a PDU, request or response
    ([mb_pdu_type_t] of [modbus_pdu.h]). *)
Inductive mb_pdu_type_t : Type := MB_PDU_TYPE_REQ | MB_PDU_TYPE_RSP.

(** Modelled from the spec: the shapes of the spec's PDU table, with the
    field names the codec uses ([fc], [addr], [nb], [dlen], [pdata],
    ...). *)
Record mb_pdu_except_t : Type := mkExcept
  { exc_fc : Z; exc_ec : Z }.

Record mb_pdu_rd_req_t : Type := mkRdReq
  { rd_req_fc : Z; rd_req_addr : Z; rd_req_nb : Z }.

Record mb_pdu_rd_rsp_t : Type := mkRdRsp
  { rd_rsp_fc : Z; rd_rsp_dlen : Z; rd_rsp_pdata : list Z }.

Record mb_pdu_wr_single_t : Type := mkWrSingle
  { wr_single_fc : Z; wr_single_addr : Z; wr_single_val : Z }.

Record mb_pdu_wr_req_t : Type := mkWrReq
  { wr_req_fc : Z; wr_req_addr : Z; wr_req_nb : Z;
    wr_req_dlen : Z; wr_req_pdata : list Z }.

Record mb_pdu_wr_rsp_t : Type := mkWrRsp
  { wr_rsp_fc : Z; wr_rsp_addr : Z; wr_rsp_nb : Z }.

Record mb_pdu_mask_wr_t : Type := mkMaskWr
  { mask_wr_fc : Z; mask_wr_addr : Z; mask_wr_val_and : Z; mask_wr_val_or : Z }.

Record mb_pdu_wr_rd_req_t : Type := mkWrRdReq
  { wr_rd_fc : Z; wr_rd_rd_addr : Z; wr_rd_rd_nb : Z;
    wr_rd_wr_addr : Z; wr_rd_wr_nb : Z;
    wr_rd_dlen : Z; wr_rd_pdata : list Z }.

(** The union [mb_pdu_t]: one member per shape, each starting with the
    function code. *)
Inductive mb_pdu_t : Type :=
| PduExcept (e : mb_pdu_except_t)
| PduRdReq (r : mb_pdu_rd_req_t)
| PduRdRsp (r : mb_pdu_rd_rsp_t)
| PduWrSingle (w : mb_pdu_wr_single_t)
| PduWrReq (w : mb_pdu_wr_req_t)
| PduWrRsp (w : mb_pdu_wr_rsp_t)
| PduMaskWr (m : mb_pdu_mask_wr_t)
| PduWrRdReq (w : mb_pdu_wr_rd_req_t).

(** [pdu->fc]: the first member of every shape. *)
Definition pdu_fc (p : mb_pdu_t) : Z :=
  match p with
  | PduExcept e => exc_fc e
  | PduRdReq r => rd_req_fc r
  | PduRdRsp r => rd_rsp_fc r
  | PduWrSingle w => wr_single_fc w
  | PduWrReq w => wr_req_fc w
  | PduWrRsp w => wr_rsp_fc w
  | PduMaskWr m => mask_wr_fc m
  | PduWrRdReq w => wr_rd_fc w
  end.

(** The casts [(mb_pdu_xxx_t * )pdu] of the make functions.  Reading the
    union through the member that was stored is what the embedding covers;
    reading it through another member depends on the memory layout and
    yields [None]. *)
Definition as_except (p : mb_pdu_t) : option mb_pdu_except_t :=
  match p with PduExcept e => Some e | _ => None end.
Definition as_rd_req (p : mb_pdu_t) : option mb_pdu_rd_req_t :=
  match p with PduRdReq r => Some r | _ => None end.
Definition as_rd_rsp (p : mb_pdu_t) : option mb_pdu_rd_rsp_t :=
  match p with PduRdRsp r => Some r | _ => None end.
Definition as_wr_single (p : mb_pdu_t) : option mb_pdu_wr_single_t :=
  match p with PduWrSingle w => Some w | _ => None end.
Definition as_wr_req (p : mb_pdu_t) : option mb_pdu_wr_req_t :=
  match p with PduWrReq w => Some w | _ => None end.
Definition as_wr_rsp (p : mb_pdu_t) : option mb_pdu_wr_rsp_t :=
  match p with PduWrRsp w => Some w | _ => None end.
Definition as_mask_wr (p : mb_pdu_t) : option mb_pdu_mask_wr_t :=
  match p with PduMaskWr m => Some m | _ => None end.
Definition as_wr_rd_req (p : mb_pdu_t) : option mb_pdu_wr_rd_req_t :=
  match p with PduWrRdReq w => Some w | _ => None end.

(* ------------------------------------------------------------------ *)
(** ** modbus_pdu.c *)

(** The read cursor of the [parse] functions: [rp] is the pointer [p],
    [roff] is [p - buf]. *)
Record rcursor : Type := mkRCursor { rp : list Z; roff : Z }.

Definition rcursor0 (buf : list Z) : rcursor := mkRCursor buf 0.

(** [p += get(p, &field)]: the value stored in the field and the advanced
    cursor. *)
Definition get_adv (get : list Z -> Z * Z) (c : rcursor) : Z * rcursor :=
  let (v, n) := get (rp c) in
  (v, mkRCursor (ptr_add (rp c) n) (roff c + n)).

(** [p += dlen] (a shape parser returns its [int] result and, when it
    stored into the output struct, the struct it stored). *)
Definition skip_adv (dlen : Z) (c : rcursor) : rcursor :=
  mkRCursor (ptr_add (rp c) dlen) (roff c + dlen).

Definition modbus_pdu_except_make (exc : mb_pdu_except_t) : list Z * Z :=
  let p := cursor0 in
  let p := put_adv (modbus_cvt_u8_put (exc_fc exc)) p in
  let p := put_adv (modbus_cvt_u8_put (exc_ec exc)) p in
  made p.

Definition modbus_pdu_except_parse (buf : list Z) (len : Z)
  : Z * option mb_pdu_except_t :=
  if len <? 2 then (0, None)
  else
    let p := rcursor0 buf in
    let (fc, p) := get_adv modbus_cvt_u8_get p in
    let (ec, p) := get_adv modbus_cvt_u8_get p in
    (roff p, Some (mkExcept fc ec)).

Definition modbus_pdu_rd_req_make (rd_req : mb_pdu_rd_req_t) : list Z * Z :=
  let p := cursor0 in
  let p := put_adv (modbus_cvt_u8_put (rd_req_fc rd_req)) p in
  let p := put_adv (modbus_cvt_u16_put (rd_req_addr rd_req)) p in
  let p := put_adv (modbus_cvt_u16_put (rd_req_nb rd_req)) p in
  made p.

Definition modbus_pdu_rd_req_parse (buf : list Z) (len : Z)
  : Z * option mb_pdu_rd_req_t :=
  if len <? 5 then (0, None)
  else
    let p := rcursor0 buf in
    let (fc, p) := get_adv modbus_cvt_u8_get p in
    let (addr, p) := get_adv modbus_cvt_u16_get p in
    let (nb, p) := get_adv modbus_cvt_u16_get p in
    (roff p, Some (mkRdReq fc addr nb)).

Definition modbus_pdu_rd_rsp_make (rd_rsp : mb_pdu_rd_rsp_t) : list Z * Z :=
  let p := cursor0 in
  let p := put_adv (modbus_cvt_u8_put (rd_rsp_fc rd_rsp)) p in
  let p := put_adv (modbus_cvt_u8_put (rd_rsp_dlen rd_rsp)) p in
  let p := memcpy_adv (rd_rsp_pdata rd_rsp) (rd_rsp_dlen rd_rsp) p in
  made p.

Definition modbus_pdu_rd_rsp_parse (buf : list Z) (len : Z)
  : Z * option mb_pdu_rd_rsp_t :=
  if len <? 3 then (0, None)
  else
    let p := rcursor0 buf in
    let (fc, p) := get_adv modbus_cvt_u8_get p in
    let (dlen, p) := get_adv modbus_cvt_u8_get p in
    let pdata := rp p in
    let p := skip_adv dlen p in
    (roff p, Some (mkRdRsp fc dlen pdata)).

Definition modbus_pdu_wr_single_make (wr_single : mb_pdu_wr_single_t)
  : list Z * Z :=
  let p := cursor0 in
  let p := put_adv (modbus_cvt_u8_put (wr_single_fc wr_single)) p in
  let p := put_adv (modbus_cvt_u16_put (wr_single_addr wr_single)) p in
  let p := put_adv (modbus_cvt_u16_put (wr_single_val wr_single)) p in
  made p.

Definition modbus_pdu_wr_single_parse (buf : list Z) (len : Z)
  : Z * option mb_pdu_wr_single_t :=
  if len <? 5 then (0, None)
  else
    let p := rcursor0 buf in
    let (fc, p) := get_adv modbus_cvt_u8_get p in
    let (addr, p) := get_adv modbus_cvt_u16_get p in
    let (val, p) := get_adv modbus_cvt_u16_get p in
    (roff p, Some (mkWrSingle fc addr val)).

Definition modbus_pdu_wr_req_make (wr_req : mb_pdu_wr_req_t) : list Z * Z :=
  let p := cursor0 in
  let p := put_adv (modbus_cvt_u8_put (wr_req_fc wr_req)) p in
  let p := put_adv (modbus_cvt_u16_put (wr_req_addr wr_req)) p in
  let p := put_adv (modbus_cvt_u16_put (wr_req_nb wr_req)) p in
  let p := put_adv (modbus_cvt_u8_put (wr_req_dlen wr_req)) p in
  let p := memcpy_adv (wr_req_pdata wr_req) (wr_req_dlen wr_req) p in
  made p.

Definition modbus_pdu_wr_req_parse (buf : list Z) (len : Z)
  : Z * option mb_pdu_wr_req_t :=
  if len <? 7 then (0, None)
  else
    let p := rcursor0 buf in
    let (fc, p) := get_adv modbus_cvt_u8_get p in
    let (addr, p) := get_adv modbus_cvt_u16_get p in
    let (nb, p) := get_adv modbus_cvt_u16_get p in
    let (dlen, p) := get_adv modbus_cvt_u8_get p in
    let pdata := rp p in
    let p := skip_adv dlen p in
    (roff p, Some (mkWrReq fc addr nb dlen pdata)).

Definition modbus_pdu_wr_rsp_make (wr_rsp : mb_pdu_wr_rsp_t) : list Z * Z :=
  let p := cursor0 in
  let p := put_adv (modbus_cvt_u8_put (wr_rsp_fc wr_rsp)) p in
  let p := put_adv (modbus_cvt_u16_put (wr_rsp_addr wr_rsp)) p in
  let p := put_adv (modbus_cvt_u16_put (wr_rsp_nb wr_rsp)) p in
  made p.

Definition modbus_pdu_wr_rsp_parse (buf : list Z) (len : Z)
  : Z * option mb_pdu_wr_rsp_t :=
  if len <? 5 then (0, None)
  else
    let p := rcursor0 buf in
    let (fc, p) := get_adv modbus_cvt_u8_get p in
    let (addr, p) := get_adv modbus_cvt_u16_get p in
    let (nb, p) := get_adv modbus_cvt_u16_get p in
    (roff p, Some (mkWrRsp fc addr nb)).

Definition modbus_pdu_mask_wr_make (mask_wr : mb_pdu_mask_wr_t) : list Z * Z :=
  let p := cursor0 in
  let p := put_adv (modbus_cvt_u8_put (mask_wr_fc mask_wr)) p in
  let p := put_adv (modbus_cvt_u16_put (mask_wr_addr mask_wr)) p in
  let p := put_adv (modbus_cvt_u16_put (mask_wr_val_and mask_wr)) p in
  let p := put_adv (modbus_cvt_u16_put (mask_wr_val_or mask_wr)) p in
  made p.

Definition modbus_pdu_mask_wr_parse (buf : list Z) (len : Z)
  : Z * option mb_pdu_mask_wr_t :=
  if len <? 7 then (0, None)
  else
    let p := rcursor0 buf in
    let (fc, p) := get_adv modbus_cvt_u8_get p in
    let (addr, p) := get_adv modbus_cvt_u16_get p in
    let (val_and, p) := get_adv modbus_cvt_u16_get p in
    let (val_or, p) := get_adv modbus_cvt_u16_get p in
    (roff p, Some (mkMaskWr fc addr val_and val_or)).

Definition modbus_pdu_wr_rd_req_make (wr_rd_req : mb_pdu_wr_rd_req_t)
  : list Z * Z :=
  let p := cursor0 in
  let p := put_adv (modbus_cvt_u8_put (wr_rd_fc wr_rd_req)) p in
  let p := put_adv (modbus_cvt_u16_put (wr_rd_rd_addr wr_rd_req)) p in
  let p := put_adv (modbus_cvt_u16_put (wr_rd_rd_nb wr_rd_req)) p in
  let p := put_adv (modbus_cvt_u16_put (wr_rd_wr_addr wr_rd_req)) p in
  let p := put_adv (modbus_cvt_u16_put (wr_rd_wr_nb wr_rd_req)) p in
  let p := put_adv (modbus_cvt_u8_put (wr_rd_dlen wr_rd_req)) p in
  let p := memcpy_adv (wr_rd_pdata wr_rd_req) (wr_rd_dlen wr_rd_req) p in
  made p.

Definition modbus_pdu_wr_rd_req_parse (buf : list Z) (len : Z)
  : Z * option mb_pdu_wr_rd_req_t :=
  if len <? 11 then (0, None)
  else
    let p := rcursor0 buf in
    let (fc, p) := get_adv modbus_cvt_u8_get p in
    let (rd_addr, p) := get_adv modbus_cvt_u16_get p in
    let (rd_nb, p) := get_adv modbus_cvt_u16_get p in
    let (wr_addr, p) := get_adv modbus_cvt_u16_get p in
    let (wr_nb, p) := get_adv modbus_cvt_u16_get p in
    let (dlen, p) := get_adv modbus_cvt_u8_get p in
    let pdata := rp p in
    let p := skip_adv dlen p in
    (roff p, Some (mkWrRdReq fc rd_addr rd_nb wr_addr wr_nb dlen pdata)).

(** A dispatcher's [return(make(buf, (shape * )pdu))]. *)
Definition cast_make {A : Type} (cast : mb_pdu_t -> option A)
  (make : A -> list Z * Z) (pdu : mb_pdu_t) : option (list Z * Z) :=
  option_map make (cast pdu).

(** A dispatcher's [return(parse(buf, len, (shape * )pdu))]: the union
    holds the parsed shape when the parser stored one and is left as it
    was otherwise. *)
Definition cast_parse {A : Type} (inj : A -> mb_pdu_t) (pdu : mb_pdu_t)
  (r : Z * option A) : Z * mb_pdu_t :=
  (fst r, match snd r with Some a => inj a | None => pdu end).

(** The switch of the four dispatchers, shared so that the case labels
    are compared in the order of the source.  [k_rd], [k_single],
    [k_multi], [k_mask], [k_wr_rd] are the case bodies, [dflt] is what
    follows the switch. *)
Definition fc_switch {A : Type} (fc : Z)
  (k_rd k_single k_multi k_mask k_wr_rd dflt : A) : A :=
  if fc =? MODBUS_FC_READ_COILS then k_rd
  else if fc =? MODBUS_FC_READ_DISCRETE_INPUTS then k_rd
  else if fc =? MODBUS_FC_READ_HOLDING_REGISTERS then k_rd
  else if fc =? MODBUS_FC_READ_INPUT_REGISTERS then k_rd
  else if fc =? MODBUS_FC_WRITE_SINGLE_COIL then k_single
  else if fc =? MODBUS_FC_WRITE_SINGLE_REGISTER then k_single
  else if fc =? MODBUS_FC_READ_EXCEPTION_STATUS then dflt
  else if fc =? MODBUS_FC_WRITE_MULTIPLE_COILS then k_multi
  else if fc =? MODBUS_FC_WRITE_MULTIPLE_REGISTERS then k_multi
  else if fc =? MODBUS_FC_REPORT_SLAVE_ID then dflt
  else if fc =? MODBUS_FC_MASK_WRITE_REGISTER then k_mask
  else if fc =? MODBUS_FC_WRITE_AND_READ_REGISTERS then k_wr_rd
  else dflt.

Definition modbus_pdu_req_make (pdu : mb_pdu_t) : option (list Z * Z) :=
  fc_switch (pdu_fc pdu)
    (cast_make as_rd_req modbus_pdu_rd_req_make pdu)
    (cast_make as_wr_single modbus_pdu_wr_single_make pdu)
    (cast_make as_wr_req modbus_pdu_wr_req_make pdu)
    (cast_make as_mask_wr modbus_pdu_mask_wr_make pdu)
    (cast_make as_wr_rd_req modbus_pdu_wr_rd_req_make pdu)
    (Some ([], 0)).

Definition modbus_pdu_req_parse (buf : list Z) (len : Z) (pdu : mb_pdu_t)
  : Z * mb_pdu_t :=
  let fc := deref buf in
  fc_switch fc
    (cast_parse PduRdReq pdu (modbus_pdu_rd_req_parse buf len))
    (cast_parse PduWrSingle pdu (modbus_pdu_wr_single_parse buf len))
    (cast_parse PduWrReq pdu (modbus_pdu_wr_req_parse buf len))
    (cast_parse PduMaskWr pdu (modbus_pdu_mask_wr_parse buf len))
    (cast_parse PduWrRdReq pdu (modbus_pdu_wr_rd_req_parse buf len))
    (-1, pdu).

(** The source defines this function as [mb_pdu_rsp_make] and calls it as
    [modbus_pdu_rsp_make]; the embedding uses the name of the call. *)
Definition modbus_pdu_rsp_make (pdu : mb_pdu_t) : option (list Z * Z) :=
  if MODBUS_FC_EXCEPT_CHK (pdu_fc pdu)
  then cast_make as_except modbus_pdu_except_make pdu
  else
    fc_switch (pdu_fc pdu)
      (cast_make as_rd_rsp modbus_pdu_rd_rsp_make pdu)
      (cast_make as_wr_single modbus_pdu_wr_single_make pdu)
      (cast_make as_wr_rsp modbus_pdu_wr_rsp_make pdu)
      (cast_make as_mask_wr modbus_pdu_mask_wr_make pdu)
      (cast_make as_rd_rsp modbus_pdu_rd_rsp_make pdu)
      (Some ([], 0)).

Definition modbus_pdu_rsp_parse (buf : list Z) (len : Z) (pdu : mb_pdu_t)
  : Z * mb_pdu_t :=
  let fc := deref buf in
  if MODBUS_FC_EXCEPT_CHK fc
  then cast_parse PduExcept pdu (modbus_pdu_except_parse buf len)
  else
    fc_switch fc
      (cast_parse PduRdRsp pdu (modbus_pdu_rd_rsp_parse buf len))
      (cast_parse PduWrSingle pdu (modbus_pdu_wr_single_parse buf len))
      (cast_parse PduWrRsp pdu (modbus_pdu_wr_rsp_parse buf len))
      (cast_parse PduMaskWr pdu (modbus_pdu_mask_wr_parse buf len))
      (cast_parse PduRdRsp pdu (modbus_pdu_rd_rsp_parse buf len))
      (-1, pdu).

Definition modbus_pdu_make (pdu : mb_pdu_t) (type : mb_pdu_type_t)
  : option (list Z * Z) :=
  match type with
  | MB_PDU_TYPE_REQ => modbus_pdu_req_make pdu
  | MB_PDU_TYPE_RSP => modbus_pdu_rsp_make pdu
  end.

Definition modbus_pdu_parse (buf : list Z) (len : Z) (pdu : mb_pdu_t)
  (type : mb_pdu_type_t) : Z * mb_pdu_t :=
  match type with
  | MB_PDU_TYPE_REQ => modbus_pdu_req_parse buf len pdu
  | MB_PDU_TYPE_RSP => modbus_pdu_rsp_parse buf len pdu
  end.

(* ------------------------------------------------------------------ *)
(** ** modbus_crc.c

    [modbus_crc_cal] is called by the RTU wrapper but its source file is
    not among the sources. *)

(** Modelled from the spec: one bit-step of the CRC-16, "shift right one;
    if the shifted-out bit is 1, XOR with 0xA001". *)
Definition crc_bit_step (crc : Z) : Z :=
  if Z.odd crc then Z.lxor (Z.shiftr crc 1) 0xA001 else Z.shiftr crc 1.

(** Modelled from the spec: one byte of the CRC-16, "XOR into the low byte
    of the CRC, then for each of 8 bit-steps ...". *)
Definition crc_byte_step (crc byte : Z) : Z :=
  Nat.iter 8 crc_bit_step (Z.lxor crc byte).

(** Modelled from the spec: [modbus_crc_cal(buf, len)], the CRC-16 with
    seed 0xFFFF over the first [len] bytes of [buf]. *)
Definition modbus_crc_cal (buf : list Z) (len : Z) : Z :=
  fold_left crc_byte_step (firstn (Z.to_nat len) buf) 0xFFFF.

(* ------------------------------------------------------------------ *)
(** ** modbus_rtu.h / modbus_rtu.c *)

Definition MB_RTU_SADDR_SIZE : Z := 1.
Definition MB_RTU_CRC_SIZE : Z := 2.
Definition MB_RTU_FRM_MIN : Z :=
  MB_RTU_SADDR_SIZE + MB_RTU_CRC_SIZE + MB_PDU_SIZE_MIN.
Definition MB_RTU_FRM_MAX : Z :=
  MB_RTU_SADDR_SIZE + MB_RTU_CRC_SIZE + MB_PDU_SIZE_MAX.

Definition MB_RTU_ADDR_BROADCAST : Z := 0.
Definition MB_RTU_ADDR_MIN : Z := 1.
Definition MB_RTU_ADDR_MAX : Z := 247.
Definition MB_RTU_ADDR_DEF : Z := 1.

Record mb_rtu_frm_t : Type := mkRtuFrm
  { frm_saddr : Z; frm_pdu : mb_pdu_t }.

Definition modbus_rtu_frame_make (frm : mb_rtu_frm_t) (type : mb_pdu_type_t)
  : option (list Z * Z) :=
  let p := cursor0 in
  let p := put_adv (modbus_cvt_u8_put (frm_saddr frm)) p in
  match modbus_pdu_make (frm_pdu frm) type with
  | None => None
  | Some r =>
      let p := put_adv r p in
      let crc := modbus_crc_cal (out p) (pos p) in
      let p := put_adv ([u8 crc], 1) p in
      let p := put_adv ([u8 (Z.shiftr crc 8)], 1) p in
      Some (made p)
  end.

Definition modbus_rtu_frame_parse (buf : list Z) (len : Z)
  (frm : mb_rtu_frm_t) (type : mb_pdu_type_t) : Z * mb_rtu_frm_t :=
  if len <? MB_RTU_FRM_MIN then (0, frm)
  else
    let saddr := deref buf in
    let remain := len - (MB_RTU_SADDR_SIZE + MB_RTU_CRC_SIZE) in
    let (pdu_len, pdu) :=
      modbus_pdu_parse (ptr_add buf 1) remain (frm_pdu frm) type in
    let frm := mkRtuFrm saddr pdu in
    if pdu_len <=? 0 then (pdu_len, frm)
    else if remain <? pdu_len then (0, frm)
    else
      let flen := pdu_len + (MB_RTU_SADDR_SIZE + MB_RTU_CRC_SIZE) in
      let cal_crc := modbus_crc_cal buf flen in
      if negb (cal_crc =? 0) then (0, frm)
      else (pdu_len, frm).

(** An input is accepted when [modbus_rtu_frame_parse] returns the length
    of its PDU, a positive number; 0 and -1 are its two error results. *)
Definition rtu_frame_accepted (buf : list Z) (len : Z) (frm : mb_rtu_frm_t)
  (type : mb_pdu_type_t) : bool :=
  0 <? fst (modbus_rtu_frame_parse buf len frm type).

(** [n] is the minimum accepted frame length: some input of length [n]
    is accepted, and none that is shorter. *)
Definition min_accepted_frame_length (n : Z) : Prop :=
  (exists buf frm type, rtu_frame_accepted buf n frm type = true)
  /\ (forall buf len frm type,
         len < n -> rtu_frame_accepted buf len frm type = false).

(* ------------------------------------------------------------------ *)
(** ** modbus_backend.h / modbus_backend.c

    The transport operations act on the outside world (a serial device, a
    socket, the clock).  The world is a state of type [W] threaded through
    every call: an operation takes the world and returns its C result
    together with the new world.  The bytes a transport [read] stores into
    the caller's buffer do not reach any return value of the functions
    embedded here; the buffer argument of a read is kept only as a
    nullable pointer. *)

Definition MB_BKD_ACK_TMO_MS_DEF : Z := 300.
Definition MB_BKD_BYTE_TMO_MS_DEF : Z := 32.

Inductive mb_backend_type_t : Type :=
| MB_BACKEND_TYPE_RTU | MB_BACKEND_TYPE_TCP | MB_BACKEND_TYPE_SOCK.

Record mb_backend_param_rtu_t : Type := mkParamRtu
  { rtu_dev : string; rtu_baudrate : Z; rtu_parity : Z;
    rtu_pin : Z; rtu_lvl : Z }.

Record mb_backend_param_tcp_t : Type := mkParamTcp
  { tcp_host : string; tcp_port : Z }.

Record mb_backend_param_sock_t : Type := mkParamSock
  { sock_fd : Z }.

Inductive mb_backend_param_t : Type :=
| ParamRtu (rtu : mb_backend_param_rtu_t)
| ParamTcp (tcp : mb_backend_param_tcp_t)
| ParamSock (sock : mb_backend_param_sock_t).

Section Backend.

Context {W : Type}.

(** The five operation pointers; each may be null. *)
Record mb_backend_ops_t : Type := mkOps
  { op_open : option (mb_backend_param_t -> W -> Z * W);
    op_close : option (Z -> W -> Z * W);
    op_read : option (Z -> Z -> W -> Z * W);
    op_write : option (Z -> list Z -> Z -> W -> Z * W);
    op_flush : option (Z -> W -> Z * W) }.

Record mb_backend_t : Type := mkBackend
  { bk_type : mb_backend_type_t;
    bk_param : mb_backend_param_t;
    bk_ops : option mb_backend_ops_t;
    ack_tmo_ms : Z;
    byte_tmo_ms : Z;
    hinst : Z }.

(** [backend->hinst = h]. *)
Definition set_hinst (backend : mb_backend_t) (h : Z) : mb_backend_t :=
  mkBackend (bk_type backend) (bk_param backend) (bk_ops backend)
    (ack_tmo_ms backend) (byte_tmo_ms backend) h.

(** The platform port ([modbus_port_*]): its sources are not at hand, so
    the functions the backend refers to are taken as parameters. *)
Record modbus_port_t : Type := mkPort
  { modbus_port_tcp_close : Z -> W -> Z * W;
    modbus_port_tcp_read : Z -> Z -> W -> Z * W;
    modbus_port_tcp_write : Z -> list Z -> Z -> W -> Z * W;
    modbus_port_tcp_flush : Z -> W -> Z * W;
    modbus_port_get_ms : W -> Z * W;
    modbus_port_delay_ms : Z -> W -> W }.

Variable port : modbus_port_t.

Definition mb_port_sock_ops : mb_backend_ops_t :=
  mkOps None
    (Some (modbus_port_tcp_close port))
    (Some (modbus_port_tcp_read port))
    (Some (modbus_port_tcp_write port))
    (Some (modbus_port_tcp_flush port)).

(** [calloc_ok] tells whether the allocation of the backend succeeded. *)
Definition modbus_backend_create_sock (calloc_ok : bool)
  (sock : mb_backend_param_sock_t) : option mb_backend_t :=
  if calloc_ok
  then Some (mkBackend MB_BACKEND_TYPE_SOCK (ParamSock sock)
               (Some mb_port_sock_ops)
               MB_BKD_ACK_TMO_MS_DEF MB_BKD_BYTE_TMO_MS_DEF
               (sock_fd sock))
  else None.

(** The functions below take the nullable [mb_backend_t *backend] and
    return, next to the [int] result, the struct behind the pointer as
    they leave it. *)
Definition modbus_backend_open (backend : option mb_backend_t) (w : W)
  : Z * option mb_backend_t * W :=
  match backend with
  | None => (-1, None, w)
  | Some b =>
      if negb (hinst b =? 0) then (0, Some b, w)
      else
        match bk_ops b with
        | None => (-1, Some b, w)
        | Some ops =>
            match op_open ops with
            | None => (-1, Some b, w)
            | Some open =>
                let (h, w) := open (bk_param b) w in
                let b := set_hinst b h in
                if hinst b =? 0 then (-1, Some b, w)
                else (0, Some b, w)
            end
        end
  end.

Definition modbus_backend_close (backend : option mb_backend_t) (w : W)
  : Z * option mb_backend_t * W :=
  match backend with
  | None => (-1, None, w)
  | Some b =>
      if hinst b =? 0 then (0, Some b, w)
      else
        match bk_ops b with
        | None => (-1, Some b, w)
        | Some ops =>
            match op_close ops with
            | None => (-1, Some b, w)
            | Some close =>
                let (rc, w) := close (hinst b) w in
                if negb (rc =? 0) then (-1, Some b, w)
                else (0, Some (set_hinst b 0), w)
            end
        end
  end.

Definition modbus_backend_timeout_config (backend : option mb_backend_t)
  (ack_tmo byte_tmo : Z) : Z * option mb_backend_t :=
  match backend with
  | None => (-1, None)
  | Some b =>
      (0, Some (mkBackend (bk_type b) (bk_param b) (bk_ops b)
                  ack_tmo byte_tmo (hinst b)))
  end.

(** Where the read loop was left: the [return(-1)] after a failed inner
    read (with the [len] that read returned), the loop condition
    [pos < bufsize] turning false, or one of the two [break]s, which carry
    the idle time [tmo_ms] they compared. *)
Inductive read_exit : Type :=
| ExitError (len : Z)
| ExitFull
| ExitByteTmo (tmo_ms : Z)
| ExitAckTmo (tmo_ms : Z).

(** The [while(pos < bufsize)] loop of [modbus_backend_read].  [read] is
    [backend->ops->read]; each unfolding of the loop body uses one unit
    of [fuel].  The source reads the clock through [modbus_port_get_ms]
    and, for the idle time, through [mb_port_get_ms]: one clock under two
    names.  The difference of two clock values is a [long long] that the
    source stores into an [int].  The count [pos + len] is the source's
    [pos += len] on [int]s: it stays within [bufsize], and so within
    [int], as long as the inner read reports at most the capacity it was
    offered, which the theorems about the count require of the read. *)
Fixpoint read_loop (fuel : nat) (backend : mb_backend_t)
  (read : Z -> Z -> W -> Z * W) (bufsize pos told_ms : Z) (w : W)
  : option (read_exit * Z * W) :=
  match fuel with
  | O => None
  | S fuel =>
      if pos <? bufsize then
        let (len, w) := read (hinst backend) (bufsize - pos) w in
        if len <? 0 then Some (ExitError len, pos, w)
        else if 0 <? len then
          let (told_ms, w) := modbus_port_get_ms port w in
          read_loop fuel backend read bufsize (pos + len) told_ms w
        else
          let (now_ms, w) := modbus_port_get_ms port w in
          let tmo_ms := s32 (now_ms - told_ms) in
          if negb (pos =? 0) then
            if byte_tmo_ms backend <? tmo_ms
            then Some (ExitByteTmo tmo_ms, pos, w)
            else read_loop fuel backend read bufsize pos told_ms
                   (modbus_port_delay_ms port 2 w)
          else
            if ack_tmo_ms backend <? tmo_ms
            then Some (ExitAckTmo tmo_ms, pos, w)
            else read_loop fuel backend read bufsize pos told_ms
                   (modbus_port_delay_ms port 2 w)
      else Some (ExitFull, pos, w)
  end.

(** The value returned for a loop exit. *)
Definition read_result (e : read_exit) (pos : Z) : Z :=
  match e with
  | ExitError _ => -1
  | _ => pos
  end.

Definition modbus_backend_read (fuel : nat) (backend : option mb_backend_t)
  (buf : option (list Z)) (bufsize : Z) (w : W) : option (Z * W) :=
  match backend, buf with
  | None, _ => Some (-1, w)
  | _, None => Some (-1, w)
  | Some b, Some _ =>
      if bufsize <=? 0 then Some (-1, w)
      else if hinst b =? 0 then Some (-1, w)
      else
        match bk_ops b with
        | None => Some (-1, w)
        | Some ops =>
            match op_read ops with
            | None => Some (-1, w)
            | Some read =>
                let pos := 0 in
                let (told_ms, w) := modbus_port_get_ms port w in
                match read_loop fuel b read bufsize pos told_ms w with
                | None => None
                | Some (e, pos, w) => Some (read_result e pos, w)
                end
            end
        end
  end.

Definition modbus_backend_write (backend : option mb_backend_t)
  (buf : option (list Z)) (size : Z) (w : W) : Z * W :=
  match backend, buf with
  | None, _ => (-1, w)
  | _, None => (-1, w)
  | Some b, Some bytes =>
      if size <=? 0 then (-1, w)
      else if hinst b =? 0 then (-1, w)
      else
        match bk_ops b with
        | None => (-1, w)
        | Some ops =>
            match op_write ops with
            | None => (-1, w)
            | Some write => write (hinst b) bytes size w
            end
        end
  end.

Definition modbus_backend_flush (backend : option mb_backend_t) (w : W)
  : Z * W :=
  match backend with
  | None => (-1, w)
  | Some b =>
      if hinst b =? 0 then (-1, w)
      else
        match bk_ops b with
        | None => (-1, w)
        | Some ops =>
            match op_flush ops with
            | None => (-1, w)
            | Some flush => flush (hinst b) w
            end
        end
  end.

(* ------------------------------------------------------------------ *)
(** ** modbus_instance.h / modbus_instance.c *)

Inductive mb_prot_t : Type := MB_PROT_RTU | MB_PROT_TCP.

(** The instance; the callback table and the two working buffers are not
    touched by the functions embedded here and are left out. *)
Record mb_inst_t : Type := mkInst
  { inst_saddr : Z;
    inst_prototype : mb_prot_t;
    inst_tsid : Z;
    inst_backend : option mb_backend_t }.

(** How a call ends: it returns, it stops at a failed [MB_ASSERT] (the
    macro's definition is not at hand; the source comments describe it as
    stopping the program in debug builds), or the fuel of the read loop
    ran out. *)
Inductive outcome (A : Type) : Type :=
| Returns (a : A)
| AssertFails
| NoFuel.

Arguments Returns {A} a.
Arguments AssertFails {A}.
Arguments NoFuel {A}.

(** [hinst->backend] after a call that worked on the struct behind it. *)
Definition with_backend (inst : mb_inst_t) (backend : option mb_backend_t)
  : mb_inst_t :=
  mkInst (inst_saddr inst) (inst_prototype inst) (inst_tsid inst) backend.

Definition modbus_connect (inst : option mb_inst_t) (w : W)
  : outcome (Z * mb_inst_t * W) :=
  match inst with
  | None => AssertFails
  | Some i =>
      match inst_backend i with
      | None => AssertFails
      | Some b =>
          let '(rc, b, w) := modbus_backend_open (Some b) w in
          Returns (rc, with_backend i b, w)
      end
  end.

Definition modbus_disconn (inst : option mb_inst_t) (w : W)
  : outcome (Z * mb_inst_t * W) :=
  match inst with
  | None => AssertFails
  | Some i =>
      match inst_backend i with
      | None => AssertFails
      | Some b =>
          let '(rc, b, w) := modbus_backend_close (Some b) w in
          Returns (rc, with_backend i b, w)
      end
  end.

Definition modbus_recv (fuel : nat) (inst : option mb_inst_t)
  (buf : option (list Z)) (bufsize : Z) (w : W)
  : outcome (Z * mb_inst_t * W) :=
  match inst, buf with
  | None, _ => AssertFails
  | _, None => AssertFails
  | Some i, Some _ =>
      match inst_backend i with
      | None => AssertFails
      | Some b =>
          if negb (0 <? bufsize) then AssertFails
          else
            match modbus_backend_read fuel (Some b) buf bufsize w with
            | None => NoFuel
            | Some (len, w) =>
                if len <? 0 then
                  let '(_, b, w) := modbus_backend_close (Some b) w in
                  Returns (len, with_backend i b, w)
                else Returns (len, i, w)
            end
      end
  end.

Definition modbus_send (inst : option mb_inst_t)
  (buf : option (list Z)) (size : Z) (w : W)
  : outcome (Z * mb_inst_t * W) :=
  match inst, buf with
  | None, _ => AssertFails
  | _, None => AssertFails
  | Some i, Some _ =>
      match inst_backend i with
      | None => AssertFails
      | Some b =>
          if negb (0 <? size) then AssertFails
          else
            let (len, w) := modbus_backend_write (Some b) buf size w in
            if len <? 0 then
              let '(_, b, w) := modbus_backend_close (Some b) w in
              Returns (len, with_backend i b, w)
            else Returns (len, i, w)
      end
  end.

End Backend.

Arguments mb_backend_ops_t : clear implicits.
Arguments mb_backend_t : clear implicits.
Arguments modbus_port_t : clear implicits.
Arguments mb_inst_t : clear implicits.
Arguments Returns {A} a.
Arguments AssertFails {A}.
Arguments NoFuel {A}.

(* ------------------------------------------------------------------ *)
(** ** Well-formed PDU values and their comparison *)

(** A payload of a valid PDU: a byte count of 1 to 255 (every Modbus
    count limit starts at 1, and the byte count is a [uint8_t]) with at
    least that many bytes behind [pdata]. *)
Definition payload_valid (dlen : Z) (pdata : list Z) : bool :=
  (1 <=? dlen) && (dlen <? 256)
  && (dlen <=? Z.of_nat (List.length pdata))
  && forallb is_u8 (firstn (Z.to_nat dlen) pdata).

Definition fc_is_read (fc : Z) : bool :=
  (fc =? MODBUS_FC_READ_COILS) || (fc =? MODBUS_FC_READ_DISCRETE_INPUTS)
  || (fc =? MODBUS_FC_READ_HOLDING_REGISTERS)
  || (fc =? MODBUS_FC_READ_INPUT_REGISTERS).

Definition fc_is_write_single (fc : Z) : bool :=
  (fc =? MODBUS_FC_WRITE_SINGLE_COIL)
  || (fc =? MODBUS_FC_WRITE_SINGLE_REGISTER).

Definition fc_is_write_multiple (fc : Z) : bool :=
  (fc =? MODBUS_FC_WRITE_MULTIPLE_COILS)
  || (fc =? MODBUS_FC_WRITE_MULTIPLE_REGISTERS).

(** The ten function codes of the codec. *)
Definition fc_supported (fc : Z) : bool :=
  fc_is_read fc || fc_is_write_single fc || fc_is_write_multiple fc
  || (fc =? MODBUS_FC_MASK_WRITE_REGISTER)
  || (fc =? MODBUS_FC_WRITE_AND_READ_REGISTERS).

(** The minimum request length of a supported function code. *)
Definition req_min_len (fc : Z) : Z :=
  if fc_is_read fc || fc_is_write_single fc then 5
  else if fc_is_write_multiple fc || (fc =? MODBUS_FC_MASK_WRITE_REGISTER)
  then 7
  else 11.

(** A valid PDU value for a direction: the union member is the shape the
    direction uses for the function code, every field fits its C type,
    and a payload is a valid payload. *)
Definition pdu_valid (type : mb_pdu_type_t) (p : mb_pdu_t) : bool :=
  match type, p with
  | MB_PDU_TYPE_REQ, PduRdReq r =>
      fc_is_read (rd_req_fc r) && is_u16 (rd_req_addr r)
      && is_u16 (rd_req_nb r)
  | _, PduWrSingle w =>
      fc_is_write_single (wr_single_fc w) && is_u16 (wr_single_addr w)
      && is_u16 (wr_single_val w)
  | MB_PDU_TYPE_REQ, PduWrReq w =>
      fc_is_write_multiple (wr_req_fc w) && is_u16 (wr_req_addr w)
      && is_u16 (wr_req_nb w)
      && payload_valid (wr_req_dlen w) (wr_req_pdata w)
  | _, PduMaskWr m =>
      (mask_wr_fc m =? MODBUS_FC_MASK_WRITE_REGISTER)
      && is_u16 (mask_wr_addr m) && is_u16 (mask_wr_val_and m)
      && is_u16 (mask_wr_val_or m)
  | MB_PDU_TYPE_REQ, PduWrRdReq w =>
      (wr_rd_fc w =? MODBUS_FC_WRITE_AND_READ_REGISTERS)
      && is_u16 (wr_rd_rd_addr w) && is_u16 (wr_rd_rd_nb w)
      && is_u16 (wr_rd_wr_addr w) && is_u16 (wr_rd_wr_nb w)
      && payload_valid (wr_rd_dlen w) (wr_rd_pdata w)
  | MB_PDU_TYPE_RSP, PduExcept e =>
      is_u8 (exc_fc e) && MODBUS_FC_EXCEPT_CHK (exc_fc e)
      && is_u8 (exc_ec e)
  | MB_PDU_TYPE_RSP, PduRdRsp r =>
      (fc_is_read (rd_rsp_fc r)
       || (rd_rsp_fc r =? MODBUS_FC_WRITE_AND_READ_REGISTERS))
      && payload_valid (rd_rsp_dlen r) (rd_rsp_pdata r)
  | MB_PDU_TYPE_RSP, PduWrRsp w =>
      fc_is_write_multiple (wr_rsp_fc w) && is_u16 (wr_rsp_addr w)
      && is_u16 (wr_rsp_nb w)
  | _, _ => false
  end.

(** The payload a PDU borrows: the first [dlen] bytes behind [pdata]. *)
Definition payload (dlen : Z) (pdata : list Z) : list Z :=
  firstn (Z.to_nat dlen) pdata.

(** Every element of a buffer is a byte. *)
Definition bytes_ok (l : list Z) : Prop := Forall (fun b => 0 <= b < 256) l.

(** Equality of PDU values, payloads compared as byte sequences. *)
Definition pdu_eq (p q : mb_pdu_t) : Prop :=
  match p, q with
  | PduExcept a, PduExcept b => a = b
  | PduRdReq a, PduRdReq b => a = b
  | PduRdRsp a, PduRdRsp b =>
      rd_rsp_fc a = rd_rsp_fc b /\ rd_rsp_dlen a = rd_rsp_dlen b
      /\ payload (rd_rsp_dlen a) (rd_rsp_pdata a)
         = payload (rd_rsp_dlen b) (rd_rsp_pdata b)
  | PduWrSingle a, PduWrSingle b => a = b
  | PduWrReq a, PduWrReq b =>
      wr_req_fc a = wr_req_fc b /\ wr_req_addr a = wr_req_addr b
      /\ wr_req_nb a = wr_req_nb b /\ wr_req_dlen a = wr_req_dlen b
      /\ payload (wr_req_dlen a) (wr_req_pdata a)
         = payload (wr_req_dlen b) (wr_req_pdata b)
  | PduWrRsp a, PduWrRsp b => a = b
  | PduMaskWr a, PduMaskWr b => a = b
  | PduWrRdReq a, PduWrRdReq b =>
      wr_rd_fc a = wr_rd_fc b /\ wr_rd_rd_addr a = wr_rd_rd_addr b
      /\ wr_rd_rd_nb a = wr_rd_rd_nb b
      /\ wr_rd_wr_addr a = wr_rd_wr_addr b
      /\ wr_rd_wr_nb a = wr_rd_wr_nb b /\ wr_rd_dlen a = wr_rd_dlen b
      /\ payload (wr_rd_dlen a) (wr_rd_pdata a)
         = payload (wr_rd_dlen b) (wr_rd_pdata b)
  | _, _ => False
  end.

(** The result of a round trip: [make] produced [bytes] of length [n],
    all of them bytes, and [parse] over these bytes followed by anything
    returns [n] and a PDU equal to [p]. *)
Definition round_trips (type : mb_pdu_type_t) (p : mb_pdu_t) : Prop :=
  exists bytes n,
    modbus_pdu_make p type = Some (bytes, n)
    /\ n = Z.of_nat (List.length bytes)
    /\ 2 <= n
    /\ bytes_ok bytes
    /\ forall extra pdu0,
         exists q,
           modbus_pdu_parse (bytes ++ extra) n pdu0 type = (n, q)
           /\ pdu_eq p q.

(** The handle of an instance's backend (0 when there is no backend). *)
Definition inst_hinst {W : Type} (i : mb_inst_t W) : Z :=
  match inst_backend i with
  | Some b => hinst b
  | None => 0
  end.

(** The close that follows a failed transfer: it ran on the instance's
    backend in world [w1] and left the instance as [i'] in world [w']. *)
Definition closed_after {W : Type} (b : mb_backend_t W) (w1 : W)
  (i' : mb_inst_t W) (w' : W) : Prop :=
  exists rc,
    modbus_backend_close (Some b) w1 = (rc, inst_backend i', w')
    /\ (rc = 0 -> inst_hinst i' = 0)
    /\ (rc <> 0 -> inst_backend i' = Some b).

(* ------------------------------------------------------------------ *)
(** ** What the read loop expects of the transport and the clock *)

Section Environment.

Context {W : Type} (port : modbus_port_t W).

(** The time the clock shows in a world. *)
Definition clock_of (w : W) : Z := fst (modbus_port_get_ms port w).

(** A step of the world during which the clock advances by at least [lo]
    and at most [hi] milliseconds. *)
Definition advances (step : W -> W) (lo hi : Z) : Prop :=
  forall w, clock_of w + lo <= clock_of (step w) <= clock_of w + hi.

(** The clock is monotonic; reading it takes at most [J] ms and the 2 ms
    sleep takes between 1 and [J] ms. *)
Record clock_ok (J : Z) : Prop := mkClockOk
  { get_ms_advances : advances (fun w => snd (modbus_port_get_ms port w)) 0 J;
    delay_ms_advances : advances (modbus_port_delay_ms port 2) 1 J }.

(** The inner read honours its contract: it never reports more bytes than
    the (positive) capacity it was given, and a poll takes at most [J]
    ms. *)
Record read_ok (J : Z) (read : Z -> Z -> W -> Z * W) : Prop := mkReadOk
  { read_within_cap : forall h cap w, 0 < cap -> fst (read h cap w) <= cap;
    read_advances : forall h cap, advances (fun w => snd (read h cap w)) 0 J }.

(** The larger of the two timeouts (0 when both are negative). *)
Definition tmo_max (b : mb_backend_t W) : Z :=
  Z.max (Z.max (ack_tmo_ms b) (byte_tmo_ms b)) 0.

(** The timeouts leave room, below the range of [int], for three steps of
    the world. *)
Definition tmo_ok (J : Z) (b : mb_backend_t W) : Prop :=
  0 <= J /\ tmo_max b + 3 * J < 2147483648.

(** What an exit of the read loop says about the byte count it comes
    with. *)
Definition exit_sound (b : mb_backend_t W) (bufsize : Z) (e : read_exit)
  (pos : Z) : Prop :=
  match e with
  | ExitError len => len < 0
  | ExitFull => pos = bufsize
  | ExitByteTmo t => 0 < pos /\ byte_tmo_ms b < t
  | ExitAckTmo t => pos = 0 /\ ack_tmo_ms b < t
  end.

(** The loop of [modbus_backend_read], entered after the guards, was left
    through exit [e] with [pos] bytes in world [w']. *)
Definition read_left_by (fuel : nat) (backend : option (mb_backend_t W))
  (bufsize : Z) (w : W) (e : read_exit) (pos : Z) (w' : W) : Prop :=
  exists b ops read,
    backend = Some b /\ bk_ops b = Some ops /\ op_read ops = Some read
    /\ read_loop port fuel b read bufsize 0
         (fst (modbus_port_get_ms port w)) (snd (modbus_port_get_ms port w))
       = Some (e, pos, w').




End Environment.

(* ------------------------------------------------------------------ *)
(** ** A scripted transport

    A mock world for running the backend on concrete inputs: a clock and
    the results the next inner reads will report.  Polling costs no time,
    sleeping costs the time asked for, closing and writing report a fixed
    result. *)

Record mock_world : Type := mkMock
  { mw_clock : Z; mw_rx : list Z }.

Definition mock_read (h cap : Z) (w : mock_world) : Z * mock_world :=
  match mw_rx w with
  | [] => (0, w)
  | r :: rest => (Z.min r cap, mkMock (mw_clock w) rest)
  end.

Definition mock_get_ms (w : mock_world) : Z * mock_world := (mw_clock w, w).

Definition mock_delay_ms (d : Z) (w : mock_world) : mock_world :=
  mkMock (mw_clock w + d) (mw_rx w).

Definition mock_close (rc : Z) (h : Z) (w : mock_world) : Z * mock_world :=
  (rc, w).

Definition mock_write (rc : Z) (h : Z) (buf : list Z) (size : Z)
  (w : mock_world) : Z * mock_world := (rc, w).

Definition mock_flush (h : Z) (w : mock_world) : Z * mock_world := (0, w).

Definition mock_port : modbus_port_t mock_world :=
  mkPort (mock_close 0) mock_read (mock_write 0) mock_flush
    mock_get_ms mock_delay_ms.

(** An operation table over the mock world whose close reports
    [close_rc] and whose write reports [write_rc]; [with_read] tells
    whether the read pointer is set. *)
Definition mock_ops (close_rc write_rc : Z) (with_read : bool)
  : mb_backend_ops_t mock_world :=
  mkOps None (Some (mock_close close_rc))
    (if with_read then Some mock_read else None)
    (Some (mock_write write_rc)) (Some mock_flush).

Definition mock_backend (ops : option (mb_backend_ops_t mock_world))
  (h : Z) : mb_backend_t mock_world :=
  mkBackend MB_BACKEND_TYPE_SOCK (ParamSock (mkParamSock h)) ops
    MB_BKD_ACK_TMO_MS_DEF MB_BKD_BYTE_TMO_MS_DEF h.

Definition mock_inst (b : mb_backend_t mock_world) : mb_inst_t mock_world :=
  mkInst MB_RTU_ADDR_DEF MB_PROT_RTU 0 (Some b).

(* ------------------------------------------------------------------ *)
(** ** Further functions of modbus_byte_order_convert.c *)

Definition u32 (v : Z) : Z := v mod 4294967296.

Definition modbus_cvt_u32_put (val : Z) : list Z * Z :=
  ([u8 (Z.shiftr val 24); u8 (Z.shiftr val 16); u8 (Z.shiftr val 8); u8 val],
   4).

Definition modbus_cvt_u32_get (buf : list Z) : Z * Z :=
  let uval := deref buf in
  let uval := u32 (Z.shiftl uval 8) in
  let uval := u32 (uval + deref (ptr_add buf 1)) in
  let uval := u32 (Z.shiftl uval 8) in
  let uval := u32 (uval + deref (ptr_add buf 2)) in
  let uval := u32 (Z.shiftl uval 8) in
  let uval := u32 (uval + deref (ptr_add buf 3)) in
  (uval, 4).

(** [a[i]] read from a byte array; an index outside the array yields 0
    (the C code would read whatever lies there). *)
Definition arr_get (a : list Z) (i : Z) : Z :=
  if i <? 0 then 0 else nth (Z.to_nat i) a 0.

(** The list [l] with its element number [n] replaced by [v]. *)
Fixpoint list_upd (n : nat) (v : Z) (l : list Z) {struct l} : list Z :=
  match l with
  | [] => []
  | h :: t =>
      match n with
      | O => v :: t
      | S n => h :: list_upd n v t
      end
  end.

(** [a[i] = v]; a store outside the array is not represented (the C code
    would overwrite whatever lies there). *)
Definition arr_set (a : list Z) (i : Z) (v : Z) : list Z :=
  if i <? 0 then a else list_upd (Z.to_nat i) v a.

(** [idx / 8] and [idx % 8] are C's truncating division and remainder. *)
Definition modbus_bitmap_get (pbits : list Z) (idx : Z) : Z :=
  if negb (Z.land (arr_get pbits (Z.quot idx 8))
                  (Z.shiftl 1 (Z.rem idx 8)) =? 0)
  then 1 else 0.

(** [bit] is a [uint8_t] parameter: the function tests the value the
    argument has after conversion to that type. *)
Definition modbus_bitmap_set (pbits : list Z) (idx : Z) (bit : Z) : list Z :=
  if negb (u8 bit =? 0) then
    arr_set pbits (Z.quot idx 8)
      (u8 (Z.lor (arr_get pbits (Z.quot idx 8))
                 (Z.shiftl 1 (Z.rem idx 8))))
  else
    arr_set pbits (Z.quot idx 8)
      (u8 (Z.land (arr_get pbits (Z.quot idx 8))
                  (Z.lnot (Z.shiftl 1 (Z.rem idx 8))))).

(* ------------------------------------------------------------------ *)
(** ** Further functions of modbus_instance.c *)

Definition modbus_set_slave_addr {W : Type} (inst : option (mb_inst_t W))
  (saddr : Z) : outcome (mb_inst_t W) :=
  match inst with
  | None => AssertFails
  | Some i =>
      Returns (mkInst (u8 saddr) (inst_prototype i) (inst_tsid i)
                 (inst_backend i))
  end.

Definition modbus_set_prototype {W : Type} (inst : option (mb_inst_t W))
  (prot : mb_prot_t) : outcome (mb_inst_t W) :=
  match inst with
  | None => AssertFails
  | Some i =>
      Returns (mkInst (inst_saddr i) prot (inst_tsid i) (inst_backend i))
  end.

(** The source calls [modbus_backend_config], the name the header
    declares; the backend defines the function as
    [modbus_backend_timeout_config]. *)
Definition modbus_set_tmo {W : Type} (inst : option (mb_inst_t W))
  (ack_tmo byte_tmo : Z) : outcome (mb_inst_t W) :=
  match inst with
  | None => AssertFails
  | Some i =>
      match inst_backend i with
      | None => AssertFails
      | Some b =>
          Returns (with_backend i
                     (snd (modbus_backend_timeout_config (Some b)
                             ack_tmo byte_tmo)))
      end
  end.

Definition modbus_flush {W : Type} (inst : option (mb_inst_t W)) (w : W)
  : outcome (Z * W) :=
  match inst with
  | None => AssertFails
  | Some i =>
      match inst_backend i with
      | None => AssertFails
      | Some b => Returns (modbus_backend_flush (Some b) w)
      end
  end.

(* ------------------------------------------------------------------ *)
(** ** Minimum lengths of the response direction *)

(** The minimum response length of a supported function code: 3 for the
    read responses (0x01-0x04 and 0x17), 5 for the single and multiple
    write responses, 7 for mask-write. *)
Definition rsp_min_len (fc : Z) : Z :=
  if fc_is_read fc || (fc =? MODBUS_FC_WRITE_AND_READ_REGISTERS) then 3
  else if fc_is_write_single fc || fc_is_write_multiple fc then 5
  else 7.

(* ------------------------------------------------------------------ *)
(** ** A scripted transport that can be opened *)

(** An open operation over the mock world that hands out the handle
    [h]. *)
Definition mock_open (h : Z) (param : mb_backend_param_t) (w : mock_world)
  : Z * mock_world := (h, w).

(** An operation table over the mock world with an open operation. *)
Definition mock_open_ops (open_h close_rc : Z)
  : mb_backend_ops_t mock_world :=
  mkOps (Some (mock_open open_h)) (Some (mock_close close_rc))
    (Some mock_read) (Some (mock_write 0)) (Some mock_flush).

(* ------------------------------------------------------------------ *)
(** ** The timeout in force *)

(** The timeout the read loop compares the idle time with while [pos]
    bytes have been received: the response timeout before the first byte,
    the inter-byte timeout after it. *)
Definition tmo_at {W : Type} (b : mb_backend_t W) (pos : Z) : Z :=
  if pos =? 0 then ack_tmo_ms b else byte_tmo_ms b.

(* ------------------------------------------------------------------ *)
(** * Properties of the transport abstraction *)

Section BackendProps.

Context {W : Type}.

Lemma open_when_open (b : mb_backend_t W) (w : W) :
  hinst b <> 0 -> modbus_backend_open (Some b) w = (0, Some b, w).
Proof.
  intros Hh. unfold modbus_backend_open.
  destruct (Z.eqb_spec (hinst b) 0) as [E | _]; [contradiction | reflexivity].
Qed.

Lemma open_without_open_op (b : mb_backend_t W) (ops : mb_backend_ops_t W)
  (w : W) :
  hinst b = 0 -> bk_ops b = Some ops -> op_open ops = None ->
  modbus_backend_open (Some b) w = (-1, Some b, w).
Proof.
  intros Hh Hops Hopen. unfold modbus_backend_open.
  rewrite Hh, Hops, Hopen. reflexivity.
Qed.

Lemma close_when_closed (b : mb_backend_t W) (w : W) :
  hinst b = 0 -> modbus_backend_close (Some b) w = (0, Some b, w).
Proof.
  intros Hh. unfold modbus_backend_close. rewrite Hh. reflexivity.
Qed.

(** What [modbus_backend_close] does to an open backend, by cases on the
    operation table. *)
Lemma close_when_open (b : mb_backend_t W) (w : W) :
  hinst b <> 0 ->
  modbus_backend_close (Some b) w =
  match bk_ops b with
  | None => (-1, Some b, w)
  | Some ops =>
      match op_close ops with
      | None => (-1, Some b, w)
      | Some close =>
          if fst (close (hinst b) w) =? 0
          then (0, Some (set_hinst b 0), snd (close (hinst b) w))
          else (-1, Some b, snd (close (hinst b) w))
      end
  end.
Proof.
  intros Hh. unfold modbus_backend_close.
  destruct (Z.eqb_spec (hinst b) 0) as [E | _]; [contradiction |].
  destruct (bk_ops b) as [ops |]; [| reflexivity].
  destruct (op_close ops) as [close |]; [| reflexivity].
  destruct (close (hinst b) w) as [rc w1]. simpl.
  destruct (rc =? 0); reflexivity.
Qed.

(** After a close the handle is null if the close returned 0 and is the
    old handle otherwise; the backend pointer itself stays. *)
Lemma close_handle (b : mb_backend_t W) (w : W) :
  exists b',
    snd (fst (modbus_backend_close (Some b) w)) = Some b'
    /\ (fst (fst (modbus_backend_close (Some b) w)) = 0 -> hinst b' = 0)
    /\ (fst (fst (modbus_backend_close (Some b) w)) <> 0 -> b' = b).
Proof.
  destruct (Z.eq_dec (hinst b) 0) as [E | N].
  - rewrite (close_when_closed b w E). exists b. simpl. tauto.
  - rewrite (close_when_open b w N).
    destruct (bk_ops b) as [ops |].
    + destruct (op_close ops) as [close |].
      * destruct (fst (close (hinst b) w) =? 0).
        -- exists (set_hinst b 0). simpl. intuition congruence.
        -- exists b. simpl. intuition congruence.
      * exists b. simpl. intuition congruence.
    + exists b. simpl. intuition congruence.
Qed.

End BackendProps.

(** C1 (what the code does): a backend adopted from the socket descriptor
    0 is created with a null handle and the socket operation table, whose
    open pointer is null; [modbus_backend_open] on it returns -1 and
    leaves the backend and the world as they were, where the claim asks
    for a no-op returning 0. *)
Theorem modbus_backend_open_sock_null_open_fails :
  forall (W : Type) (port : modbus_port_t W) (w : W),
    exists b,
      modbus_backend_create_sock port true (mkParamSock 0) = Some b
      /\ hinst b = 0
      /\ bk_ops b = Some (mb_port_sock_ops port)
      /\ op_open (mb_port_sock_ops port) = None
      /\ modbus_backend_open (Some b) w = (-1, Some b, w).
Proof.
  intros W port w. eexists. split; [reflexivity |].
  repeat split.
Qed.

(** C9: when the handle of a backend is already non-null,
    [modbus_backend_open] returns 0 with the backend and the world
    unchanged (no operation ran); a backend adopted from a nonzero socket
    descriptor [fd] has its handle set to [fd] at creation and a null open
    operation, and opening it returns 0. *)
Theorem modbus_backend_open_idempotent :
  forall (W : Type) (port : modbus_port_t W) (b : mb_backend_t W)
         (fd : Z) (w : W),
    hinst b <> 0 ->
    fd <> 0 ->
    modbus_backend_open (Some b) w = (0, Some b, w)
    /\ exists sb ops,
         modbus_backend_create_sock port true (mkParamSock fd) = Some sb
         /\ hinst sb = fd
         /\ bk_ops sb = Some ops /\ op_open ops = None
         /\ modbus_backend_open (Some sb) w = (0, Some sb, w).
Proof.
  intros W port b fd w Hb Hfd. split.
  - apply open_when_open; assumption.
  - eexists. exists (mb_port_sock_ops port).
    split; [reflexivity |]. split; [reflexivity |].
    split; [reflexivity |]. split; [reflexivity |].
    apply open_when_open. simpl. assumption.
Qed.

Lemma modbus_backend_open_idempotent_witness :
  let b := mock_backend (Some (mock_ops 0 0 true)) 7 in
  let w := mkMock 0 [] in
  hinst b <> 0 /\ 4 <> 0
  /\ modbus_backend_open (Some b) w = (0, Some b, w)
  /\ exists sb ops,
       modbus_backend_create_sock mock_port true (mkParamSock 4) = Some sb
       /\ hinst sb = 4
       /\ bk_ops sb = Some ops /\ op_open ops = None
       /\ modbus_backend_open (Some sb) w = (0, Some sb, w).
Proof.
  intros b w.
  assert (Hb : hinst b <> 0) by (simpl; lia).
  assert (Hfd : 4 <> 0) by lia.
  split; [exact Hb |]. split; [exact Hfd |].
  exact (modbus_backend_open_idempotent mock_world mock_port b 4 w Hb Hfd).
Defined.

(** C10: [modbus_backend_close] on a backend whose handle is null returns
    0 with the backend and the world unchanged (the close operation did
    not run); when the close operation returns nonzero it returns -1 and
    the backend, handle included, is unchanged; and whenever it turns a
    non-null handle into null it returned 0 after a close operation that
    returned 0. *)
Theorem modbus_backend_close_atomic :
  forall (W : Type) (b : mb_backend_t W) (w : W),
    (hinst b = 0 -> modbus_backend_close (Some b) w = (0, Some b, w))
    /\ (forall ops close,
          hinst b <> 0 -> bk_ops b = Some ops -> op_close ops = Some close ->
          fst (close (hinst b) w) <> 0 ->
          modbus_backend_close (Some b) w
          = (-1, Some b, snd (close (hinst b) w)))
    /\ (forall rc b' w',
          modbus_backend_close (Some b) w = (rc, Some b', w') ->
          hinst b <> 0 -> hinst b' = 0 ->
          rc = 0
          /\ exists ops close,
               bk_ops b = Some ops /\ op_close ops = Some close
               /\ close (hinst b) w = (0, w')).
Proof.
  intros W b w. split; [| split].
  - apply close_when_closed.
  - intros ops close Hh Hops Hclose Hrc.
    rewrite (close_when_open b w Hh), Hops, Hclose.
    destruct (Z.eqb_spec (fst (close (hinst b) w)) 0) as [E | _];
      [contradiction | reflexivity].
  - intros rc b' w' Hrun Hh Hh'.
    rewrite (close_when_open b w Hh) in Hrun.
    destruct (bk_ops b) as [ops |] eqn:Hops;
      [| injection Hrun as _ Hb _; subst b'; contradiction].
    destruct (op_close ops) as [close |] eqn:Hclose;
      [| injection Hrun as _ Hb _; subst b'; contradiction].
    destruct (close (hinst b) w) as [crc cw] eqn:Hc. simpl in Hrun.
    destruct (Z.eqb_spec crc 0) as [E | N].
    + injection Hrun as Hrc _ Hw. subst rc w' crc. split; [reflexivity |].
      exists ops, close. split; [reflexivity |]. split; [exact Hclose |].
      exact Hc.
    + injection Hrun as _ Hb _. subst b'. contradiction.
Qed.

Lemma modbus_backend_close_atomic_witness :
  let b := mock_backend (Some (mock_ops (-1) 0 true)) 7 in
  let w := mkMock 0 [] in
  modbus_backend_close (Some b) w = (-1, Some b, w)
  /\ modbus_backend_close (Some (set_hinst b 0)) w
     = (0, Some (set_hinst b 0), w).
Proof.
  intros b w. split.
  - destruct (modbus_backend_close_atomic mock_world b w) as [_ [H _]].
    apply (H (mock_ops (-1) 0 true) (mock_close (-1)));
      [simpl; lia | reflexivity | reflexivity | simpl; lia].
  - destruct (modbus_backend_close_atomic mock_world (set_hinst b 0) w)
      as [H _].
    apply H. reflexivity.
Defined.

(* ------------------------------------------------------------------ *)
(** * Properties of the instance level receive and send *)

Section InstanceProps.

Context {W : Type} (port : modbus_port_t W).

Lemma closed_after_intro (i : mb_inst_t W) (b : mb_backend_t W) (w1 : W) :
  forall rc b' w',
    modbus_backend_close (Some b) w1 = (rc, b', w') ->
    closed_after b w1 (with_backend i b') w'.
Proof.
  intros rc b' w' Hc. exists rc.
  destruct (close_handle b w1) as [b2 [Hb2 [Hz Hnz]]].
  rewrite Hc in Hb2, Hz, Hnz. simpl in Hb2, Hz, Hnz. subst b'.
  split; [exact Hc |]. unfold inst_hinst. simpl. split.
  - exact Hz.
  - intros Hrc. rewrite (Hnz Hrc). reflexivity.
Qed.

Lemma modbus_recv_error (fuel : nat) (i : mb_inst_t W)
  (buf : option (list Z)) (n : Z) (w : W) :
  forall len i' w',
    modbus_recv port fuel (Some i) buf n w = Returns (len, i', w') ->
    len < 0 ->
    exists b w1,
      inst_backend i = Some b
      /\ modbus_backend_read port fuel (Some b) buf n w = Some (len, w1)
      /\ closed_after b w1 i' w'.
Proof.
  intros len i' w' Hrun Hlen. unfold modbus_recv in Hrun.
  destruct buf as [bytes |]; [| discriminate].
  destruct (inst_backend i) as [b |] eqn:Hb; [| discriminate].
  destruct (negb (0 <? n)); [discriminate |].
  destruct (modbus_backend_read port fuel (Some b) (Some bytes) n w)
    as [[len1 w1] |] eqn:Hread; [| discriminate].
  destruct (Z.ltb_spec len1 0) as [Hneg | Hpos].
  - destruct (modbus_backend_close (Some b) w1) as [[rc b'] w2] eqn:Hc.
    injection Hrun as Hl Hi Hw. subst len1 i' w2.
    exists b, w1. split; [reflexivity |]. split; [exact Hread |].
    exact (closed_after_intro i b w1 rc b' w' Hc).
  - injection Hrun as Hl _ _. lia.
Qed.

Lemma modbus_send_error (i : mb_inst_t W)
  (buf : option (list Z)) (n : Z) (w : W) :
  forall len i' w',
    modbus_send (Some i) buf n w = Returns (len, i', w') ->
    len < 0 ->
    exists b w1,
      inst_backend i = Some b
      /\ modbus_backend_write (Some b) buf n w = (len, w1)
      /\ closed_after b w1 i' w'.
Proof.
  intros len i' w' Hrun Hlen. unfold modbus_send in Hrun.
  destruct buf as [bytes |]; [| discriminate].
  destruct (inst_backend i) as [b |] eqn:Hb; [| discriminate].
  destruct (negb (0 <? n)); [discriminate |].
  destruct (modbus_backend_write (Some b) (Some bytes) n w)
    as [len1 w1] eqn:Hwrite.
  destruct (Z.ltb_spec len1 0) as [Hneg | Hpos].
  - destruct (modbus_backend_close (Some b) w1) as [[rc b'] w2] eqn:Hc.
    injection Hrun as Hl Hi Hw. subst len1 i' w2.
    exists b, w1. split; [reflexivity |]. split; [exact Hwrite |].
    exact (closed_after_intro i b w1 rc b' w' Hc).
  - injection Hrun as Hl _ _. lia.
Qed.

End InstanceProps.

(** C7 (as amended): whenever [modbus_recv] or [modbus_send] returns -1,
    [modbus_backend_close] has run on the instance's backend after the
    failed read or write and before returning; if that close returned 0
    the handle of the instance's backend is null, and if it did not the
    backend is left as it was. *)
Theorem modbus_recv_send_error_closes :
  forall (W : Type) (port : modbus_port_t W) (fuel : nat)
         (i : mb_inst_t W) (buf : option (list Z)) (n : Z) (w : W)
         (len : Z) (i' : mb_inst_t W) (w' : W),
    len = -1 ->
    (modbus_recv port fuel (Some i) buf n w = Returns (len, i', w') ->
     exists b w1,
       inst_backend i = Some b
       /\ modbus_backend_read port fuel (Some b) buf n w = Some (len, w1)
       /\ closed_after b w1 i' w')
    /\ (modbus_send (Some i) buf n w = Returns (len, i', w') ->
        exists b w1,
          inst_backend i = Some b
          /\ modbus_backend_write (Some b) buf n w = (len, w1)
          /\ closed_after b w1 i' w').
Proof.
  intros W port fuel i buf n w len i' w' Hlen. split; intros Hrun.
  - apply (modbus_recv_error port fuel i buf n w len i' w' Hrun). lia.
  - apply (modbus_send_error i buf n w len i' w' Hrun). lia.
Qed.

Lemma modbus_recv_send_error_closes_witness :
  let b := mock_backend (Some (mock_ops 0 (-1) true)) 7 in
  let i := mock_inst b in
  let i' := mock_inst (set_hinst b 0) in
  (exists b0 w1,
     inst_backend i = Some b0
     /\ modbus_backend_read mock_port 1 (Some b0) (Some []) 8 (mkMock 0 [-1])
        = Some (-1, w1)
     /\ closed_after b0 w1 i' (mkMock 0 []))
  /\ (exists b0 w1,
        inst_backend i = Some b0
        /\ modbus_backend_write (Some b0) (Some [1; 2]) 2 (mkMock 0 [])
           = (-1, w1)
        /\ closed_after b0 w1 i' (mkMock 0 [])).
Proof.
  intros b i i'. split.
  - apply (modbus_recv_send_error_closes mock_world mock_port 1 i
             (Some []) 8 (mkMock 0 [-1]) (-1) i' (mkMock 0 []));
      reflexivity.
  - apply (modbus_recv_send_error_closes mock_world mock_port 1 i
             (Some [1; 2]) 2 (mkMock 0 []) (-1) i' (mkMock 0 []));
      reflexivity.
Defined.

(** C7 (as stated) fails: with a transport whose read reports an error and
    whose close operation reports a failure, [modbus_recv] returns -1 and
    the handle of the instance's backend is still the non-null 7. *)
Lemma modbus_recv_error_handle_not_null :
  let b := mock_backend (Some (mock_ops (-1) 0 true)) 7 in
  exists i' w',
    modbus_recv mock_port 1 (Some (mock_inst b)) (Some []) 8 (mkMock 0 [-1])
    = Returns (-1, i', w')
    /\ inst_hinst i' <> 0.
Proof.
  intros b. eexists. eexists. split; [reflexivity |].
  vm_compute. discriminate.
Qed.

(* ------------------------------------------------------------------ *)
(** * Properties of the PDU codec *)

Lemma fc_supported_cases (fc : Z) :
  fc_supported fc = true <-> In fc [1; 2; 3; 4; 5; 6; 15; 16; 22; 23].
Proof.
  unfold fc_supported, fc_is_read, fc_is_write_single, fc_is_write_multiple,
    MODBUS_FC_READ_COILS, MODBUS_FC_READ_DISCRETE_INPUTS,
    MODBUS_FC_READ_HOLDING_REGISTERS, MODBUS_FC_READ_INPUT_REGISTERS,
    MODBUS_FC_WRITE_SINGLE_COIL, MODBUS_FC_WRITE_SINGLE_REGISTER,
    MODBUS_FC_WRITE_MULTIPLE_COILS, MODBUS_FC_WRITE_MULTIPLE_REGISTERS,
    MODBUS_FC_MASK_WRITE_REGISTER, MODBUS_FC_WRITE_AND_READ_REGISTERS.
  rewrite !orb_true_iff, !Z.eqb_eq. simpl. intuition lia.
Qed.

(** Outside the twelve case labels the switch takes its default. *)
Lemma fc_switch_default {A : Type} (fc : Z)
  (k_rd k_single k_multi k_mask k_wr_rd dflt : A) :
  fc_supported fc = false ->
  fc_switch fc k_rd k_single k_multi k_mask k_wr_rd dflt = dflt.
Proof.
  intros Hns.
  assert (Hnot : ~ In fc [1; 2; 3; 4; 5; 6; 15; 16; 22; 23]).
  { rewrite <- fc_supported_cases, Hns. discriminate. }
  simpl in Hnot. unfold fc_switch,
    MODBUS_FC_READ_COILS, MODBUS_FC_READ_DISCRETE_INPUTS,
    MODBUS_FC_READ_HOLDING_REGISTERS, MODBUS_FC_READ_INPUT_REGISTERS,
    MODBUS_FC_WRITE_SINGLE_COIL, MODBUS_FC_WRITE_SINGLE_REGISTER,
    MODBUS_FC_READ_EXCEPTION_STATUS,
    MODBUS_FC_WRITE_MULTIPLE_COILS, MODBUS_FC_WRITE_MULTIPLE_REGISTERS,
    MODBUS_FC_REPORT_SLAVE_ID,
    MODBUS_FC_MASK_WRITE_REGISTER, MODBUS_FC_WRITE_AND_READ_REGISTERS.
  repeat match goal with
         | |- context [?x =? ?y] =>
             destruct (Z.eqb_spec x y); [try (exfalso; lia) |]
         end; reflexivity.
Qed.

(** The case taken by the switch for each class of function code. *)
Lemma fc_switch_rd {A : Type} (fc : Z) (k1 k2 k3 k4 k5 d : A) :
  fc_is_read fc = true -> fc_switch fc k1 k2 k3 k4 k5 d = k1.
Proof.
  unfold fc_is_read. rewrite !orb_true_iff, !Z.eqb_eq.
  intros [[[H | H] | H] | H]; subst fc; reflexivity.
Qed.

Lemma fc_switch_single {A : Type} (fc : Z) (k1 k2 k3 k4 k5 d : A) :
  fc_is_write_single fc = true -> fc_switch fc k1 k2 k3 k4 k5 d = k2.
Proof.
  unfold fc_is_write_single. rewrite !orb_true_iff, !Z.eqb_eq.
  intros [H | H]; subst fc; reflexivity.
Qed.

Lemma fc_switch_multi {A : Type} (fc : Z) (k1 k2 k3 k4 k5 d : A) :
  fc_is_write_multiple fc = true -> fc_switch fc k1 k2 k3 k4 k5 d = k3.
Proof.
  unfold fc_is_write_multiple. rewrite !orb_true_iff, !Z.eqb_eq.
  intros [H | H]; subst fc; reflexivity.
Qed.

Lemma fc_switch_mask {A : Type} (fc : Z) (k1 k2 k3 k4 k5 d : A) :
  (fc =? MODBUS_FC_MASK_WRITE_REGISTER) = true ->
  fc_switch fc k1 k2 k3 k4 k5 d = k4.
Proof.
  rewrite Z.eqb_eq. intros H; subst fc; reflexivity.
Qed.

Lemma fc_switch_wr_rd {A : Type} (fc : Z) (k1 k2 k3 k4 k5 d : A) :
  (fc =? MODBUS_FC_WRITE_AND_READ_REGISTERS) = true ->
  fc_switch fc k1 k2 k3 k4 k5 d = k5.
Proof.
  rewrite Z.eqb_eq. intros H; subst fc; reflexivity.
Qed.

(** Rewrites the switch on a known function code to the case it takes. *)
Ltac fc_switch_case :=
  first [ rewrite fc_switch_rd by reflexivity
        | rewrite fc_switch_single by reflexivity
        | rewrite fc_switch_multi by reflexivity
        | rewrite fc_switch_mask by reflexivity
        | rewrite fc_switch_wr_rd by reflexivity ].

(** C6: in the request direction [modbus_pdu_parse] returns -1 when the
    first byte of the buffer is none of the ten supported function codes,
    and returns 0 when the function code is supported but the length is
    below the minimum of its shape (5 for the reads and single writes, 7
    for write-multiple and mask-write, 11 for read-write); in both cases
    the output PDU is left as it was. *)
Theorem modbus_pdu_req_parse_errors :
  forall (fc : Z) (rest : list Z) (len : Z) (pdu : mb_pdu_t),
    (fc_supported fc = false ->
     modbus_pdu_parse (fc :: rest) len pdu MB_PDU_TYPE_REQ = (-1, pdu))
    /\ (fc_supported fc = true -> len < req_min_len fc ->
        modbus_pdu_parse (fc :: rest) len pdu MB_PDU_TYPE_REQ = (0, pdu)).
Proof.
  intros fc rest len pdu. split.
  - intros Hns. simpl. unfold modbus_pdu_req_parse.
    apply fc_switch_default. exact Hns.
  - intros Hs Hlen. apply fc_supported_cases in Hs. simpl in Hs.
    unfold modbus_pdu_parse, modbus_pdu_req_parse.
    unfold deref, hd.
    repeat (destruct Hs as [Hs | Hs];
            [subst fc;
             match type of Hlen with
             | _ < ?e => let v := eval vm_compute in e in
                         change e with v in Hlen
             end;
             fc_switch_case;
             unfold modbus_pdu_rd_req_parse, modbus_pdu_wr_single_parse,
               modbus_pdu_wr_req_parse, modbus_pdu_mask_wr_parse,
               modbus_pdu_wr_rd_req_parse;
             match goal with
             | |- context [len <? ?k] =>
                 destruct (Z.ltb_spec len k); [reflexivity | lia]
             end |]).
    contradiction.
Qed.

Lemma modbus_pdu_req_parse_errors_witness :
  modbus_pdu_parse [0x07; 0; 0; 0; 1] 5 (PduExcept (mkExcept 0 0))
    MB_PDU_TYPE_REQ = (-1, PduExcept (mkExcept 0 0))
  /\ modbus_pdu_parse [0x10; 0; 1; 0; 1; 2] 6 (PduExcept (mkExcept 0 0))
       MB_PDU_TYPE_REQ = (0, PduExcept (mkExcept 0 0)).
Proof.
  split.
  - apply (modbus_pdu_req_parse_errors 0x07 [0; 0; 0; 1] 5). reflexivity.
  - apply (modbus_pdu_req_parse_errors 0x10 [0; 1; 0; 1; 2] 6).
    + reflexivity.
    + change (req_min_len 16) with 7. lia.
Defined.

(* ------------------------------------------------------------------ *)
(** * Properties of the RTU frame wrapper *)

(** With fewer than two bytes to read, the PDU parser fails in either
    direction and leaves the output PDU as it was. *)
Lemma pdu_parse_one_byte (buf : list Z) (len : Z) (pdu : mb_pdu_t)
  (type : mb_pdu_type_t) :
  len < 2 ->
  modbus_pdu_parse buf len pdu type = (0, pdu)
  \/ modbus_pdu_parse buf len pdu type = (-1, pdu).
Proof.
  intros Hlen.
  destruct type; unfold modbus_pdu_parse, modbus_pdu_req_parse,
    modbus_pdu_rsp_parse;
    try destruct (MODBUS_FC_EXCEPT_CHK (deref buf));
    unfold fc_switch;
    repeat match goal with
           | |- context [if ?a =? ?b then _ else _] => destruct (a =? b)
           end;
    try (right; reflexivity);
    unfold modbus_pdu_except_parse, modbus_pdu_rd_req_parse,
      modbus_pdu_rd_rsp_parse, modbus_pdu_wr_single_parse,
      modbus_pdu_wr_req_parse, modbus_pdu_wr_rsp_parse,
      modbus_pdu_mask_wr_parse, modbus_pdu_wr_rd_req_parse;
    match goal with
    | |- context [if len <? ?k then _ else _] =>
        destruct (Z.ltb_spec len k); [left; reflexivity | lia]
    end.
Qed.

Lemma rtu_frame_parse_length_4 (buf : list Z) (frm : mb_rtu_frm_t)
  (type : mb_pdu_type_t) :
  fst (modbus_rtu_frame_parse buf 4 frm type) = 0
  \/ fst (modbus_rtu_frame_parse buf 4 frm type) = -1.
Proof.
  unfold modbus_rtu_frame_parse.
  change (4 <? MB_RTU_FRM_MIN) with false. cbv iota.
  change (4 - (MB_RTU_SADDR_SIZE + MB_RTU_CRC_SIZE)) with 1.
  destruct (pdu_parse_one_byte (ptr_add buf 1) 1 (frm_pdu frm) type
              ltac:(lia)) as [H | H]; rewrite H; [left | right]; reflexivity.
Qed.

Lemma rtu_frame_accepted_length (buf : list Z) (len : Z) (frm : mb_rtu_frm_t)
  (type : mb_pdu_type_t) :
  len < 5 -> rtu_frame_accepted buf len frm type = false.
Proof.
  intros Hlen. unfold rtu_frame_accepted.
  apply Z.ltb_ge.
  unfold modbus_rtu_frame_parse.
  change MB_RTU_FRM_MIN with 4.
  change (MB_RTU_SADDR_SIZE + MB_RTU_CRC_SIZE) with 3.
  destruct (Z.ltb_spec len 4) as [Hlt | Hge]; [simpl; lia |].
  destruct (pdu_parse_one_byte (ptr_add buf 1) (len - 3) (frm_pdu frm) type
              ltac:(lia)) as [H | H]; rewrite H; simpl; lia.
Qed.

(** C8: [modbus_rtu_frame_parse] returns 0, leaving the output frame as it
    was, for every input of length 3 or less.  The frame length it checks
    against is 4, so an input of length 4 passes that check and reaches
    the PDU parser, which is given one byte and answers 0 or -1 (-1 for an
    unsupported function code): no input of length 4 is accepted.  The
    minimum accepted frame length is 5, the length of an exception
    response with its address and CRC. *)
Theorem modbus_rtu_frame_parse_min_length :
  forall (buf : list Z) (len : Z) (frm : mb_rtu_frm_t) (type : mb_pdu_type_t),
    (len <= 3 -> modbus_rtu_frame_parse buf len frm type = (0, frm))
    /\ MB_RTU_FRM_MIN = 4
    /\ (len = 4 ->
        (len <? MB_RTU_FRM_MIN) = false
        /\ (fst (modbus_rtu_frame_parse buf len frm type) = 0
            \/ fst (modbus_rtu_frame_parse buf len frm type) = -1))
    /\ fst (modbus_rtu_frame_parse [0x01; 0x07; 0x00; 0x00] 4 frm type) = -1
    /\ min_accepted_frame_length 5.
Proof.
  intros buf len frm type. split; [| split; [| split; [| split]]].
  - intros Hlen. unfold modbus_rtu_frame_parse.
    destruct (Z.ltb_spec len MB_RTU_FRM_MIN) as [_ | Hge];
      [reflexivity | change MB_RTU_FRM_MIN with 4 in Hge; lia].
  - reflexivity.
  - intros Hlen. subst len. split; [reflexivity |].
    apply rtu_frame_parse_length_4.
  - destruct type; reflexivity.
  - split.
    + exists [0x11; 0x83; 0x02; 0xC1; 0x34],
        (mkRtuFrm 0 (PduExcept (mkExcept 0 0))), MB_PDU_TYPE_RSP.
      reflexivity.
    + intros buf0 len0 frm0 type0. apply rtu_frame_accepted_length.
Qed.

Lemma modbus_rtu_frame_parse_min_length_witness :
  let frm := mkRtuFrm 0 (PduExcept (mkExcept 0 0)) in
  let buf := [0x11; 0x83; 0x02; 0xC1; 0x34] in
  (3 <= 3 /\ modbus_rtu_frame_parse buf 3 frm MB_PDU_TYPE_RSP = (0, frm))
  /\ (4 = 4
      /\ (fst (modbus_rtu_frame_parse buf 4 frm MB_PDU_TYPE_RSP) = 0
          \/ fst (modbus_rtu_frame_parse buf 4 frm MB_PDU_TYPE_RSP) = -1))
  /\ modbus_rtu_frame_parse buf 5 frm MB_PDU_TYPE_RSP
     = (2, mkRtuFrm 0x11 (PduExcept (mkExcept 0x83 0x02))).
Proof.
  intros frm buf.
  assert (H3 : 3 <= 3) by lia.
  assert (H4 : 4 = 4) by reflexivity.
  destruct (modbus_rtu_frame_parse_min_length buf 3 frm MB_PDU_TYPE_RSP)
    as [Hshort _].
  destruct (modbus_rtu_frame_parse_min_length buf 4 frm MB_PDU_TYPE_RSP)
    as [_ [_ [Hfour _]]].
  split; [exact (conj H3 (Hshort H3)) |].
  split; [exact (conj H4 (proj2 (Hfour H4))) |].
  reflexivity.
Defined.

(** C8 (as stated) fails: 4 is not the minimum accepted RTU frame length,
    because no input of length 4 is accepted.  Behind the address and
    ahead of the two CRC bytes such an input leaves one byte for the PDU,
    and every shape of PDU needs at least two. *)
Lemma modbus_rtu_frame_parse_rejects_length_4 :
  ~ min_accepted_frame_length 4.
Proof.
  intros [[buf [frm [type Hacc]]] _].
  rewrite rtu_frame_accepted_length in Hacc by lia. discriminate.
Qed.

(* ------------------------------------------------------------------ *)
(** * Round trip of the PDU codec *)

Lemma is_u8_range (v : Z) : is_u8 v = true <-> 0 <= v < 256.
Proof. unfold is_u8. rewrite andb_true_iff, Z.leb_le, Z.ltb_lt. tauto. Qed.

Lemma is_u16_range (v : Z) : is_u16 v = true <-> 0 <= v < 65536.
Proof. unfold is_u16. rewrite andb_true_iff, Z.leb_le, Z.ltb_lt. tauto. Qed.

Lemma u8_small (v : Z) : 0 <= v < 256 -> u8 v = v.
Proof. intros H. unfold u8. apply Z.mod_small. exact H. Qed.

Lemma u8_range (v : Z) : 0 <= u8 v < 256.
Proof. unfold u8. apply Z.mod_pos_bound. lia. Qed.

(** Storing a 16-bit value big-endian and reading the two bytes back. *)
Lemma be16_put (v : Z) :
  0 <= v < 65536 -> be16 (u8 (Z.shiftr v 8)) (u8 v) = v.
Proof.
  intros Hv. unfold be16, u8, u16.
  rewrite Z.shiftr_div_pow2, Z.shiftl_mul_pow2 by lia.
  change (2 ^ 8) with 256.
  assert (Hq : 0 <= v / 256 < 256).
  { split; [apply Z.div_pos; lia | apply Z.div_lt_upper_bound; lia]. }
  pose proof (Z.mod_pos_bound v 256 ltac:(lia)) as Hr.
  pose proof (Z.div_mod v 256 ltac:(lia)) as Hdm.
  rewrite (Z.mod_small (v / 256) 256) by exact Hq.
  rewrite (Z.mod_small (v / 256 * 256) 65536) by lia.
  rewrite Z.mod_small by lia. lia.
Qed.

Lemma fc_is_read_u8 (fc : Z) : fc_is_read fc = true -> 0 <= fc < 256.
Proof.
  unfold fc_is_read. rewrite !orb_true_iff, !Z.eqb_eq.
  intros [[[H | H] | H] | H]; subst fc; vm_compute; split; congruence.
Qed.

Lemma fc_is_write_single_u8 (fc : Z) :
  fc_is_write_single fc = true -> 0 <= fc < 256.
Proof.
  unfold fc_is_write_single. rewrite !orb_true_iff, !Z.eqb_eq.
  intros [H | H]; subst fc; vm_compute; split; congruence.
Qed.

Lemma fc_is_write_multiple_u8 (fc : Z) :
  fc_is_write_multiple fc = true -> 0 <= fc < 256.
Proof.
  unfold fc_is_write_multiple. rewrite !orb_true_iff, !Z.eqb_eq.
  intros [H | H]; subst fc; vm_compute; split; congruence.
Qed.

(** A non-exception function code of the codec has its high bit clear. *)
Lemma fc_supported_not_except (fc : Z) :
  fc_supported fc = true -> MODBUS_FC_EXCEPT_CHK fc = false.
Proof.
  intros H. apply fc_supported_cases in H. simpl in H.
  repeat (destruct H as [H | H]; [subst fc; reflexivity |]).
  contradiction.
Qed.

(** The bytes each shape is made of. *)
Lemma except_make_bytes (e : mb_pdu_except_t) :
  modbus_pdu_except_make e = ([u8 (exc_fc e); u8 (exc_ec e)], 2).
Proof. reflexivity. Qed.

Lemma fixed5_make_bytes (fc a b : Z) :
  modbus_pdu_rd_req_make (mkRdReq fc a b)
  = ([u8 fc; u8 (Z.shiftr a 8); u8 a; u8 (Z.shiftr b 8); u8 b], 5)
  /\ modbus_pdu_wr_single_make (mkWrSingle fc a b)
     = ([u8 fc; u8 (Z.shiftr a 8); u8 a; u8 (Z.shiftr b 8); u8 b], 5)
  /\ modbus_pdu_wr_rsp_make (mkWrRsp fc a b)
     = ([u8 fc; u8 (Z.shiftr a 8); u8 a; u8 (Z.shiftr b 8); u8 b], 5).
Proof. repeat split. Qed.

Lemma mask_wr_make_bytes (fc a x y : Z) :
  modbus_pdu_mask_wr_make (mkMaskWr fc a x y)
  = ([u8 fc; u8 (Z.shiftr a 8); u8 a; u8 (Z.shiftr x 8); u8 x;
      u8 (Z.shiftr y 8); u8 y], 7).
Proof. reflexivity. Qed.

Lemma rd_rsp_make_bytes (fc dlen : Z) (pdata : list Z) :
  modbus_pdu_rd_rsp_make (mkRdRsp fc dlen pdata)
  = ([u8 fc; u8 dlen] ++ payload dlen pdata, 0 + 1 + 1 + dlen).
Proof. reflexivity. Qed.

Lemma wr_req_make_bytes (fc a n dlen : Z) (pdata : list Z) :
  modbus_pdu_wr_req_make (mkWrReq fc a n dlen pdata)
  = ([u8 fc; u8 (Z.shiftr a 8); u8 a; u8 (Z.shiftr n 8); u8 n; u8 dlen]
       ++ payload dlen pdata, 0 + 1 + 2 + 2 + 1 + dlen).
Proof. reflexivity. Qed.

Lemma wr_rd_req_make_bytes (fc ra rn wa wn dlen : Z) (pdata : list Z) :
  modbus_pdu_wr_rd_req_make (mkWrRdReq fc ra rn wa wn dlen pdata)
  = ([u8 fc; u8 (Z.shiftr ra 8); u8 ra; u8 (Z.shiftr rn 8); u8 rn;
      u8 (Z.shiftr wa 8); u8 wa; u8 (Z.shiftr wn 8); u8 wn; u8 dlen]
       ++ payload dlen pdata, 0 + 1 + 2 + 2 + 2 + 2 + 1 + dlen).
Proof. reflexivity. Qed.

(** What each shape parser reads from a buffer that is long enough. *)
Lemma except_parse_bytes (fc ec : Z) (rest : list Z) (len : Z) :
  2 <= len ->
  modbus_pdu_except_parse (fc :: ec :: rest) len = (2, Some (mkExcept fc ec)).
Proof.
  intros H. unfold modbus_pdu_except_parse.
  destruct (Z.ltb_spec len 2); [lia | reflexivity].
Qed.

Lemma rd_req_parse_bytes (fc a1 a0 n1 n0 : Z) (rest : list Z) (len : Z) :
  5 <= len ->
  modbus_pdu_rd_req_parse (fc :: a1 :: a0 :: n1 :: n0 :: rest) len
  = (5, Some (mkRdReq fc (be16 a1 a0) (be16 n1 n0))).
Proof.
  intros H. unfold modbus_pdu_rd_req_parse.
  destruct (Z.ltb_spec len 5); [lia | reflexivity].
Qed.

Lemma wr_single_parse_bytes (fc a1 a0 n1 n0 : Z) (rest : list Z) (len : Z) :
  5 <= len ->
  modbus_pdu_wr_single_parse (fc :: a1 :: a0 :: n1 :: n0 :: rest) len
  = (5, Some (mkWrSingle fc (be16 a1 a0) (be16 n1 n0))).
Proof.
  intros H. unfold modbus_pdu_wr_single_parse.
  destruct (Z.ltb_spec len 5); [lia | reflexivity].
Qed.

Lemma wr_rsp_parse_bytes (fc a1 a0 n1 n0 : Z) (rest : list Z) (len : Z) :
  5 <= len ->
  modbus_pdu_wr_rsp_parse (fc :: a1 :: a0 :: n1 :: n0 :: rest) len
  = (5, Some (mkWrRsp fc (be16 a1 a0) (be16 n1 n0))).
Proof.
  intros H. unfold modbus_pdu_wr_rsp_parse.
  destruct (Z.ltb_spec len 5); [lia | reflexivity].
Qed.

Lemma mask_wr_parse_bytes (fc a1 a0 x1 x0 y1 y0 : Z) (rest : list Z)
  (len : Z) :
  7 <= len ->
  modbus_pdu_mask_wr_parse (fc :: a1 :: a0 :: x1 :: x0 :: y1 :: y0 :: rest) len
  = (7, Some (mkMaskWr fc (be16 a1 a0) (be16 x1 x0) (be16 y1 y0))).
Proof.
  intros H. unfold modbus_pdu_mask_wr_parse.
  destruct (Z.ltb_spec len 7); [lia | reflexivity].
Qed.

Lemma rd_rsp_parse_bytes (fc dlen : Z) (rest : list Z) (len : Z) :
  3 <= len ->
  modbus_pdu_rd_rsp_parse (fc :: dlen :: rest) len
  = (0 + 1 + 1 + dlen, Some (mkRdRsp fc dlen rest)).
Proof.
  intros H. unfold modbus_pdu_rd_rsp_parse.
  destruct (Z.ltb_spec len 3); [lia | reflexivity].
Qed.

Lemma wr_req_parse_bytes (fc a1 a0 n1 n0 dlen : Z) (rest : list Z)
  (len : Z) :
  7 <= len ->
  modbus_pdu_wr_req_parse (fc :: a1 :: a0 :: n1 :: n0 :: dlen :: rest) len
  = (0 + 1 + 2 + 2 + 1 + dlen,
     Some (mkWrReq fc (be16 a1 a0) (be16 n1 n0) dlen rest)).
Proof.
  intros H. unfold modbus_pdu_wr_req_parse.
  destruct (Z.ltb_spec len 7); [lia | reflexivity].
Qed.

Lemma wr_rd_req_parse_bytes (fc r1 r0 m1 m0 w1 w0 n1 n0 dlen : Z)
  (rest : list Z) (len : Z) :
  11 <= len ->
  modbus_pdu_wr_rd_req_parse
    (fc :: r1 :: r0 :: m1 :: m0 :: w1 :: w0 :: n1 :: n0 :: dlen :: rest) len
  = (0 + 1 + 2 + 2 + 2 + 2 + 1 + dlen,
     Some (mkWrRdReq fc (be16 r1 r0) (be16 m1 m0) (be16 w1 w0) (be16 n1 n0)
             dlen rest)).
Proof.
  intros H. unfold modbus_pdu_wr_rd_req_parse.
  destruct (Z.ltb_spec len 11); [lia | reflexivity].
Qed.

Lemma payload_valid_facts (dlen : Z) (pdata : list Z) :
  payload_valid dlen pdata = true ->
  1 <= dlen < 256 /\ dlen <= Z.of_nat (List.length pdata)
  /\ bytes_ok (payload dlen pdata).
Proof.
  unfold payload_valid. rewrite !andb_true_iff, !Z.leb_le, Z.ltb_lt.
  intros [[[H1 H2] H3] H4]. repeat split; try assumption.
  unfold bytes_ok, payload. apply Forall_forall. intros b Hb.
  rewrite forallb_forall in H4. apply is_u8_range. apply H4. exact Hb.
Qed.

Lemma payload_length (dlen : Z) (pdata : list Z) :
  0 <= dlen <= Z.of_nat (List.length pdata) ->
  Z.of_nat (List.length (payload dlen pdata)) = dlen.
Proof.
  intros H. unfold payload. rewrite length_firstn. lia.
Qed.

(** The payload read back through a pointer into the made bytes, whatever
    follows them in the buffer. *)
Lemma payload_app (dlen : Z) (pdata extra : list Z) :
  0 <= dlen <= Z.of_nat (List.length pdata) ->
  payload dlen (payload dlen pdata ++ extra) = payload dlen pdata.
Proof.
  intros H. unfold payload at 1. rewrite firstn_app.
  pose proof (payload_length dlen pdata H) as Hl.
  replace (Z.to_nat dlen - List.length (payload dlen pdata))%nat with 0%nat
    by lia.
  rewrite firstn_O, app_nil_r. unfold payload.
  rewrite firstn_firstn, Nat.min_id. reflexivity.
Qed.

(** Breaks a validity hypothesis into the ranges of the fields. *)
Ltac split_valid :=
  repeat match goal with
         | H : _ && _ = true |- _ => apply andb_true_iff in H; destruct H
         | H : is_u16 _ = true |- _ => apply is_u16_range in H
         | H : is_u8 _ = true |- _ => apply is_u8_range in H
         end.

Lemma bytes_ok_cons (b : Z) (l : list Z) :
  0 <= b < 256 -> bytes_ok l -> bytes_ok (b :: l).
Proof. intros Hb Hl. constructor; assumption. Qed.

Lemma bytes_ok_nil : bytes_ok [].
Proof. constructor. Qed.

Lemma bytes_ok_app (l1 l2 : list Z) :
  bytes_ok l1 -> bytes_ok l2 -> bytes_ok (l1 ++ l2).
Proof. intros H1 H2. apply Forall_app. split; assumption. Qed.

Create HintDb bytes.

#[local] Hint Resolve bytes_ok_cons bytes_ok_nil bytes_ok_app u8_range
  : bytes.

Lemma rd_req_round_trips (r : mb_pdu_rd_req_t) :
  pdu_valid MB_PDU_TYPE_REQ (PduRdReq r) = true ->
  round_trips MB_PDU_TYPE_REQ (PduRdReq r).
Proof.
  destruct r as [fc a n]. simpl. intros Hv. split_valid.
  pose proof (fc_is_read_u8 fc ltac:(assumption)) as Hfc.
  unfold round_trips, modbus_pdu_make, modbus_pdu_req_make. simpl pdu_fc.
  rewrite fc_switch_rd by assumption.
  unfold cast_make, as_rd_req, option_map.
  rewrite (proj1 (fixed5_make_bytes fc a n)).
  eexists. eexists. split; [reflexivity |].
  split; [reflexivity |]. split; [lia |].
  split; [auto 10 with bytes |].
  intros extra pdu0. unfold modbus_pdu_parse, modbus_pdu_req_parse.
  rewrite (u8_small fc) by assumption. simpl app. unfold deref, hd.
  rewrite fc_switch_rd by assumption.
  rewrite rd_req_parse_bytes by lia. unfold cast_parse. simpl.
  eexists. split; [reflexivity |]. simpl.
  rewrite !be16_put by assumption. reflexivity.
Qed.

Lemma wr_single_round_trips (type : mb_pdu_type_t) (r : mb_pdu_wr_single_t) :
  pdu_valid type (PduWrSingle r) = true ->
  round_trips type (PduWrSingle r).
Proof.
  destruct r as [fc a n]. intros Hv.
  assert (Hv' : fc_is_write_single fc && is_u16 a && is_u16 n = true)
    by (destruct type; exact Hv).
  clear Hv. split_valid.
  pose proof (fc_is_write_single_u8 fc ltac:(assumption)) as Hfc.
  assert (Hne : MODBUS_FC_EXCEPT_CHK fc = false).
  { apply fc_supported_not_except. unfold fc_supported.
    rewrite !orb_true_iff. auto. }
  unfold round_trips.
  exists [u8 fc; u8 (Z.shiftr a 8); u8 a; u8 (Z.shiftr n 8); u8 n], 5.
  split.
  { destruct type; unfold modbus_pdu_make, modbus_pdu_req_make,
      modbus_pdu_rsp_make; simpl pdu_fc; rewrite ?Hne;
      rewrite fc_switch_single by assumption; reflexivity. }
  split; [reflexivity |]. split; [lia |].
  split; [auto 10 with bytes |].
  intros extra pdu0.
  rewrite (u8_small fc) by assumption. cbn [app].
  exists (PduWrSingle (mkWrSingle fc (be16 (u8 (Z.shiftr a 8)) (u8 a))
                         (be16 (u8 (Z.shiftr n 8)) (u8 n)))).
  split.
  - destruct type; unfold modbus_pdu_parse, modbus_pdu_req_parse,
      modbus_pdu_rsp_parse, deref, hd; rewrite ?Hne;
      rewrite fc_switch_single by assumption;
      rewrite wr_single_parse_bytes by lia; reflexivity.
  - simpl. rewrite !be16_put by assumption. reflexivity.
Qed.

Lemma mask_wr_round_trips (type : mb_pdu_type_t) (r : mb_pdu_mask_wr_t) :
  pdu_valid type (PduMaskWr r) = true ->
  round_trips type (PduMaskWr r).
Proof.
  destruct r as [fc a x y]. intros Hv.
  assert (Hv' : (fc =? MODBUS_FC_MASK_WRITE_REGISTER)
                && is_u16 a && is_u16 x && is_u16 y = true)
    by (destruct type; exact Hv).
  clear Hv. split_valid.
  assert (Hfc : fc = 22) by (apply Z.eqb_eq; assumption).
  subst fc.
  unfold round_trips.
  exists [u8 22; u8 (Z.shiftr a 8); u8 a; u8 (Z.shiftr x 8); u8 x;
          u8 (Z.shiftr y 8); u8 y], 7.
  split; [destruct type; reflexivity |].
  split; [reflexivity |]. split; [lia |].
  split; [auto 10 with bytes |].
  intros extra pdu0. cbn [app].
  exists (PduMaskWr (mkMaskWr 22 (be16 (u8 (Z.shiftr a 8)) (u8 a))
                       (be16 (u8 (Z.shiftr x 8)) (u8 x))
                       (be16 (u8 (Z.shiftr y 8)) (u8 y)))).
  split.
  - change (u8 22) with 22.
    destruct type; unfold modbus_pdu_parse, modbus_pdu_req_parse,
      modbus_pdu_rsp_parse, deref, hd;
      change (MODBUS_FC_EXCEPT_CHK 22) with false; cbv iota;
      rewrite fc_switch_mask by reflexivity;
      rewrite mask_wr_parse_bytes by lia; reflexivity.
  - simpl. rewrite !be16_put by assumption. reflexivity.
Qed.

Lemma wr_rsp_round_trips (r : mb_pdu_wr_rsp_t) :
  pdu_valid MB_PDU_TYPE_RSP (PduWrRsp r) = true ->
  round_trips MB_PDU_TYPE_RSP (PduWrRsp r).
Proof.
  destruct r as [fc a n]. simpl. intros Hv. split_valid.
  pose proof (fc_is_write_multiple_u8 fc ltac:(assumption)) as Hfc.
  assert (Hne : MODBUS_FC_EXCEPT_CHK fc = false).
  { apply fc_supported_not_except. unfold fc_supported.
    rewrite !orb_true_iff. auto. }
  unfold round_trips.
  exists [u8 fc; u8 (Z.shiftr a 8); u8 a; u8 (Z.shiftr n 8); u8 n], 5.
  split.
  { unfold modbus_pdu_make, modbus_pdu_rsp_make. simpl pdu_fc. rewrite Hne.
    rewrite fc_switch_multi by assumption. reflexivity. }
  split; [reflexivity |]. split; [lia |].
  split; [auto 10 with bytes |].
  intros extra pdu0.
  rewrite (u8_small fc) by assumption. cbn [app].
  exists (PduWrRsp (mkWrRsp fc (be16 (u8 (Z.shiftr a 8)) (u8 a))
                      (be16 (u8 (Z.shiftr n 8)) (u8 n)))).
  split.
  - unfold modbus_pdu_parse, modbus_pdu_rsp_parse, deref, hd. rewrite Hne.
    rewrite fc_switch_multi by assumption.
    rewrite wr_rsp_parse_bytes by lia. reflexivity.
  - simpl. rewrite !be16_put by assumption. reflexivity.
Qed.

Lemma except_round_trips (e : mb_pdu_except_t) :
  pdu_valid MB_PDU_TYPE_RSP (PduExcept e) = true ->
  round_trips MB_PDU_TYPE_RSP (PduExcept e).
Proof.
  destruct e as [fc ec]. simpl. intros Hv. split_valid.
  assert (Hx : MODBUS_FC_EXCEPT_CHK fc = true) by assumption.
  unfold round_trips. exists [u8 fc; u8 ec], 2.
  split.
  { unfold modbus_pdu_make, modbus_pdu_rsp_make. simpl pdu_fc.
    rewrite Hx. reflexivity. }
  split; [reflexivity |]. split; [lia |].
  split; [auto 10 with bytes |].
  intros extra pdu0. rewrite !u8_small by assumption. cbn [app].
  exists (PduExcept (mkExcept fc ec)). split; [| reflexivity].
  unfold modbus_pdu_parse, modbus_pdu_rsp_parse, deref, hd. rewrite Hx.
  rewrite except_parse_bytes by lia. reflexivity.
Qed.

(** The three shapes that carry a payload. *)
Lemma rd_rsp_round_trips (r : mb_pdu_rd_rsp_t) :
  pdu_valid MB_PDU_TYPE_RSP (PduRdRsp r) = true ->
  round_trips MB_PDU_TYPE_RSP (PduRdRsp r).
Proof.
  destruct r as [fc dlen pdata]. simpl. intros Hv. split_valid.
  destruct (payload_valid_facts dlen pdata ltac:(assumption))
    as [Hd [Hl Hb]].
  assert (Hsw : forall (A : Type) (k1 k2 k3 k4 d : A),
             fc_switch fc k1 k2 k3 k4 k1 d = k1).
  { intros A k1 k2 k3 k4 d.
    match goal with
    | H : _ || _ = true |- _ => apply orb_true_iff in H; destruct H
    end.
    - apply fc_switch_rd. assumption.
    - apply fc_switch_wr_rd. assumption. }
  assert (Hfc : 0 <= fc < 256 /\ MODBUS_FC_EXCEPT_CHK fc = false).
  { match goal with
    | H : _ || _ = true |- _ => apply orb_true_iff in H; destruct H as [H | H]
    end.
    - split; [apply fc_is_read_u8; assumption |].
      apply fc_supported_not_except. unfold fc_supported.
      rewrite H. reflexivity.
    - apply Z.eqb_eq in H. subst fc. split; [vm_compute; split; congruence |].
      reflexivity. }
  destruct Hfc as [Hfc Hne].
  unfold round_trips.
  exists ([u8 fc; u8 dlen] ++ payload dlen pdata), (0 + 1 + 1 + dlen).
  split.
  { unfold modbus_pdu_make, modbus_pdu_rsp_make. simpl pdu_fc. rewrite Hne.
    rewrite Hsw. reflexivity. }
  split.
  { rewrite length_app, Nat2Z.inj_add, payload_length by lia.
    simpl List.length. lia. }
  split; [lia |].
  split; [auto 10 with bytes |].
  intros extra pdu0.
  rewrite (u8_small fc), (u8_small dlen) by lia.
  rewrite <- app_assoc. cbn [app].
  exists (PduRdRsp (mkRdRsp fc dlen (payload dlen pdata ++ extra))).
  split.
  - unfold modbus_pdu_parse, modbus_pdu_rsp_parse, deref, hd. rewrite Hne.
    rewrite Hsw. rewrite rd_rsp_parse_bytes by lia. reflexivity.
  - simpl. rewrite payload_app by lia. auto.
Qed.

Lemma wr_req_round_trips (r : mb_pdu_wr_req_t) :
  pdu_valid MB_PDU_TYPE_REQ (PduWrReq r) = true ->
  round_trips MB_PDU_TYPE_REQ (PduWrReq r).
Proof.
  destruct r as [fc a n dlen pdata]. simpl. intros Hv. split_valid.
  destruct (payload_valid_facts dlen pdata ltac:(assumption))
    as [Hd [Hl Hb]].
  pose proof (fc_is_write_multiple_u8 fc ltac:(assumption)) as Hfc.
  unfold round_trips.
  exists ([u8 fc; u8 (Z.shiftr a 8); u8 a; u8 (Z.shiftr n 8); u8 n; u8 dlen]
            ++ payload dlen pdata), (0 + 1 + 2 + 2 + 1 + dlen).
  split.
  { unfold modbus_pdu_make, modbus_pdu_req_make. simpl pdu_fc.
    rewrite fc_switch_multi by assumption. reflexivity. }
  split.
  { rewrite length_app, Nat2Z.inj_add, payload_length by lia.
    simpl List.length. lia. }
  split; [lia |].
  split; [auto 10 with bytes |].
  intros extra pdu0.
  rewrite (u8_small fc), (u8_small dlen) by lia.
  rewrite <- app_assoc. cbn [app].
  exists (PduWrReq (mkWrReq fc (be16 (u8 (Z.shiftr a 8)) (u8 a))
                      (be16 (u8 (Z.shiftr n 8)) (u8 n)) dlen
                      (payload dlen pdata ++ extra))).
  split.
  - unfold modbus_pdu_parse, modbus_pdu_req_parse, deref, hd.
    rewrite fc_switch_multi by assumption.
    rewrite wr_req_parse_bytes by lia. reflexivity.
  - simpl. rewrite !be16_put by assumption.
    rewrite payload_app by lia. auto.
Qed.

Lemma wr_rd_req_round_trips (r : mb_pdu_wr_rd_req_t) :
  pdu_valid MB_PDU_TYPE_REQ (PduWrRdReq r) = true ->
  round_trips MB_PDU_TYPE_REQ (PduWrRdReq r).
Proof.
  destruct r as [fc ra rn wa wn dlen pdata]. simpl. intros Hv. split_valid.
  destruct (payload_valid_facts dlen pdata ltac:(assumption))
    as [Hd [Hl Hb]].
  assert (Hfc : fc = 23) by (apply Z.eqb_eq; assumption).
  subst fc.
  unfold round_trips.
  exists ([u8 23; u8 (Z.shiftr ra 8); u8 ra; u8 (Z.shiftr rn 8); u8 rn;
           u8 (Z.shiftr wa 8); u8 wa; u8 (Z.shiftr wn 8); u8 wn; u8 dlen]
            ++ payload dlen pdata), (0 + 1 + 2 + 2 + 2 + 2 + 1 + dlen).
  split; [reflexivity |].
  split.
  { rewrite length_app, Nat2Z.inj_add, payload_length by lia.
    simpl List.length. lia. }
  split; [lia |].
  split; [auto 15 with bytes |].
  intros extra pdu0.
  rewrite (u8_small dlen) by lia. change (u8 23) with 23.
  rewrite <- app_assoc. cbn [app].
  exists (PduWrRdReq (mkWrRdReq 23 (be16 (u8 (Z.shiftr ra 8)) (u8 ra))
                        (be16 (u8 (Z.shiftr rn 8)) (u8 rn))
                        (be16 (u8 (Z.shiftr wa 8)) (u8 wa))
                        (be16 (u8 (Z.shiftr wn 8)) (u8 wn)) dlen
                        (payload dlen pdata ++ extra))).
  split.
  - unfold modbus_pdu_parse, modbus_pdu_req_parse, deref, hd.
    rewrite fc_switch_wr_rd by reflexivity.
    rewrite wr_rd_req_parse_bytes by lia. reflexivity.
  - simpl. rewrite !be16_put by assumption.
    rewrite payload_app by lia. auto 10.
Qed.

(** Every valid PDU value round-trips in its direction. *)
Lemma pdu_round_trips (type : mb_pdu_type_t) (p : mb_pdu_t) :
  pdu_valid type p = true -> round_trips type p.
Proof.
  destruct type, p; simpl; try discriminate; intros Hv.
  - apply rd_req_round_trips; exact Hv.
  - apply wr_single_round_trips; exact Hv.
  - apply wr_req_round_trips; exact Hv.
  - apply mask_wr_round_trips; exact Hv.
  - apply wr_rd_req_round_trips; exact Hv.
  - apply except_round_trips; exact Hv.
  - apply rd_rsp_round_trips; exact Hv.
  - apply wr_single_round_trips; exact Hv.
  - apply wr_rsp_round_trips; exact Hv.
  - apply mask_wr_round_trips; exact Hv.
Qed.

(** The response parse of a read-response shaped PDU never compares the
    announced byte count with the length: from 3 bytes on it returns
    2 + byte-count. *)
Lemma modbus_pdu_rd_rsp_parse_ignores_len (fc dlen : Z) (rest : list Z)
  (len : Z) (pdu : mb_pdu_t) :
  fc_is_read fc = true \/ fc = MODBUS_FC_WRITE_AND_READ_REGISTERS ->
  3 <= len ->
  modbus_pdu_parse (fc :: dlen :: rest) len pdu MB_PDU_TYPE_RSP
  = (2 + dlen, PduRdRsp (mkRdRsp fc dlen rest)).
Proof.
  intros Hfc Hlen.
  unfold modbus_pdu_parse, modbus_pdu_rsp_parse, deref, hd.
  assert (Hne : MODBUS_FC_EXCEPT_CHK fc = false).
  { apply fc_supported_not_except. unfold fc_supported.
    destruct Hfc as [Hfc | Hfc].
    - rewrite Hfc. reflexivity.
    - subst fc. reflexivity. }
  rewrite Hne.
  assert (Hsw : forall (A : Type) (k1 k2 k3 k4 d : A),
             fc_switch fc k1 k2 k3 k4 k1 d = k1).
  { intros A k1 k2 k3 k4 d. destruct Hfc as [Hfc | Hfc].
    - apply fc_switch_rd. exact Hfc.
    - subst fc. reflexivity. }
  rewrite Hsw, rd_rsp_parse_bytes by lia.
  unfold cast_parse. cbn [fst snd].
  replace (0 + 1 + 1 + dlen) with (2 + dlen) by lia. reflexivity.
Qed.

(** C2 (what the code does): a read response that announces 6 payload
    bytes but is only 3 bytes long is not rejected: the response parse
    returns 2 + 6 = 8 and stores the shape, with a payload pointer that
    runs past the 3 bytes received, where the claim asks for 0. *)
Theorem modbus_pdu_rd_rsp_parse_short_payload :
  forall pdu : mb_pdu_t,
    3 >= 3 /\ 3 < 2 + 6
    /\ modbus_pdu_parse [0x03; 0x06; 0xAE] 3 pdu MB_PDU_TYPE_RSP
       = (8, PduRdRsp (mkRdRsp 0x03 0x06 [0xAE])).
Proof.
  intros pdu. split; [lia |]. split; [lia |]. reflexivity.
Qed.

(** C4: for every valid PDU value [p] of a direction (the union member is
    the shape that direction uses for the function code, the fields fit
    their C types, a payload has 1 to 255 bytes), [modbus_pdu_make]
    succeeds, and [modbus_pdu_parse] over the bytes it produced, with the
    length it returned, returns that same length and a PDU equal to [p],
    payloads compared as byte sequences. *)
Theorem modbus_pdu_parse_make_round_trip :
  forall (type : mb_pdu_type_t) (p pdu0 : mb_pdu_t),
    pdu_valid type p = true ->
    exists bytes n q,
      modbus_pdu_make p type = Some (bytes, n)
      /\ n = Z.of_nat (List.length bytes)
      /\ modbus_pdu_parse bytes n pdu0 type = (n, q)
      /\ pdu_eq p q.
Proof.
  intros type p pdu0 Hv.
  destruct (pdu_round_trips type p Hv) as [bytes [n [Hm [Hn [_ [_ Hp]]]]]].
  destruct (Hp [] pdu0) as [q [Hq Heq]]. rewrite app_nil_r in Hq.
  exists bytes, n, q. auto.
Qed.

Lemma modbus_pdu_parse_make_round_trip_witness :
  let p := PduRdRsp (mkRdRsp 0x03 6 [0xAE; 0x41; 0x56; 0x52; 0x43; 0x40]) in
  pdu_valid MB_PDU_TYPE_RSP p = true
  /\ exists bytes n q,
       modbus_pdu_make p MB_PDU_TYPE_RSP = Some (bytes, n)
       /\ n = Z.of_nat (List.length bytes)
       /\ modbus_pdu_parse bytes n (PduExcept (mkExcept 0 0)) MB_PDU_TYPE_RSP
          = (n, q)
       /\ pdu_eq p q.
Proof.
  intros p.
  assert (Hv : pdu_valid MB_PDU_TYPE_RSP p = true) by reflexivity.
  split; [exact Hv |].
  exact (modbus_pdu_parse_make_round_trip MB_PDU_TYPE_RSP p
           (PduExcept (mkExcept 0 0)) Hv).
Defined.

(** A read response with an empty payload is outside the valid values:
    [make] produces its two bytes, and [parse] rejects them as short. *)
Remark rd_rsp_empty_payload_rejected (pdu0 : mb_pdu_t) :
  modbus_pdu_make (PduRdRsp (mkRdRsp 0x03 0 [])) MB_PDU_TYPE_RSP
  = Some ([0x03; 0x00], 2)
  /\ modbus_pdu_parse [0x03; 0x00] 2 pdu0 MB_PDU_TYPE_RSP = (0, pdu0).
Proof. split; reflexivity. Qed.

(* ------------------------------------------------------------------ *)
(** * CRC-16 residue *)

Lemma lxor_u16_range (a b : Z) :
  0 <= a < 65536 -> 0 <= b < 65536 -> 0 <= Z.lxor a b < 65536.
Proof.
  intros Ha Hb. split.
  - apply Z.lxor_nonneg. lia.
  - destruct (Z.eq_dec (Z.lxor a b) 0) as [E | N]; [lia |].
    assert (Hpos : 0 < Z.lxor a b).
    { pose proof (proj2 (Z.lxor_nonneg a b) ltac:(lia)). lia. }
    change 65536 with (2 ^ 16). apply Z.log2_lt_pow2; [exact Hpos |].
    pose proof (Z.log2_lxor a b ltac:(lia) ltac:(lia)) as Hl.
    assert (Hla : Z.log2 a < 16).
    { destruct (Z.eq_dec a 0) as [-> | Na]; [reflexivity |].
      apply Z.log2_lt_pow2; [lia | change (2 ^ 16) with 65536; lia]. }
    assert (Hlb : Z.log2 b < 16).
    { destruct (Z.eq_dec b 0) as [-> | Nb]; [reflexivity |].
      apply Z.log2_lt_pow2; [lia | change (2 ^ 16) with 65536; lia]. }
    lia.
Qed.

Lemma crc_bit_step_range (c : Z) :
  0 <= c < 65536 -> 0 <= crc_bit_step c < 65536.
Proof.
  intros Hc. unfold crc_bit_step.
  assert (Hs : 0 <= Z.shiftr c 1 < 32768).
  { rewrite Z.shiftr_div_pow2 by lia. change (2 ^ 1) with 2.
    split; [apply Z.div_pos; lia | apply Z.div_lt_upper_bound; lia]. }
  destruct (Z.odd c).
  - apply lxor_u16_range; lia.
  - lia.
Qed.

Lemma crc_bit_iter_range (k : nat) (c : Z) :
  0 <= c < 65536 -> 0 <= Nat.iter k crc_bit_step c < 65536.
Proof.
  intros Hc. induction k as [| k IH]; simpl.
  - exact Hc.
  - apply crc_bit_step_range. exact IH.
Qed.

Lemma crc_byte_step_range (c b : Z) :
  0 <= c < 65536 -> 0 <= b < 256 -> 0 <= crc_byte_step c b < 65536.
Proof.
  intros Hc Hb. unfold crc_byte_step. apply crc_bit_iter_range.
  apply lxor_u16_range; lia.
Qed.

Lemma crc_fold_range (l : list Z) :
  bytes_ok l ->
  forall c, 0 <= c < 65536 -> 0 <= fold_left crc_byte_step l c < 65536.
Proof.
  induction 1 as [| b l Hb Hl IH]; intros c Hc; simpl.
  - exact Hc.
  - apply IH. apply crc_byte_step_range; assumption.
Qed.

(** A zero bit shifted out leaves the register halved. *)
Lemma crc_bit_step_even (x : Z) : crc_bit_step (2 * x) = x.
Proof.
  unfold crc_bit_step. rewrite Z.odd_mul. change (Z.odd 2) with false.
  cbn [andb]. rewrite Z.shiftr_div_pow2 by lia. change (2 ^ 1) with 2.
  rewrite (Z.mul_comm 2 x), Z.div_mul by lia. reflexivity.
Qed.

(** Shifting out [k] zero bits leaves the rest of the register. *)
Lemma crc_bit_iter_zero_bits (k : nat) (h : Z) :
  Nat.iter k crc_bit_step (2 ^ Z.of_nat k * h) = h.
Proof.
  induction k as [| k IH].
  - change (1 * h = h). lia.
  - rewrite Nat.iter_succ_r.
    rewrite Nat2Z.inj_succ, Z.pow_succ_r by lia.
    rewrite <- Z.mul_assoc, crc_bit_step_even. exact IH.
Qed.

(** XORing the low byte of the register into itself clears it. *)
Lemma lxor_low_byte (c : Z) :
  0 <= c -> Z.lxor c (c mod 256) = 2 ^ 8 * (c / 256).
Proof.
  intros Hc. apply Z.bits_inj'. intros n Hn.
  rewrite Z.lxor_spec. change 256 with (2 ^ 8).
  rewrite (Z.mul_comm (2 ^ 8)), Z.mul_pow2_bits by lia.
  destruct (Z.ltb_spec n 8) as [Hlt | Hge].
  - rewrite Z.mod_pow2_bits_low by lia.
    rewrite xorb_nilpotent. rewrite Z.testbit_neg_r by lia. reflexivity.
  - rewrite Z.mod_pow2_bits_high by lia.
    rewrite xorb_false_r. rewrite Z.div_pow2_bits by lia.
    f_equal. lia.
Qed.

(** Feeding the register its own two bytes, low byte first, empties it. *)
Lemma crc_residue (c : Z) :
  0 <= c < 65536 ->
  crc_byte_step (crc_byte_step c (u8 c)) (u8 (Z.shiftr c 8)) = 0.
Proof.
  intros Hc. unfold crc_byte_step at 2. unfold u8 at 1.
  rewrite lxor_low_byte by lia.
  assert (Hq : 0 <= c / 256 < 256).
  { split; [apply Z.div_pos; lia | apply Z.div_lt_upper_bound; lia]. }
  pose proof (crc_bit_iter_zero_bits 8 (c / 256)) as Hz.
  change (Z.of_nat 8) with 8 in Hz. rewrite Hz. clear Hz.
  rewrite Z.shiftr_div_pow2 by lia. change (2 ^ 8) with 256.
  rewrite u8_small by exact Hq.
  unfold crc_byte_step. rewrite Z.lxor_nilpotent. reflexivity.
Qed.

(** The CRC over a buffer followed by its own CRC, low byte first. *)
Lemma modbus_crc_cal_residue (l : list Z) :
  bytes_ok l ->
  let crc := modbus_crc_cal l (Z.of_nat (List.length l)) in
  modbus_crc_cal (l ++ [u8 crc; u8 (Z.shiftr crc 8)])
    (Z.of_nat (List.length l) + 2) = 0.
Proof.
  intros Hl crc. unfold modbus_crc_cal.
  replace (Z.to_nat (Z.of_nat (List.length l) + 2))
    with (List.length (l ++ [u8 crc; u8 (Z.shiftr crc 8)]))
    by (rewrite length_app; simpl; lia).
  rewrite firstn_all, fold_left_app. simpl.
  assert (Hcrc : crc = fold_left crc_byte_step l 65535).
  { unfold crc, modbus_crc_cal. rewrite Nat2Z.id, firstn_all. reflexivity. }
  rewrite <- Hcrc. apply crc_residue.
  rewrite Hcrc. apply crc_fold_range; [exact Hl | lia].
Qed.

(** The CRC model reproduces the CRC bytes of the spec's RTU scenarios
    (read-holding request and response, write-single-coil). *)
Example modbus_crc_cal_scenarios :
  modbus_crc_cal [0x11; 0x03; 0x00; 0x6B; 0x00; 0x03] 6 = 0x8776
  /\ modbus_crc_cal [0x11; 0x05; 0x00; 0xAC; 0xFF; 0x00] 6 = 0x8B4E
  /\ modbus_crc_cal
       [0x11; 0x03; 0x06; 0xAE; 0x41; 0x56; 0x52; 0x43; 0x40; 0x49; 0xAD] 11
     = 0.
Proof. repeat split. Qed.

(* ------------------------------------------------------------------ *)
(** * Round trip of the RTU frame wrapper *)

(** C3: for every slave address (a byte) and every valid PDU value of a
    direction, [modbus_rtu_frame_make] produces a frame of the PDU length
    plus 3 whose CRC residue is 0, and [modbus_rtu_frame_parse] in the same
    direction returns exactly the PDU length that [modbus_pdu_make]
    returned, with the address and the PDU read back. *)
Theorem modbus_rtu_frame_parse_make_round_trip :
  forall (saddr : Z) (p : mb_pdu_t) (type : mb_pdu_type_t)
         (frm0 : mb_rtu_frm_t),
    0 <= saddr < 256 ->
    pdu_valid type p = true ->
    exists pbytes n frame frm',
      modbus_pdu_make p type = Some (pbytes, n)
      /\ modbus_rtu_frame_make (mkRtuFrm saddr p) type = Some (frame, n + 3)
      /\ Z.of_nat (List.length frame) = n + 3
      /\ modbus_crc_cal frame (n + 3) = 0
      /\ modbus_rtu_frame_parse frame (n + 3) frm0 type = (n, frm')
      /\ frm_saddr frm' = saddr
      /\ pdu_eq p (frm_pdu frm').
Proof.
  intros saddr p type frm0 Hs Hv.
  destruct (pdu_round_trips type p Hv) as [pbytes [n [Hm [Hn [Hn2 [Hb Hp]]]]]].
  set (body := saddr :: pbytes).
  set (crc := modbus_crc_cal body (Z.of_nat (List.length body))).
  set (tail := [u8 crc; u8 (Z.shiftr crc 8)]).
  assert (Hbody : bytes_ok body) by (apply bytes_ok_cons; assumption).
  assert (Hlen : Z.of_nat (List.length body) = 1 + n).
  { unfold body. simpl List.length. lia. }
  assert (Hres : modbus_crc_cal (body ++ tail) (n + 3) = 0).
  { replace (n + 3) with (Z.of_nat (List.length body) + 2) by lia.
    apply modbus_crc_cal_residue. exact Hbody. }
  destruct (Hp tail (frm_pdu frm0)) as [q [Hq Heq]].
  exists pbytes, n, (body ++ tail), (mkRtuFrm saddr q).
  split; [exact Hm |]. split.
  { unfold modbus_rtu_frame_make. cbn [frm_saddr frm_pdu]. rewrite Hm.
    unfold made, put_adv, cursor0, modbus_cvt_u8_put. cbn [out pos fst snd].
    rewrite (u8_small saddr) by exact Hs. cbn [app].
    fold body. replace (0 + 1 + n) with (Z.of_nat (List.length body)) by lia.
    fold crc. rewrite <- !app_assoc. cbn [app]. fold tail.
    replace (Z.of_nat (List.length body) + 1 + 1) with (n + 3) by lia.
    reflexivity. }
  split.
  { rewrite length_app, Nat2Z.inj_add, Hlen.
    change (List.length tail) with 2%nat. lia. }
  split; [exact Hres |]. split.
  { unfold modbus_rtu_frame_parse.
    change MB_RTU_FRM_MIN with 4.
    change (MB_RTU_SADDR_SIZE + MB_RTU_CRC_SIZE) with 3.
    destruct (Z.ltb_spec (n + 3) 4) as [Hlt | _]; [lia |].
    replace (n + 3 - 3) with n by lia.
    unfold body at 1. cbn [app]. change (ptr_add (saddr :: pbytes ++ tail) 1)
      with (pbytes ++ tail).
    rewrite Hq.
    destruct (Z.leb_spec n 0) as [Hle | _]; [lia |].
    rewrite Z.ltb_irrefl.
    change (saddr :: pbytes ++ tail) with (body ++ tail).
    rewrite Hres. reflexivity. }
  split; [reflexivity | exact Heq].
Qed.

Lemma modbus_rtu_frame_parse_make_round_trip_witness :
  let p := PduRdReq (mkRdReq 0x03 0x006B 3) in
  let frm0 := mkRtuFrm 0 (PduExcept (mkExcept 0 0)) in
  0 <= 0x11 < 256
  /\ pdu_valid MB_PDU_TYPE_REQ p = true
  /\ exists pbytes n frame frm',
       modbus_pdu_make p MB_PDU_TYPE_REQ = Some (pbytes, n)
       /\ modbus_rtu_frame_make (mkRtuFrm 0x11 p) MB_PDU_TYPE_REQ
          = Some (frame, n + 3)
       /\ Z.of_nat (List.length frame) = n + 3
       /\ modbus_crc_cal frame (n + 3) = 0
       /\ modbus_rtu_frame_parse frame (n + 3) frm0 MB_PDU_TYPE_REQ
          = (n, frm')
       /\ frm_saddr frm' = 0x11
       /\ pdu_eq p (frm_pdu frm').
Proof.
  intros p frm0.
  assert (Hs : 0 <= 0x11 < 256) by lia.
  assert (Hv : pdu_valid MB_PDU_TYPE_REQ p = true) by reflexivity.
  split; [exact Hs |]. split; [exact Hv |].
  exact (modbus_rtu_frame_parse_make_round_trip 0x11 p MB_PDU_TYPE_REQ frm0
           Hs Hv).
Defined.

(** The frame the make function builds for the spec's first scenario. *)
Example modbus_rtu_frame_make_scenario :
  modbus_rtu_frame_make (mkRtuFrm 0x11 (PduRdReq (mkRdReq 0x03 0x006B 3)))
    MB_PDU_TYPE_REQ
  = Some ([0x11; 0x03; 0x00; 0x6B; 0x00; 0x03; 0x76; 0x87], 8).
Proof. reflexivity. Qed.

(* ------------------------------------------------------------------ *)
(** * The dual-timeout read loop *)

Lemma s32_small (v : Z) : -2147483648 <= v < 2147483648 -> s32 v = v.
Proof. intros H. unfold s32. rewrite Z.mod_small by lia. lia. Qed.

Section ReadLoop.

Context {W : Type} (port : modbus_port_t W).
Variable backend : mb_backend_t W.
Variable read : Z -> Z -> W -> Z * W.
Variable bufsize : Z.

(** One unfolding of the loop. *)
Lemma read_loop_unfold (fuel : nat) (pos told_ms : Z) (w : W) :
  read_loop port (S fuel) backend read bufsize pos told_ms w =
  if pos <? bufsize then
    let (len, w) := read (hinst backend) (bufsize - pos) w in
    if len <? 0 then Some (ExitError len, pos, w)
    else if 0 <? len then
      let (told_ms, w) := modbus_port_get_ms port w in
      read_loop port fuel backend read bufsize (pos + len) told_ms w
    else
      let (now_ms, w) := modbus_port_get_ms port w in
      let tmo_ms := s32 (now_ms - told_ms) in
      if negb (pos =? 0) then
        if byte_tmo_ms backend <? tmo_ms
        then Some (ExitByteTmo tmo_ms, pos, w)
        else read_loop port fuel backend read bufsize pos told_ms
               (modbus_port_delay_ms port 2 w)
      else
        if ack_tmo_ms backend <? tmo_ms
        then Some (ExitAckTmo tmo_ms, pos, w)
        else read_loop port fuel backend read bufsize pos told_ms
               (modbus_port_delay_ms port 2 w)
  else Some (ExitFull, pos, w).
Proof. reflexivity. Qed.

Hypothesis read_cap :
  forall h cap w, 0 < cap -> fst (read h cap w) <= cap.

Lemma read_loop_sound (fuel : nat) :
  forall pos told_ms w e pos' w',
    0 <= pos <= bufsize ->
    read_loop port fuel backend read bufsize pos told_ms w
    = Some (e, pos', w') ->
    pos <= pos' <= bufsize /\ exit_sound backend bufsize e pos'.
Proof.
  induction fuel as [| fuel IH]; intros pos told_ms w e pos' w' Hpos Hrun.
  - discriminate.
  - rewrite read_loop_unfold in Hrun.
    destruct (Z.ltb_spec pos bufsize) as [Hlt | Hge].
    + pose proof (read_cap (hinst backend) (bufsize - pos) w ltac:(lia))
        as Hcap.
      destruct (read (hinst backend) (bufsize - pos) w) as [len w1].
      simpl in Hcap.
      destruct (Z.ltb_spec len 0) as [Hneg | Hnn].
      * injection Hrun as He Hp Hw. subst e pos' w'. simpl. lia.
      * destruct (Z.ltb_spec 0 len) as [Hgt | Hz].
        -- destruct (modbus_port_get_ms port w1) as [t w2].
           apply IH in Hrun; [| lia]. split; [lia | tauto].
        -- destruct (modbus_port_get_ms port w1) as [t w2].
           cbv zeta in Hrun.
           destruct (Z.eqb_spec pos 0) as [Hp0 | Hpn]; cbn [negb] in Hrun.
           ++ destruct (Z.ltb_spec (ack_tmo_ms backend) (s32 (t - told_ms))).
              ** injection Hrun as He Hp Hw. subst e pos' w'. simpl. lia.
              ** apply IH in Hrun; [| lia]. exact Hrun.
           ++ destruct (Z.ltb_spec (byte_tmo_ms backend) (s32 (t - told_ms))).
              ** injection Hrun as He Hp Hw. subst e pos' w'. simpl. lia.
              ** apply IH in Hrun; [| lia]. exact Hrun.
    + injection Hrun as He Hp Hw. subst e pos' w'. simpl. lia.
Qed.

(** Termination.  The measure counts, for every byte still missing, the
    idle milliseconds the loop can spend before it gives up, plus those
    left in the current wait. *)
Variable J : Z.
Hypothesis clock_good : clock_ok port J.
Hypothesis read_time : forall h cap,
    advances port (fun w => snd (read h cap w)) 0 J.
Hypothesis tmo_good : tmo_ok J backend.


End ReadLoop.


Lemma mock_clock_ok : clock_ok mock_port 2.
Proof.
  split; intros w; unfold clock_of; simpl; lia.
Qed.

Lemma mock_read_ok : read_ok mock_port 2 mock_read.
Proof.
  split.
  - intros h cap w Hcap. unfold mock_read.
    destruct (mw_rx w) as [| r rest]; simpl; lia.
  - intros h cap w. unfold clock_of, mock_read.
    destruct (mw_rx w) as [| r rest]; simpl; lia.
Qed.


(** Two runs on the mock: bytes that fill the buffer, and bytes followed
    by an idle line, where the inter-byte timeout of 32 ms ends the read. *)
Example modbus_backend_read_runs :
  let b := mock_backend (Some (mock_ops 0 0 true)) 7 in
  modbus_backend_read mock_port 20 (Some b) (Some []) 8 (mkMock 0 [3; 0; 5])
  = Some (8, mkMock 2 [])
  /\ modbus_backend_read mock_port 30 (Some b) (Some []) 8
       (mkMock 0 [3; 0; 2])
     = Some (5, mkMock 36 [])
  /\ modbus_backend_read mock_port 200 (Some b) (Some []) 8 (mkMock 0 [])
     = Some (0, mkMock 302 []).
Proof. repeat split. Qed.


(* ------------------------------------------------------------------ *)
(** * Further properties of the byte-order helpers *)

Lemma be16_bytes (a b : Z) :
  0 <= a < 256 -> 0 <= b < 256 -> be16 a b = 256 * a + b.
Proof.
  intros Ha Hb. unfold be16, u16.
  rewrite Z.shiftl_mul_pow2 by lia. change (2 ^ 8) with 256.
  rewrite (Z.mod_small (a * 256)) by lia.
  rewrite Z.mod_small by lia. lia.
Qed.

(** Putting the 16-bit value of two bytes gives the two bytes back. *)
Lemma be16_split (a b : Z) :
  0 <= a < 256 -> 0 <= b < 256 ->
  u8 (Z.shiftr (be16 a b) 8) = a /\ u8 (be16 a b) = b.
Proof.
  intros Ha Hb. rewrite be16_bytes by assumption. unfold u8.
  rewrite Z.shiftr_div_pow2 by lia. change (2 ^ 8) with 256.
  replace (256 * a + b) with (b + a * 256) by lia.
  rewrite Z.div_add, Z.mod_add by lia.
  rewrite (Z.div_small b), (Z.mod_small b), (Z.mod_small a) by lia.
  split; lia.
Qed.

(** X1: [modbus_cvt_u16_put] and [modbus_cvt_u16_get] are inverse to each
    other: a 16-bit value stored big-endian is read back unchanged,
    whatever follows the two bytes, and two bytes read as a 16-bit value
    are stored back as the same two bytes; both report a size of 2. *)
Theorem modbus_cvt_u16_round_trip :
  forall (v a b : Z) (rest : list Z),
    0 <= v < 65536 -> 0 <= a < 256 -> 0 <= b < 256 ->
    modbus_cvt_u16_get (fst (modbus_cvt_u16_put v) ++ rest) = (v, 2)
    /\ snd (modbus_cvt_u16_put v) = 2
    /\ fst (modbus_cvt_u16_put (fst (modbus_cvt_u16_get (a :: b :: rest))))
       = [a; b].
Proof.
  intros v a b rest Hv Ha Hb. split; [| split].
  - change (modbus_cvt_u16_get (fst (modbus_cvt_u16_put v) ++ rest))
      with (be16 (u8 (Z.shiftr v 8)) (u8 v), 2).
    rewrite be16_put by exact Hv. reflexivity.
  - reflexivity.
  - change (fst (modbus_cvt_u16_put
                   (fst (modbus_cvt_u16_get (a :: b :: rest)))))
      with [u8 (Z.shiftr (be16 a b) 8); u8 (be16 a b)].
    destruct (be16_split a b Ha Hb) as [H1 H2]. rewrite H1, H2. reflexivity.
Qed.

Lemma modbus_cvt_u16_round_trip_witness :
  modbus_cvt_u16_get (fst (modbus_cvt_u16_put 0xAE41) ++ [0x56]) = (0xAE41, 2)
  /\ snd (modbus_cvt_u16_put 0xAE41) = 2
  /\ fst (modbus_cvt_u16_put
            (fst (modbus_cvt_u16_get (0x00 :: 0x6B :: [0x56]))))
     = [0x00; 0x6B].
Proof.
  apply (modbus_cvt_u16_round_trip 0xAE41 0x00 0x6B); lia.
Defined.

(** The four bytes of a 32-bit value. *)
Lemma u32_bytes (v : Z) :
  0 <= v < 4294967296 ->
  exists b3 b2 b1 b0,
    u8 (Z.shiftr v 24) = b3 /\ u8 (Z.shiftr v 16) = b2
    /\ u8 (Z.shiftr v 8) = b1 /\ u8 v = b0
    /\ 0 <= b3 < 256 /\ 0 <= b2 < 256 /\ 0 <= b1 < 256 /\ 0 <= b0 < 256
    /\ v = ((b3 * 256 + b2) * 256 + b1) * 256 + b0.
Proof.
  intros Hv.
  exists (u8 (Z.shiftr v 24)), (u8 (Z.shiftr v 16)), (u8 (Z.shiftr v 8)),
    (u8 v).
  repeat (split; [reflexivity |]).
  repeat (split; [apply u8_range |]).
  unfold u8. rewrite !Z.shiftr_div_pow2 by lia.
  change (2 ^ 24) with (256 * (256 * 256)).
  change (2 ^ 16) with (256 * 256). change (2 ^ 8) with 256.
  rewrite <- !Z.div_div by lia.
  set (q1 := v / 256). set (q2 := q1 / 256). set (q3 := q2 / 256).
  pose proof (Z.div_mod v 256 ltac:(lia)) as H0.
  pose proof (Z.div_mod q1 256 ltac:(lia)) as H1.
  pose proof (Z.div_mod q2 256 ltac:(lia)) as H2.
  fold q1 in H0. fold q2 in H1. fold q3 in H2.
  assert (Hq3 : 0 <= q3 < 256).
  { unfold q3, q2, q1. rewrite !Z.div_div by lia.
    split; [apply Z.div_pos; lia | apply Z.div_lt_upper_bound; lia]. }
  rewrite (Z.mod_small q3) by exact Hq3. lia.
Qed.

(** Reading four bytes big-endian. *)
Lemma modbus_cvt_u32_get_bytes (b3 b2 b1 b0 : Z) (rest : list Z) :
  0 <= b3 < 256 -> 0 <= b2 < 256 -> 0 <= b1 < 256 -> 0 <= b0 < 256 ->
  modbus_cvt_u32_get (b3 :: b2 :: b1 :: b0 :: rest)
  = (((b3 * 256 + b2) * 256 + b1) * 256 + b0, 4).
Proof.
  intros H3 H2 H1 H0. unfold modbus_cvt_u32_get, deref, ptr_add. simpl hd.
  f_equal. unfold u32. rewrite !Z.shiftl_mul_pow2 by lia.
  change (2 ^ 8) with 256.
  rewrite (Z.mod_small (b3 * 256)) by lia.
  rewrite (Z.mod_small (b3 * 256 + b2)) by lia.
  rewrite (Z.mod_small ((b3 * 256 + b2) * 256)) by lia.
  rewrite (Z.mod_small ((b3 * 256 + b2) * 256 + b1)) by lia.
  rewrite (Z.mod_small (((b3 * 256 + b2) * 256 + b1) * 256)) by lia.
  rewrite Z.mod_small by lia. reflexivity.
Qed.

(** X2: a 32-bit value stored by [modbus_cvt_u32_put] is read back
    unchanged by [modbus_cvt_u32_get], whatever follows the four bytes;
    the four bytes are the value's bytes from the most significant to the
    least significant, and both functions report a size of 4. *)
Theorem modbus_cvt_u32_round_trip :
  forall (v : Z) (rest : list Z),
    0 <= v < 4294967296 ->
    modbus_cvt_u32_get (fst (modbus_cvt_u32_put v) ++ rest) = (v, 4)
    /\ snd (modbus_cvt_u32_put v) = 4
    /\ fst (modbus_cvt_u32_put v)
       = [v / 16777216; v / 65536 mod 256; v / 256 mod 256; v mod 256].
Proof.
  intros v rest Hv. split; [| split].
  - destruct (u32_bytes v Hv)
      as [b3 [b2 [b1 [b0 [E3 [E2 [E1 [E0 [R3 [R2 [R1 [R0 Hsum]]]]]]]]]]]].
    unfold modbus_cvt_u32_put. cbn [fst app]. rewrite E3, E2, E1, E0.
    rewrite modbus_cvt_u32_get_bytes by assumption. rewrite <- Hsum.
    reflexivity.
  - reflexivity.
  - unfold modbus_cvt_u32_put, u8. cbn [fst].
    rewrite !Z.shiftr_div_pow2 by lia.
    change (2 ^ 24) with 16777216. change (2 ^ 16) with 65536.
    change (2 ^ 8) with 256.
    rewrite (Z.mod_small (v / 16777216)); [reflexivity |].
    split; [apply Z.div_pos; lia | apply Z.div_lt_upper_bound; lia].
Qed.

Lemma modbus_cvt_u32_round_trip_witness :
  modbus_cvt_u32_get (fst (modbus_cvt_u32_put 0x12345678) ++ [0xFF])
  = (0x12345678, 4)
  /\ snd (modbus_cvt_u32_put 0x12345678) = 4
  /\ fst (modbus_cvt_u32_put 0x12345678)
     = [0x12345678 / 16777216; 0x12345678 / 65536 mod 256;
        0x12345678 / 256 mod 256; 0x12345678 mod 256].
Proof.
  apply (modbus_cvt_u32_round_trip 0x12345678 [0xFF]). lia.
Defined.

(* ------------------------------------------------------------------ *)
(** * The bitmap helpers *)

Lemma length_list_upd (n : nat) (v : Z) (l : list Z) :
  List.length (list_upd n v l) = List.length l.
Proof.
  revert n. induction l as [| h t IH]; intros n; simpl.
  - reflexivity.
  - destruct n; simpl; [reflexivity | rewrite IH; reflexivity].
Qed.

Lemma nth_list_upd_same (n : nat) (v : Z) (l : list Z) :
  (n < List.length l)%nat -> nth n (list_upd n v l) 0 = v.
Proof.
  revert n. induction l as [| h t IH]; intros n Hn; simpl in *.
  - lia.
  - destruct n; simpl; [reflexivity | apply IH; lia].
Qed.

Lemma nth_list_upd_other (n m : nat) (v : Z) (l : list Z) :
  n <> m -> nth m (list_upd n v l) 0 = nth m l 0.
Proof.
  revert n m. induction l as [| h t IH]; intros n m Hnm; simpl.
  - reflexivity.
  - destruct n, m; simpl; try reflexivity; try lia.
    apply IH. lia.
Qed.

Lemma arr_get_set_same (a : list Z) (i v : Z) :
  0 <= i < Z.of_nat (List.length a) -> arr_get (arr_set a i v) i = v.
Proof.
  intros Hi. unfold arr_get, arr_set.
  destruct (Z.ltb_spec i 0); [lia |].
  apply nth_list_upd_same. lia.
Qed.

Lemma arr_get_set_other (a : list Z) (i j v : Z) :
  0 <= i -> 0 <= j -> i <> j -> arr_get (arr_set a i v) j = arr_get a j.
Proof.
  intros Hi Hj Hij. unfold arr_get, arr_set.
  destruct (Z.ltb_spec i 0); [lia |]. destruct (Z.ltb_spec j 0); [lia |].
  apply nth_list_upd_other. lia.
Qed.

Lemma arr_get_byte (a : list Z) (i : Z) :
  bytes_ok a -> 0 <= arr_get a i < 256.
Proof.
  intros Ha. unfold arr_get. destruct (i <? 0); [lia |].
  destruct (Nat.lt_ge_cases (Z.to_nat i) (List.length a)) as [Hlt | Hge].
  - unfold bytes_ok in Ha. rewrite Forall_forall in Ha.
    apply Ha. apply nth_In. exact Hlt.
  - rewrite nth_overflow by exact Hge. lia.
Qed.

Lemma bytes_ok_list_upd (n : nat) (v : Z) (l : list Z) :
  0 <= v < 256 -> bytes_ok l -> bytes_ok (list_upd n v l).
Proof.
  intros Hv Hl. revert n. induction Hl as [| h t Hh Ht IH]; intros n; simpl.
  - constructor.
  - destruct n; constructor; try assumption. apply IH.
Qed.

(** The mask test of [modbus_bitmap_get] reads one bit. *)
Lemma land_bit_mask (b k : Z) :
  0 <= k -> (Z.land b (Z.shiftl 1 k) =? 0) = negb (Z.testbit b k).
Proof.
  intros Hk. rewrite Z.shiftl_1_l.
  destruct (Z.testbit b k) eqn:Hb; simpl.
  - apply Z.eqb_neq. intros H0.
    assert (Ht : Z.testbit (Z.land b (2 ^ k)) k = true).
    { rewrite Z.land_spec, Hb, Z.pow2_bits_true by lia. reflexivity. }
    rewrite H0, Z.bits_0 in Ht. discriminate.
  - apply Z.eqb_eq. apply Z.bits_inj'. intros n Hn.
    rewrite Z.land_spec, Z.bits_0, Z.pow2_bits_eqb by lia.
    destruct (Z.eqb_spec k n) as [-> | _].
    + rewrite Hb. reflexivity.
    + apply andb_false_r.
Qed.

Lemma modbus_bitmap_get_testbit (pbits : list Z) (idx : Z) :
  0 <= idx ->
  modbus_bitmap_get pbits idx
  = if Z.testbit (arr_get pbits (idx / 8)) (idx mod 8) then 1 else 0.
Proof.
  intros Hidx. unfold modbus_bitmap_get.
  rewrite Z.quot_div_nonneg, Z.rem_mod_nonneg by lia.
  pose proof (Z.mod_pos_bound idx 8 ltac:(lia)) as Hm.
  rewrite land_bit_mask by lia. rewrite negb_involutive. reflexivity.
Qed.

(** The byte [modbus_bitmap_set] stores, bit by bit. *)
Lemma set_byte_bits (b k n : Z) :
  0 <= k -> 0 <= n < 8 ->
  Z.testbit (u8 (Z.lor b (Z.shiftl 1 k))) n = Z.testbit b n || (k =? n)
  /\ Z.testbit (u8 (Z.land b (Z.lnot (Z.shiftl 1 k)))) n
     = Z.testbit b n && negb (k =? n).
Proof.
  intros Hk Hn. unfold u8. change 256 with (2 ^ 8).
  rewrite !Z.mod_pow2_bits_low by lia.
  rewrite Z.lor_spec, Z.land_spec, Z.lnot_spec by lia.
  rewrite Z.shiftl_1_l, Z.pow2_bits_eqb by lia. split; reflexivity.
Qed.

(** X3: after [modbus_bitmap_set] on a bit index inside the bitmap,
    [modbus_bitmap_get] at that index returns 1 when the bit written,
    taken as the [uint8_t] the function receives, is nonzero and 0 when
    it is zero.  For an argument from 0 to 255 that is the argument
    itself; an argument of 256 arrives as 0 and clears the bit. *)
Theorem modbus_bitmap_get_set_same :
  forall (pbits : list Z) (idx bit : Z),
    0 <= idx < 8 * Z.of_nat (List.length pbits) ->
    modbus_bitmap_get (modbus_bitmap_set pbits idx bit) idx
    = (if u8 bit =? 0 then 0 else 1)
    /\ (0 <= bit < 256 ->
        modbus_bitmap_get (modbus_bitmap_set pbits idx bit) idx
        = if bit =? 0 then 0 else 1).
Proof.
  intros pbits idx bit Hidx.
  assert (Hmain : modbus_bitmap_get (modbus_bitmap_set pbits idx bit) idx
                  = if u8 bit =? 0 then 0 else 1);
    [| split; [exact Hmain |];
       intros Hbit; rewrite Hmain, (u8_small bit Hbit); reflexivity].
  rewrite modbus_bitmap_get_testbit by lia.
  pose proof (Z.mod_pos_bound idx 8 ltac:(lia)) as Hm.
  assert (Hq : 0 <= idx / 8 < Z.of_nat (List.length pbits)).
  { split; [apply Z.div_pos; lia | apply Z.div_lt_upper_bound; lia]. }
  unfold modbus_bitmap_set.
  rewrite Z.quot_div_nonneg, Z.rem_mod_nonneg by lia.
  destruct (u8 bit =? 0); cbn [negb];
    rewrite arr_get_set_same by exact Hq;
    destruct (set_byte_bits (arr_get pbits (idx / 8)) (idx mod 8)
                (idx mod 8) ltac:(lia) Hm) as [Hor Hand].
  - rewrite Hand, Z.eqb_refl. rewrite andb_false_r. reflexivity.
  - rewrite Hor, Z.eqb_refl. rewrite orb_true_r. reflexivity.
Qed.

Lemma modbus_bitmap_get_set_same_witness :
  0 <= 9 < 8 * Z.of_nat (List.length [0xCD; 0x01])
  /\ modbus_bitmap_get (modbus_bitmap_set [0xCD; 0x01] 9 1) 9 = 1
  /\ modbus_bitmap_get (modbus_bitmap_set [0xCD; 0x03] 9 256) 9 = 0.
Proof.
  assert (H : 0 <= 9 < 8 * Z.of_nat (List.length [0xCD; 0x01]))
    by (simpl; lia).
  assert (H' : 0 <= 9 < 8 * Z.of_nat (List.length [0xCD; 0x03]))
    by (simpl; lia).
  assert (Hbit : 0 <= 1 < 256) by lia.
  split; [exact H |]. split.
  - exact (proj2 (modbus_bitmap_get_set_same [0xCD; 0x01] 9 1 H) Hbit).
  - exact (proj1 (modbus_bitmap_get_set_same [0xCD; 0x03] 9 256 H')).
Defined.

(** X4: [modbus_bitmap_set] changes one bit only: every other bit index
    reads as before, the bitmap keeps its length, and a bitmap of bytes
    stays a bitmap of bytes. *)
Theorem modbus_bitmap_set_frame :
  forall (pbits : list Z) (idx j bit : Z),
    0 <= idx < 8 * Z.of_nat (List.length pbits) ->
    0 <= j -> j <> idx ->
    modbus_bitmap_get (modbus_bitmap_set pbits idx bit) j
    = modbus_bitmap_get pbits j
    /\ List.length (modbus_bitmap_set pbits idx bit) = List.length pbits
    /\ (bytes_ok pbits -> bytes_ok (modbus_bitmap_set pbits idx bit)).
Proof.
  intros pbits idx j bit Hidx Hj Hne.
  pose proof (Z.mod_pos_bound idx 8 ltac:(lia)) as Hm.
  pose proof (Z.mod_pos_bound j 8 ltac:(lia)) as Hmj.
  assert (Hq : 0 <= idx / 8 < Z.of_nat (List.length pbits)).
  { split; [apply Z.div_pos; lia | apply Z.div_lt_upper_bound; lia]. }
  assert (Hqj : 0 <= j / 8) by (apply Z.div_pos; lia).
  split; [| split].
  - rewrite !modbus_bitmap_get_testbit by lia.
    unfold modbus_bitmap_set.
    rewrite Z.quot_div_nonneg, Z.rem_mod_nonneg by lia.
    destruct (Z.eq_dec (idx / 8) (j / 8)) as [Heq | Hneq].
    + assert (Hbit : idx mod 8 <> j mod 8).
      { pose proof (Z.div_mod idx 8 ltac:(lia)).
        pose proof (Z.div_mod j 8 ltac:(lia)). lia. }
      rewrite <- Heq.
      destruct (set_byte_bits (arr_get pbits (idx / 8)) (idx mod 8)
                  (j mod 8) ltac:(lia) Hmj) as [Hor Hand].
      destruct (u8 bit =? 0); cbn [negb];
        rewrite arr_get_set_same by exact Hq.
      * rewrite Hand. destruct (Z.eqb_spec (idx mod 8) (j mod 8)); [lia |].
        rewrite andb_true_r. reflexivity.
      * rewrite Hor. destruct (Z.eqb_spec (idx mod 8) (j mod 8)); [lia |].
        rewrite orb_false_r. reflexivity.
    + destruct (u8 bit =? 0); cbn [negb];
        rewrite arr_get_set_other by lia; reflexivity.
  - unfold modbus_bitmap_set, arr_set.
    rewrite Z.quot_div_nonneg by lia.
    destruct (Z.ltb_spec (idx / 8) 0); [lia |].
    destruct (negb (u8 bit =? 0)); apply length_list_upd.
  - intros Hb. unfold modbus_bitmap_set, arr_set.
    rewrite Z.quot_div_nonneg by lia.
    destruct (Z.ltb_spec (idx / 8) 0); [lia |].
    destruct (negb (u8 bit =? 0)); apply bytes_ok_list_upd;
      try exact Hb; apply u8_range.
Qed.

Lemma modbus_bitmap_set_frame_witness :
  modbus_bitmap_get (modbus_bitmap_set [0xCD; 0x01] 9 1) 3
  = modbus_bitmap_get [0xCD; 0x01] 3
  /\ List.length (modbus_bitmap_set [0xCD; 0x01] 9 1)
     = List.length [0xCD; 0x01]
  /\ (bytes_ok [0xCD; 0x01] -> bytes_ok (modbus_bitmap_set [0xCD; 0x01] 9 1)).
Proof.
  apply (modbus_bitmap_set_frame [0xCD; 0x01] 9 3 1); simpl; lia.
Defined.

(* ------------------------------------------------------------------ *)
(** * Further properties of the PDU codec *)

Lemma bytes_ok_ptr_add (l : list Z) (n : Z) :
  bytes_ok l -> bytes_ok (ptr_add l n).
Proof.
  intros Hl. unfold ptr_add, bytes_ok in *. rewrite Forall_forall in *.
  intros x Hx. apply Hl. revert Hx. generalize (Z.to_nat n) as k.
  intros k. revert l Hl. induction k as [| k IH]; intros l Hl Hx.
  - exact Hx.
  - destruct l as [| h t]; simpl in Hx; [contradiction |].
    right. apply (IH t); [| exact Hx].
    intros y Hy. apply Hl. right. exact Hy.
Qed.

Lemma deref_byte (l : list Z) : bytes_ok l -> 0 <= deref l < 256.
Proof.
  intros Hl. destruct Hl as [| h t Hh _]; simpl; lia.
Qed.

(** Unfolds the shape parsers down to the bytes they read. *)
Ltac parse_unfold :=
  unfold modbus_pdu_except_parse, modbus_pdu_rd_req_parse,
    modbus_pdu_rd_rsp_parse, modbus_pdu_wr_single_parse,
    modbus_pdu_wr_req_parse, modbus_pdu_wr_rsp_parse,
    modbus_pdu_mask_wr_parse, modbus_pdu_wr_rd_req_parse.

Ltac parse_compute :=
  unfold cast_parse, get_adv, skip_adv, rcursor0, modbus_cvt_u8_get,
    modbus_cvt_u16_get;
  cbn [rp roff fst snd pdu_fc exc_fc rd_req_fc rd_rsp_fc wr_single_fc
       wr_req_fc wr_rsp_fc mask_wr_fc wr_rd_fc].

(** Destructs every comparison of the function code switch. *)
Ltac switch_cases :=
  unfold fc_switch;
  repeat match goal with
         | |- context [if ?a =? ?b then _ else _] => destruct (a =? b)
         end.

(** The byte count a payload parser read is a byte. *)
Ltac dlen_byte Hb :=
  try match goal with
      | |- context [_ + deref ?l] =>
          assert (0 <= deref l < 256)
            by (apply deref_byte; repeat apply bytes_ok_ptr_add; exact Hb)
      end.

(** X5: over a buffer of bytes [modbus_pdu_parse] returns -1, 0 or a
    length from 2 to 265.  When it returns -1 or 0 the output PDU is left
    as it was; when it returns a length the output PDU carries the first
    byte of the buffer as its function code. *)
Theorem modbus_pdu_parse_result :
  forall (type : mb_pdu_type_t) (buf : list Z) (len : Z) (pdu : mb_pdu_t),
    bytes_ok buf ->
    (modbus_pdu_parse buf len pdu type = (-1, pdu))
    \/ (modbus_pdu_parse buf len pdu type = (0, pdu))
    \/ (2 <= fst (modbus_pdu_parse buf len pdu type) <= 265
        /\ pdu_fc (snd (modbus_pdu_parse buf len pdu type)) = deref buf).
Proof.
  intros type buf len pdu Hb.
  destruct type; unfold modbus_pdu_parse, modbus_pdu_req_parse,
    modbus_pdu_rsp_parse;
    try destruct (MODBUS_FC_EXCEPT_CHK (deref buf));
    switch_cases;
    try (left; reflexivity);
    parse_unfold;
    match goal with
    | |- context [if len <? ?k then _ else _] => destruct (len <? k)
    end;
    try (right; left; reflexivity);
    right; right; parse_compute; dlen_byte Hb; (split; [lia | reflexivity]).
Qed.

Lemma modbus_pdu_parse_result_witness :
  let buf := [0x03; 0x02; 0xAE; 0x41] in
  let pdu := PduExcept (mkExcept 0 0) in
  (modbus_pdu_parse buf 4 pdu MB_PDU_TYPE_RSP = (-1, pdu))
  \/ (modbus_pdu_parse buf 4 pdu MB_PDU_TYPE_RSP = (0, pdu))
  \/ (2 <= fst (modbus_pdu_parse buf 4 pdu MB_PDU_TYPE_RSP) <= 265
      /\ pdu_fc (snd (modbus_pdu_parse buf 4 pdu MB_PDU_TYPE_RSP))
         = deref buf).
Proof.
  intros buf pdu.
  apply (modbus_pdu_parse_result MB_PDU_TYPE_RSP buf 4 pdu).
  repeat constructor; lia.
Defined.

(** X6: in the response direction [modbus_pdu_parse] returns 0 for an
    exception function code (high bit set) with fewer than 2 bytes,
    returns -1 when the first byte is neither an exception code nor one of
    the ten supported function codes, and returns 0 when the function code
    is supported but the length is below the minimum of the response shape
    (3 for read responses, 5 for write responses, 7 for mask-write); in
    all three cases the output PDU is left as it was. *)
Theorem modbus_pdu_rsp_parse_errors :
  forall (fc : Z) (rest : list Z) (len : Z) (pdu : mb_pdu_t),
    (MODBUS_FC_EXCEPT_CHK fc = true -> len < 2 ->
     modbus_pdu_parse (fc :: rest) len pdu MB_PDU_TYPE_RSP = (0, pdu))
    /\ (MODBUS_FC_EXCEPT_CHK fc = false -> fc_supported fc = false ->
        modbus_pdu_parse (fc :: rest) len pdu MB_PDU_TYPE_RSP = (-1, pdu))
    /\ (fc_supported fc = true -> len < rsp_min_len fc ->
        modbus_pdu_parse (fc :: rest) len pdu MB_PDU_TYPE_RSP = (0, pdu)).
Proof.
  intros fc rest len pdu.
  unfold modbus_pdu_parse, modbus_pdu_rsp_parse, deref, hd.
  split; [| split].
  - intros Hx Hlen. rewrite Hx. unfold modbus_pdu_except_parse.
    destruct (Z.ltb_spec len 2); [reflexivity | lia].
  - intros Hx Hns. rewrite Hx. apply fc_switch_default. exact Hns.
  - intros Hs Hlen. rewrite (fc_supported_not_except fc Hs).
    apply fc_supported_cases in Hs. simpl in Hs.
    repeat (destruct Hs as [Hs | Hs];
            [subst fc;
             match type of Hlen with
             | _ < ?e => let v := eval vm_compute in e in
                         change e with v in Hlen
             end;
             fc_switch_case; parse_unfold;
             match goal with
             | |- context [len <? ?k] =>
                 destruct (Z.ltb_spec len k); [reflexivity | lia]
             end |]).
    contradiction.
Qed.

Lemma modbus_pdu_rsp_parse_errors_witness :
  let pdu := PduExcept (mkExcept 0 0) in
  modbus_pdu_parse [0x83] 1 pdu MB_PDU_TYPE_RSP = (0, pdu)
  /\ modbus_pdu_parse [0x07; 0x00] 2 pdu MB_PDU_TYPE_RSP = (-1, pdu)
  /\ modbus_pdu_parse [0x10; 0x00; 0x01; 0x00] 4 pdu MB_PDU_TYPE_RSP
     = (0, pdu).
Proof.
  intros pdu. split; [| split].
  - destruct (modbus_pdu_rsp_parse_errors 0x83 [] 1 pdu) as [H _].
    apply H; [reflexivity | lia].
  - destruct (modbus_pdu_rsp_parse_errors 0x07 [0x00] 2 pdu) as [_ [H _]].
    apply H; reflexivity.
  - destruct (modbus_pdu_rsp_parse_errors 0x10 [0x00; 0x01; 0x00] 4 pdu)
      as [_ [_ H]].
    apply H; [reflexivity |]. change (rsp_min_len 16) with 5. lia.
Defined.

(** A parse that succeeded does not depend on the length it was given. *)
Lemma pdu_parse_len_mono (type : mb_pdu_type_t) (buf : list Z)
  (len len' : Z) (pdu : mb_pdu_t) :
  0 < fst (modbus_pdu_parse buf len pdu type) ->
  len <= len' ->
  modbus_pdu_parse buf len' pdu type = modbus_pdu_parse buf len pdu type.
Proof.
  intros Hpos Hle. revert Hpos.
  destruct type; unfold modbus_pdu_parse, modbus_pdu_req_parse,
    modbus_pdu_rsp_parse;
    try destruct (MODBUS_FC_EXCEPT_CHK (deref buf));
    switch_cases;
    try (intros Hpos; simpl in Hpos; lia);
    parse_unfold;
    match goal with
    | |- context [if len <? ?k then _ else _] =>
        destruct (Z.ltb_spec len k); destruct (Z.ltb_spec len' k)
    end;
    intros Hpos; try reflexivity; try lia; simpl in Hpos; lia.
Qed.

(** X7: a parse that succeeded does not depend on the length it was
    given: with any larger length [modbus_pdu_parse] returns the same
    length and the same PDU. *)
Theorem modbus_pdu_parse_len_mono :
  forall (type : mb_pdu_type_t) (buf : list Z) (len len' : Z)
         (pdu : mb_pdu_t),
    0 < fst (modbus_pdu_parse buf len pdu type) ->
    len <= len' ->
    modbus_pdu_parse buf len' pdu type = modbus_pdu_parse buf len pdu type.
Proof.
  intros type buf len len' pdu. apply pdu_parse_len_mono.
Qed.

Lemma modbus_pdu_parse_len_mono_witness :
  let buf := [0x03; 0x00; 0x6B; 0x00; 0x03; 0x76; 0x87] in
  let pdu := PduExcept (mkExcept 0 0) in
  modbus_pdu_parse buf 7 pdu MB_PDU_TYPE_REQ
  = modbus_pdu_parse buf 5 pdu MB_PDU_TYPE_REQ.
Proof.
  intros buf pdu.
  apply (modbus_pdu_parse_len_mono MB_PDU_TYPE_REQ buf 5 7 pdu).
  - simpl. lia.
  - lia.
Defined.

(** X8: what a successful parse says about the length it was given.  For
    the fixed-size shapes the returned length never exceeds it.  For the
    three shapes with a payload the returned length is the header size (2,
    6 or 10) plus the byte count read from the buffer, and only the header
    and one more byte are known to lie within the length given: the caller
    has to compare the result with the length itself. *)
Theorem modbus_pdu_parse_length_bound :
  forall (type : mb_pdu_type_t) (buf : list Z) (len : Z) (pdu : mb_pdu_t),
    0 < fst (modbus_pdu_parse buf len pdu type) ->
    match snd (modbus_pdu_parse buf len pdu type) with
    | PduRdRsp r =>
        fst (modbus_pdu_parse buf len pdu type) = 2 + rd_rsp_dlen r
        /\ 3 <= len
    | PduWrReq r =>
        fst (modbus_pdu_parse buf len pdu type) = 6 + wr_req_dlen r
        /\ 7 <= len
    | PduWrRdReq r =>
        fst (modbus_pdu_parse buf len pdu type) = 10 + wr_rd_dlen r
        /\ 11 <= len
    | _ => fst (modbus_pdu_parse buf len pdu type) <= len
    end.
Proof.
  intros type buf len pdu.
  destruct type; unfold modbus_pdu_parse, modbus_pdu_req_parse,
    modbus_pdu_rsp_parse;
    try destruct (MODBUS_FC_EXCEPT_CHK (deref buf));
    switch_cases;
    try (intros Hpos; simpl in Hpos; lia);
    parse_unfold;
    match goal with
    | |- context [if len <? ?k then _ else _] => destruct (Z.ltb_spec len k)
    end;
    try (intros Hpos; simpl in Hpos; lia);
    intros _; parse_compute;
    cbn [rd_rsp_dlen wr_req_dlen wr_rd_dlen]; lia.
Qed.

Lemma modbus_pdu_parse_length_bound_witness :
  let buf := [0x10; 0x00; 0x01; 0x00; 0x02; 0x04; 0x00] in
  let pdu := PduExcept (mkExcept 0 0) in
  match snd (modbus_pdu_parse buf 7 pdu MB_PDU_TYPE_REQ) with
  | PduRdRsp r =>
      fst (modbus_pdu_parse buf 7 pdu MB_PDU_TYPE_REQ) = 2 + rd_rsp_dlen r
      /\ 3 <= 7
  | PduWrReq r =>
      fst (modbus_pdu_parse buf 7 pdu MB_PDU_TYPE_REQ) = 6 + wr_req_dlen r
      /\ 7 <= 7
  | PduWrRdReq r =>
      fst (modbus_pdu_parse buf 7 pdu MB_PDU_TYPE_REQ) = 10 + wr_rd_dlen r
      /\ 11 <= 7
  | _ => fst (modbus_pdu_parse buf 7 pdu MB_PDU_TYPE_REQ) <= 7
  end.
Proof.
  intros buf pdu.
  apply (modbus_pdu_parse_length_bound MB_PDU_TYPE_REQ buf 7 pdu).
  simpl. lia.
Defined.

Lemma bytes_ok_inv (b : Z) (l : list Z) :
  bytes_ok (b :: l) -> 0 <= b < 256 /\ bytes_ok l.
Proof. intros H. inversion H; subst. split; assumption. Qed.

(** The bytes a shape is made of when its fields were read from bytes. *)
Lemma fixed5_make_parsed (b0 b1 b2 b3 b4 : Z) (rest : list Z) :
  bytes_ok (b0 :: b1 :: b2 :: b3 :: b4 :: rest) ->
  modbus_pdu_rd_req_make (mkRdReq b0 (be16 b1 b2) (be16 b3 b4))
  = ([b0; b1; b2; b3; b4], 5)
  /\ modbus_pdu_wr_single_make (mkWrSingle b0 (be16 b1 b2) (be16 b3 b4))
     = ([b0; b1; b2; b3; b4], 5)
  /\ modbus_pdu_wr_rsp_make (mkWrRsp b0 (be16 b1 b2) (be16 b3 b4))
     = ([b0; b1; b2; b3; b4], 5).
Proof.
  intros Hb.
  repeat (apply bytes_ok_inv in Hb; destruct Hb as [? Hb]).
  destruct (fixed5_make_bytes b0 (be16 b1 b2) (be16 b3 b4)) as [E1 [E2 E3]].
  rewrite E1, E2, E3.
  destruct (be16_split b1 b2) as [A1 A2]; [assumption | assumption |].
  destruct (be16_split b3 b4) as [B1 B2]; [assumption | assumption |].
  rewrite A1, A2, B1, B2, (u8_small b0) by assumption. auto.
Qed.

Lemma mask_wr_make_parsed (b0 b1 b2 b3 b4 b5 b6 : Z) (rest : list Z) :
  bytes_ok (b0 :: b1 :: b2 :: b3 :: b4 :: b5 :: b6 :: rest) ->
  modbus_pdu_mask_wr_make
    (mkMaskWr b0 (be16 b1 b2) (be16 b3 b4) (be16 b5 b6))
  = ([b0; b1; b2; b3; b4; b5; b6], 7).
Proof.
  intros Hb.
  repeat (apply bytes_ok_inv in Hb; destruct Hb as [? Hb]).
  rewrite mask_wr_make_bytes.
  destruct (be16_split b1 b2) as [A1 A2]; [assumption | assumption |].
  destruct (be16_split b3 b4) as [B1 B2]; [assumption | assumption |].
  destruct (be16_split b5 b6) as [C1 C2]; [assumption | assumption |].
  rewrite A1, A2, B1, B2, C1, C2, (u8_small b0) by assumption. reflexivity.
Qed.

Lemma except_make_parsed (b0 b1 : Z) (rest : list Z) :
  bytes_ok (b0 :: b1 :: rest) ->
  modbus_pdu_except_make (mkExcept b0 b1) = ([b0; b1], 2).
Proof.
  intros Hb.
  repeat (apply bytes_ok_inv in Hb; destruct Hb as [? Hb]).
  rewrite except_make_bytes. cbn [exc_fc exc_ec].
  rewrite !u8_small by assumption. reflexivity.
Qed.

(** The first [k + d] elements of a buffer that starts with [k] header
    bytes. *)
Lemma firstn_header (pre rest : list Z) (n d : Z) :
  0 <= d -> n = Z.of_nat (List.length pre) + d ->
  firstn (Z.to_nat n) (pre ++ rest) = pre ++ payload d rest.
Proof.
  intros Hd Hn. subst n.
  replace (Z.to_nat (Z.of_nat (List.length pre) + d))
    with (List.length pre + Z.to_nat d)%nat by lia.
  apply firstn_app_2.
Qed.

Lemma rd_rsp_make_parsed (b0 b1 : Z) (rest : list Z) :
  bytes_ok (b0 :: b1 :: rest) ->
  modbus_pdu_rd_rsp_make (mkRdRsp b0 b1 rest)
  = (firstn (Z.to_nat (0 + 1 + 1 + b1)) (b0 :: b1 :: rest), 0 + 1 + 1 + b1).
Proof.
  intros Hb.
  repeat (apply bytes_ok_inv in Hb; destruct Hb as [? Hb]).
  rewrite rd_rsp_make_bytes, !u8_small by assumption.
  change (b0 :: b1 :: rest) with ([b0; b1] ++ rest).
  rewrite (firstn_header [b0; b1] rest (0 + 1 + 1 + b1) b1)
    by (simpl List.length; lia).
  reflexivity.
Qed.

Lemma wr_req_make_parsed (b0 b1 b2 b3 b4 b5 : Z) (rest : list Z) :
  bytes_ok (b0 :: b1 :: b2 :: b3 :: b4 :: b5 :: rest) ->
  modbus_pdu_wr_req_make (mkWrReq b0 (be16 b1 b2) (be16 b3 b4) b5 rest)
  = (firstn (Z.to_nat (0 + 1 + 2 + 2 + 1 + b5))
       (b0 :: b1 :: b2 :: b3 :: b4 :: b5 :: rest),
     0 + 1 + 2 + 2 + 1 + b5).
Proof.
  intros Hb.
  repeat (apply bytes_ok_inv in Hb; destruct Hb as [? Hb]).
  rewrite wr_req_make_bytes.
  destruct (be16_split b1 b2) as [A1 A2]; [assumption | assumption |].
  destruct (be16_split b3 b4) as [B1 B2]; [assumption | assumption |].
  rewrite A1, A2, B1, B2, !u8_small by assumption.
  change (b0 :: b1 :: b2 :: b3 :: b4 :: b5 :: rest)
    with ([b0; b1; b2; b3; b4; b5] ++ rest).
  rewrite (firstn_header [b0; b1; b2; b3; b4; b5] rest
             (0 + 1 + 2 + 2 + 1 + b5) b5) by (simpl List.length; lia).
  reflexivity.
Qed.

Lemma wr_rd_req_make_parsed (b0 b1 b2 b3 b4 b5 b6 b7 b8 b9 : Z)
  (rest : list Z) :
  bytes_ok (b0 :: b1 :: b2 :: b3 :: b4 :: b5 :: b6 :: b7 :: b8 :: b9 :: rest)
  ->
  modbus_pdu_wr_rd_req_make
    (mkWrRdReq b0 (be16 b1 b2) (be16 b3 b4) (be16 b5 b6) (be16 b7 b8) b9
       rest)
  = (firstn (Z.to_nat (0 + 1 + 2 + 2 + 2 + 2 + 1 + b9))
       (b0 :: b1 :: b2 :: b3 :: b4 :: b5 :: b6 :: b7 :: b8 :: b9 :: rest),
     0 + 1 + 2 + 2 + 2 + 2 + 1 + b9).
Proof.
  intros Hb.
  repeat (apply bytes_ok_inv in Hb; destruct Hb as [? Hb]).
  rewrite wr_rd_req_make_bytes.
  destruct (be16_split b1 b2) as [A1 A2]; [assumption | assumption |].
  destruct (be16_split b3 b4) as [B1 B2]; [assumption | assumption |].
  destruct (be16_split b5 b6) as [C1 C2]; [assumption | assumption |].
  destruct (be16_split b7 b8) as [D1 D2]; [assumption | assumption |].
  rewrite A1, A2, B1, B2, C1, C2, D1, D2, !u8_small by assumption.
  change (b0 :: b1 :: b2 :: b3 :: b4 :: b5 :: b6 :: b7 :: b8 :: b9 :: rest)
    with ([b0; b1; b2; b3; b4; b5; b6; b7; b8; b9] ++ rest).
  rewrite (firstn_header [b0; b1; b2; b3; b4; b5; b6; b7; b8; b9] rest
             (0 + 1 + 2 + 2 + 2 + 2 + 1 + b9) b9)
    by (simpl List.length; lia).
  reflexivity.
Qed.

Lemma ptr_add_1 (x : Z) (l : list Z) : ptr_add (x :: l) 1 = l.
Proof. reflexivity. Qed.

Lemma ptr_add_2 (x y : Z) (l : list Z) : ptr_add (x :: y :: l) 2 = l.
Proof. reflexivity. Qed.

(** Brings a buffer that is long enough for the parsed length into the
    form of its leading bytes followed by the rest. *)
Ltac expose_bytes buf Hlen :=
  repeat (destruct buf as [| ? buf]; [exfalso; simpl in Hlen; lia |]);
  repeat first [rewrite ptr_add_1 | rewrite ptr_add_2]; cbn [deref hd];
  repeat match goal with
         | |- context [u16 (u16 (Z.shiftl ?a 8) + ?b)] =>
             change (u16 (u16 (Z.shiftl a 8) + b)) with (be16 a b)
         end.

(** X9: making what was parsed gives the bytes back.  When
    [modbus_pdu_parse] over a buffer of bytes returns a length [n] > 0 that
    lies within the buffer, [modbus_pdu_make] in the same direction on the
    parsed PDU returns [n] and writes exactly the first [n] bytes of the
    buffer. *)
Theorem modbus_pdu_make_parse_bytes :
  forall (type : mb_pdu_type_t) (buf : list Z) (len : Z) (pdu : mb_pdu_t),
    bytes_ok buf ->
    0 < fst (modbus_pdu_parse buf len pdu type) ->
    fst (modbus_pdu_parse buf len pdu type) <= Z.of_nat (List.length buf) ->
    modbus_pdu_make (snd (modbus_pdu_parse buf len pdu type)) type
    = Some (firstn (Z.to_nat (fst (modbus_pdu_parse buf len pdu type))) buf,
            fst (modbus_pdu_parse buf len pdu type)).
Proof.
  intros type buf len pdu Hb.
  destruct type; unfold modbus_pdu_parse, modbus_pdu_req_parse,
    modbus_pdu_rsp_parse.
  - unfold fc_switch;
    repeat match goal with
         | |- context [if ?a =? ?b then _ else _] =>
             destruct (Z.eqb_spec a b) as [He | ?]; [cbv iota |]
         end;
    try (intros Hpos; simpl in Hpos; lia);
    parse_unfold;
    match goal with
    | |- context [if len <? ?k then _ else _] => destruct (Z.ltb_spec len k)
    end;
    try (intros Hpos; simpl in Hpos; lia);
    intros _; parse_compute; intros Hlen;
    unfold modbus_pdu_make, modbus_pdu_req_make; cbn [pdu_fc rd_req_fc wr_single_fc wr_req_fc mask_wr_fc wr_rd_fc];
    first [ rewrite fc_switch_rd by (rewrite He; reflexivity)
        | rewrite fc_switch_single by (rewrite He; reflexivity)
        | rewrite fc_switch_multi by (rewrite He; reflexivity)
        | rewrite fc_switch_mask by (rewrite He; reflexivity)
        | rewrite fc_switch_wr_rd by (rewrite He; reflexivity) ];
    clear He;
    repeat match goal with H : deref buf <> _ |- _ => clear H end;
    expose_bytes buf Hlen;
    unfold cast_make, as_rd_req, as_wr_single, as_wr_req, as_mask_wr,
      as_wr_rd_req, option_map;
    first [ rewrite (proj1 (fixed5_make_parsed _ _ _ _ _ _ Hb))
          | rewrite (proj1 (proj2 (fixed5_make_parsed _ _ _ _ _ _ Hb)))
          | rewrite (mask_wr_make_parsed _ _ _ _ _ _ _ _ Hb)
          | rewrite (wr_req_make_parsed _ _ _ _ _ _ _ Hb)
          | rewrite (wr_rd_req_make_parsed _ _ _ _ _ _ _ _ _ _ _ Hb) ];
    reflexivity.
  - destruct (MODBUS_FC_EXCEPT_CHK (deref buf)) eqn:Hx.
    + parse_unfold. destruct (Z.ltb_spec len 2).
      * intros Hpos; simpl in Hpos; lia.
      * intros _; parse_compute; intros Hlen.
        unfold modbus_pdu_make, modbus_pdu_rsp_make. cbn [pdu_fc exc_fc].
        rewrite Hx. clear Hx. expose_bytes buf Hlen.
        unfold cast_make, as_except, option_map.
        rewrite (except_make_parsed _ _ _ Hb). reflexivity.
    + unfold fc_switch;
      repeat match goal with
             | |- context [if ?a =? ?b then _ else _] =>
                 destruct (Z.eqb_spec a b) as [He | ?]; [cbv iota |]
             end;
      try (intros Hpos; simpl in Hpos; lia);
      parse_unfold;
      match goal with
      | |- context [if len <? ?k then _ else _] =>
          destruct (Z.ltb_spec len k)
      end;
      try (intros Hpos; simpl in Hpos; lia);
      intros _; parse_compute; intros Hlen;
      unfold modbus_pdu_make, modbus_pdu_rsp_make;
      cbn [pdu_fc rd_rsp_fc wr_single_fc wr_rsp_fc mask_wr_fc];
      rewrite Hx; clear Hx;
      first [ rewrite fc_switch_rd by (rewrite He; reflexivity)
            | rewrite fc_switch_single by (rewrite He; reflexivity)
            | rewrite fc_switch_multi by (rewrite He; reflexivity)
            | rewrite fc_switch_mask by (rewrite He; reflexivity)
            | rewrite fc_switch_wr_rd by (rewrite He; reflexivity) ];
      clear He;
      repeat match goal with H : deref buf <> _ |- _ => clear H end;
      expose_bytes buf Hlen;
      unfold cast_make, as_rd_rsp, as_wr_single, as_wr_rsp, as_mask_wr,
        option_map;
      first [ rewrite (rd_rsp_make_parsed _ _ _ Hb)
            | rewrite (proj1 (proj2 (fixed5_make_parsed _ _ _ _ _ _ Hb)))
            | rewrite (proj2 (proj2 (fixed5_make_parsed _ _ _ _ _ _ Hb)))
            | rewrite (mask_wr_make_parsed _ _ _ _ _ _ _ _ Hb) ];
      reflexivity.
Qed.

Lemma modbus_pdu_make_parse_bytes_witness :
  let buf := [0x03; 0x06; 0xAE; 0x41; 0x56; 0x52; 0x43; 0x40; 0x49; 0xAD] in
  let pdu := PduExcept (mkExcept 0 0) in
  modbus_pdu_make (snd (modbus_pdu_parse buf 8 pdu MB_PDU_TYPE_RSP))
    MB_PDU_TYPE_RSP
  = Some (firstn (Z.to_nat (fst (modbus_pdu_parse buf 8 pdu MB_PDU_TYPE_RSP)))
            buf,
          fst (modbus_pdu_parse buf 8 pdu MB_PDU_TYPE_RSP)).
Proof.
  intros buf pdu.
  apply (modbus_pdu_make_parse_bytes MB_PDU_TYPE_RSP buf 8 pdu).
  - repeat constructor; lia.
  - simpl. lia.
  - simpl. lia.
Defined.

(* ------------------------------------------------------------------ *)
(** * Further properties of the RTU frame wrapper *)

(** X10: what an accepted frame guarantees.  When
    [modbus_rtu_frame_parse] returns a PDU length [n] > 0, the length given
    is at least 4 and at least [n + 3], the CRC over the first [n + 3]
    bytes of the buffer has residue 0, the address stored is the first
    byte, and the PDU stored is what [modbus_pdu_parse] read behind the
    address.  A frame whose CRC residue is not 0 is never accepted. *)
Theorem modbus_rtu_frame_parse_accepts :
  forall (buf : list Z) (len : Z) (frm frm' : mb_rtu_frm_t)
         (type : mb_pdu_type_t) (n : Z),
    modbus_rtu_frame_parse buf len frm type = (n, frm') ->
    0 < n ->
    4 <= len
    /\ n + 3 <= len
    /\ modbus_crc_cal buf (n + 3) = 0
    /\ frm_saddr frm' = deref buf
    /\ modbus_pdu_parse (ptr_add buf 1) (len - 3) (frm_pdu frm) type
       = (n, frm_pdu frm').
Proof.
  intros buf len frm frm' type n Hrun Hn.
  unfold modbus_rtu_frame_parse in Hrun.
  change MB_RTU_FRM_MIN with 4 in Hrun.
  change (MB_RTU_SADDR_SIZE + MB_RTU_CRC_SIZE) with 3 in Hrun.
  destruct (Z.ltb_spec len 4) as [Hlt | Hge].
  { injection Hrun as Hr _. lia. }
  destruct (modbus_pdu_parse (ptr_add buf 1) (len - 3) (frm_pdu frm) type)
    as [pdu_len pdu].
  destruct (Z.leb_spec pdu_len 0) as [Hle | Hgt].
  { injection Hrun as Hr _. lia. }
  destruct (Z.ltb_spec (len - 3) pdu_len) as [Hshort | Hfit].
  { injection Hrun as Hr _. lia. }
  destruct (Z.eqb_spec (modbus_crc_cal buf (pdu_len + 3)) 0) as [Hcrc | Hcrc];
    cbn [negb] in Hrun.
  - injection Hrun as Hr Hf. subst pdu_len frm'. cbn [frm_saddr frm_pdu].
    repeat split; try lia; try reflexivity.
  - injection Hrun as Hr _. lia.
Qed.

Lemma modbus_rtu_frame_parse_accepts_witness :
  let buf := [0x11; 0x03; 0x00; 0x6B; 0x00; 0x03; 0x76; 0x87] in
  let frm := mkRtuFrm 0 (PduExcept (mkExcept 0 0)) in
  let frm' := mkRtuFrm 0x11 (PduRdReq (mkRdReq 0x03 0x006B 3)) in
  4 <= 8
  /\ 5 + 3 <= 8
  /\ modbus_crc_cal buf (5 + 3) = 0
  /\ frm_saddr frm' = deref buf
  /\ modbus_pdu_parse (ptr_add buf 1) (8 - 3) (frm_pdu frm) MB_PDU_TYPE_REQ
     = (5, frm_pdu frm').
Proof.
  intros buf frm frm'.
  apply (modbus_rtu_frame_parse_accepts buf 8 frm frm' MB_PDU_TYPE_REQ 5).
  - reflexivity.
  - lia.
Defined.

Lemma modbus_crc_cal_prefix (l extra : list Z) :
  modbus_crc_cal (l ++ extra) (Z.of_nat (List.length l))
  = modbus_crc_cal l (Z.of_nat (List.length l)).
Proof.
  unfold modbus_crc_cal. rewrite Nat2Z.id.
  rewrite firstn_app, Nat.sub_diag, firstn_O, app_nil_r, firstn_all.
  reflexivity.
Qed.

(** X11: bytes received after a frame do not disturb it.  For a frame made
    by [modbus_rtu_frame_make] from a byte address and a valid PDU, the
    parse over the frame followed by any further bytes, given the total
    length, still returns the PDU length with the address and the PDU read
    back: the parser compares the PDU length with the length received only
    from above. *)
Theorem modbus_rtu_frame_parse_trailing_bytes :
  forall (saddr : Z) (p : mb_pdu_t) (type : mb_pdu_type_t)
         (frm0 : mb_rtu_frm_t) (extra : list Z),
    0 <= saddr < 256 ->
    pdu_valid type p = true ->
    exists frame n frm',
      modbus_rtu_frame_make (mkRtuFrm saddr p) type = Some (frame, n + 3)
      /\ modbus_rtu_frame_parse (frame ++ extra)
           (n + 3 + Z.of_nat (List.length extra)) frm0 type = (n, frm')
      /\ frm_saddr frm' = saddr
      /\ pdu_eq p (frm_pdu frm').
Proof.
  intros saddr p type frm0 extra Hs Hv.
  destruct (pdu_round_trips type p Hv) as [pbytes [n [Hm [Hn [Hn2 [Hb Hp]]]]]].
  set (body := saddr :: pbytes).
  set (crc := modbus_crc_cal body (Z.of_nat (List.length body))).
  set (tail := [u8 crc; u8 (Z.shiftr crc 8)]).
  assert (Hbody : bytes_ok body) by (apply bytes_ok_cons; assumption).
  assert (Hlen : Z.of_nat (List.length body) = 1 + n).
  { unfold body. simpl List.length. lia. }
  assert (Hres : modbus_crc_cal ((body ++ tail) ++ extra) (n + 3) = 0).
  { replace (n + 3) with (Z.of_nat (List.length (body ++ tail))).
    - rewrite modbus_crc_cal_prefix.
      replace (Z.of_nat (List.length (body ++ tail)))
        with (Z.of_nat (List.length body) + 2).
      + apply modbus_crc_cal_residue. exact Hbody.
      + rewrite length_app, Nat2Z.inj_add.
        change (List.length tail) with 2%nat. lia.
    - rewrite length_app, Nat2Z.inj_add.
      change (List.length tail) with 2%nat. lia. }
  destruct (Hp (tail ++ extra) (frm_pdu frm0)) as [q [Hq Heq]].
  exists (body ++ tail), n, (mkRtuFrm saddr q).
  split.
  { unfold modbus_rtu_frame_make. cbn [frm_saddr frm_pdu]. rewrite Hm.
    unfold made, put_adv, cursor0, modbus_cvt_u8_put. cbn [out pos fst snd].
    rewrite (u8_small saddr) by exact Hs. cbn [app].
    fold body. replace (0 + 1 + n) with (Z.of_nat (List.length body)) by lia.
    fold crc. rewrite <- !app_assoc. cbn [app]. fold tail.
    replace (Z.of_nat (List.length body) + 1 + 1) with (n + 3) by lia.
    reflexivity. }
  split; [| split; [reflexivity | exact Heq]].
  unfold modbus_rtu_frame_parse.
  change MB_RTU_FRM_MIN with 4.
  change (MB_RTU_SADDR_SIZE + MB_RTU_CRC_SIZE) with 3.
  destruct (Z.ltb_spec (n + 3 + Z.of_nat (List.length extra)) 4)
    as [Hlt | _]; [lia |].
  replace (n + 3 + Z.of_nat (List.length extra) - 3)
    with (n + Z.of_nat (List.length extra)) by lia.
  assert (Hshape : (body ++ tail) ++ extra
                   = saddr :: pbytes ++ tail ++ extra).
  { unfold body. rewrite <- app_assoc. reflexivity. }
  rewrite Hshape in Hres |- *.
  change (ptr_add (saddr :: pbytes ++ tail ++ extra) 1)
    with (pbytes ++ tail ++ extra).
  assert (Hq' : modbus_pdu_parse (pbytes ++ tail ++ extra)
                  (n + Z.of_nat (List.length extra)) (frm_pdu frm0) type
                = (n, q)).
  { rewrite <- Hq. apply pdu_parse_len_mono; [rewrite Hq; simpl |]; lia. }
  rewrite Hq'. cbn [deref hd].
  destruct (Z.leb_spec n 0) as [Hle | _]; [lia |].
  destruct (Z.ltb_spec (n + Z.of_nat (List.length extra)) n) as [Hlt | _];
    [lia |].
  rewrite Hres. reflexivity.
Qed.

Lemma modbus_rtu_frame_parse_trailing_bytes_witness :
  let p := PduWrSingle (mkWrSingle 0x05 0x00AC 0xFF00) in
  let frm0 := mkRtuFrm 0 (PduExcept (mkExcept 0 0)) in
  exists frame n frm',
    modbus_rtu_frame_make (mkRtuFrm 0x11 p) MB_PDU_TYPE_RSP
    = Some (frame, n + 3)
    /\ modbus_rtu_frame_parse (frame ++ [0x00; 0xFF])
         (n + 3 + Z.of_nat (List.length [0x00; 0xFF])) frm0 MB_PDU_TYPE_RSP
       = (n, frm')
    /\ frm_saddr frm' = 0x11
    /\ pdu_eq p (frm_pdu frm').
Proof.
  intros p frm0.
  apply (modbus_rtu_frame_parse_trailing_bytes 0x11 p MB_PDU_TYPE_RSP frm0
           [0x00; 0xFF]).
  - lia.
  - reflexivity.
Defined.

(** X12: [modbus_rtu_frame_make] does not fail on a PDU it cannot make.
    For a function code outside the supported set (and, in the response
    direction, without the exception bit) the PDU maker writes nothing and
    returns 0, so the frame is the address followed by the CRC, of length
    3; [modbus_rtu_frame_parse] rejects that frame as too short and leaves
    its output as it was. *)
Theorem modbus_rtu_frame_make_unsupported :
  forall (saddr : Z) (p : mb_pdu_t) (type : mb_pdu_type_t)
         (frm0 : mb_rtu_frm_t),
    fc_supported (pdu_fc p) = false ->
    (type = MB_PDU_TYPE_RSP -> MODBUS_FC_EXCEPT_CHK (pdu_fc p) = false) ->
    exists c1 c2,
      modbus_pdu_make p type = Some ([], 0)
      /\ modbus_rtu_frame_make (mkRtuFrm saddr p) type
         = Some ([u8 saddr; c1; c2], 3)
      /\ modbus_rtu_frame_parse [u8 saddr; c1; c2] 3 frm0 type = (0, frm0).
Proof.
  intros saddr p type frm0 Hns Hx.
  assert (Hm : modbus_pdu_make p type = Some ([], 0)).
  { destruct type; unfold modbus_pdu_make, modbus_pdu_req_make,
      modbus_pdu_rsp_make.
    - apply fc_switch_default. exact Hns.
    - rewrite (Hx eq_refl). apply fc_switch_default. exact Hns. }
  set (crc := modbus_crc_cal [u8 saddr] 1).
  exists (u8 crc), (u8 (Z.shiftr crc 8)).
  split; [exact Hm |]. split.
  - unfold modbus_rtu_frame_make. cbn [frm_saddr frm_pdu]. rewrite Hm.
    reflexivity.
  - reflexivity.
Qed.

Lemma modbus_rtu_frame_make_unsupported_witness :
  let p := PduRdReq (mkRdReq 0x07 0 0) in
  let frm0 := mkRtuFrm 0 (PduExcept (mkExcept 0 0)) in
  exists c1 c2,
    modbus_pdu_make p MB_PDU_TYPE_RSP = Some ([], 0)
    /\ modbus_rtu_frame_make (mkRtuFrm 0x11 p) MB_PDU_TYPE_RSP
       = Some ([u8 0x11; c1; c2], 3)
    /\ modbus_rtu_frame_parse [u8 0x11; c1; c2] 3 frm0 MB_PDU_TYPE_RSP
       = (0, frm0).
Proof.
  intros p frm0.
  apply (modbus_rtu_frame_make_unsupported 0x11 p MB_PDU_TYPE_RSP frm0);
    reflexivity.
Defined.

(* ------------------------------------------------------------------ *)
(** * Further properties of the transport abstraction and the instance *)

Section BackendState.

Context {W : Type}.

Lemma open_result (b : mb_backend_t W) (w : W) :
  exists b',
    snd (fst (modbus_backend_open (Some b) w)) = Some b'
    /\ (fst (fst (modbus_backend_open (Some b) w)) = 0
        \/ fst (fst (modbus_backend_open (Some b) w)) = -1)
    /\ (fst (fst (modbus_backend_open (Some b) w)) = 0 <-> hinst b' <> 0)
    /\ b' = set_hinst b (hinst b').
Proof.
  unfold modbus_backend_open.
  destruct (Z.eqb_spec (hinst b) 0) as [Hz | Hnz]; cbn [negb].
  - destruct (bk_ops b) as [ops |].
    + destruct (op_open ops) as [open |].
      * destruct (open (bk_param b) w) as [h w1].
        cbn [hinst set_hinst].
        destruct (Z.eqb_spec h 0) as [Hh | Hh]; exists (set_hinst b h);
          cbn [fst snd hinst set_hinst];
          (split; [reflexivity |]); (split; [auto |]);
          (split; [| destruct b; reflexivity]); split; intros; lia.
      * exists b. cbn [fst snd]. split; [reflexivity |]. split; [auto |].
        split; [| destruct b; simpl in *; subst; reflexivity].
        split; intros; lia.
    + exists b. cbn [fst snd]. split; [reflexivity |]. split; [auto |].
      split; [| destruct b; simpl in *; subst; reflexivity].
      split; intros; lia.
  - exists b. cbn [fst snd]. split; [reflexivity |]. split; [auto |].
    split; [| destruct b; reflexivity]. split; intros; [assumption | lia].
Qed.

Lemma close_result (b : mb_backend_t W) (w : W) :
  exists b',
    snd (fst (modbus_backend_close (Some b) w)) = Some b'
    /\ (fst (fst (modbus_backend_close (Some b) w)) = 0
        \/ fst (fst (modbus_backend_close (Some b) w)) = -1)
    /\ (fst (fst (modbus_backend_close (Some b) w)) = 0 <-> hinst b' = 0)
    /\ b' = set_hinst b (hinst b').
Proof.
  unfold modbus_backend_close.
  destruct (Z.eqb_spec (hinst b) 0) as [Hz | Hnz].
  - exists b. cbn [fst snd]. split; [reflexivity |]. split; [auto |].
    split; [| destruct b; reflexivity]. split; intros; [assumption | lia].
  - destruct (bk_ops b) as [ops |].
    + destruct (op_close ops) as [close |].
      * destruct (close (hinst b) w) as [rc w1].
        destruct (Z.eqb_spec rc 0) as [Hrc | Hrc]; cbn [negb].
        -- exists (set_hinst b 0). cbn [fst snd hinst set_hinst].
           split; [reflexivity |]. split; [auto |].
           split; [| reflexivity]. split; intros; lia.
        -- exists b. cbn [fst snd]. split; [reflexivity |]. split; [auto |].
           split; [| destruct b; reflexivity]. split; intros; lia.
      * exists b. cbn [fst snd]. split; [reflexivity |]. split; [auto |].
        split; [| destruct b; reflexivity]. split; intros; lia.
    + exists b. cbn [fst snd]. split; [reflexivity |]. split; [auto |].
      split; [| destruct b; reflexivity]. split; intros; lia.
Qed.

End BackendState.

(** X13: the return value of [modbus_backend_open] and of
    [modbus_backend_close] tells the state the backend is left in.  Both
    return 0 or -1 and change no field but the handle; open returns 0
    exactly when the handle is non-null afterwards, close returns 0
    exactly when the handle is null afterwards. *)
Theorem modbus_backend_open_close_state :
  forall (W : Type) (b : mb_backend_t W) (w : W),
    (exists b',
        snd (fst (modbus_backend_open (Some b) w)) = Some b'
        /\ (fst (fst (modbus_backend_open (Some b) w)) = 0
            \/ fst (fst (modbus_backend_open (Some b) w)) = -1)
        /\ (fst (fst (modbus_backend_open (Some b) w)) = 0
            <-> hinst b' <> 0)
        /\ b' = set_hinst b (hinst b'))
    /\ (exists b',
           snd (fst (modbus_backend_close (Some b) w)) = Some b'
           /\ (fst (fst (modbus_backend_close (Some b) w)) = 0
               \/ fst (fst (modbus_backend_close (Some b) w)) = -1)
           /\ (fst (fst (modbus_backend_close (Some b) w)) = 0
               <-> hinst b' = 0)
           /\ b' = set_hinst b (hinst b')).
Proof.
  intros W b w. split; [apply open_result | apply close_result].
Qed.

(** X14: a closed backend refuses every transfer without touching the
    transport: with a null handle [modbus_backend_read],
    [modbus_backend_write] and [modbus_backend_flush] (and [modbus_flush]
    on an instance that owns the backend) return -1 and leave the world as
    it was, whatever the buffer, the size and the operation table. *)
Theorem modbus_backend_closed_refuses_io :
  forall (W : Type) (port : modbus_port_t W) (fuel : nat)
         (b : mb_backend_t W) (i : mb_inst_t W) (buf : option (list Z))
         (n : Z) (w : W),
    hinst b = 0 ->
    inst_backend i = Some b ->
    modbus_backend_read port fuel (Some b) buf n w = Some (-1, w)
    /\ modbus_backend_write (Some b) buf n w = (-1, w)
    /\ modbus_backend_flush (Some b) w = (-1, w)
    /\ modbus_flush (Some i) w = Returns (-1, w).
Proof.
  intros W port fuel b i buf n w Hh Hi.
  unfold modbus_flush, modbus_backend_read, modbus_backend_write,
    modbus_backend_flush.
  rewrite Hi, Hh. cbn [Z.eqb].
  destruct buf as [bytes |]; destruct (n <=? 0); repeat split.
Qed.

Lemma modbus_backend_closed_refuses_io_witness :
  let b := mock_backend (Some (mock_ops 0 0 true)) 0 in
  let w := mkMock 0 [3; 5] in
  modbus_backend_read mock_port 5 (Some b) (Some []) 8 w = Some (-1, w)
  /\ modbus_backend_write (Some b) (Some []) 8 w = (-1, w)
  /\ modbus_backend_flush (Some b) w = (-1, w)
  /\ modbus_flush (Some (mock_inst b)) w = Returns (-1, w).
Proof.
  intros b w.
  apply (modbus_backend_closed_refuses_io mock_world mock_port 5 b
           (mock_inst b) (Some []) 8 w); reflexivity.
Defined.

(** X15: a transfer that does not fail leaves the instance alone.  When
    [modbus_recv] or [modbus_send] returns a value that is not negative
    (a timeout of 0 included), the instance is unchanged, the backend has
    not been closed, and the value and the world are those of
    [modbus_backend_read] or [modbus_backend_write]. *)
Theorem modbus_recv_send_success_keeps_instance :
  forall (W : Type) (port : modbus_port_t W) (fuel : nat)
         (i i' : mb_inst_t W) (buf : option (list Z)) (n len : Z)
         (w w' : W),
    0 <= len ->
    (modbus_recv port fuel (Some i) buf n w = Returns (len, i', w') ->
     i' = i
     /\ modbus_backend_read port fuel (inst_backend i) buf n w
        = Some (len, w'))
    /\ (modbus_send (Some i) buf n w = Returns (len, i', w') ->
        i' = i
        /\ modbus_backend_write (inst_backend i) buf n w = (len, w')).
Proof.
  intros W port fuel i i' buf n len w w' Hlen. split; intros Hrun.
  - unfold modbus_recv in Hrun.
    destruct buf as [bytes |]; [| discriminate].
    destruct (inst_backend i) as [b |] eqn:Hb; [| discriminate].
    destruct (negb (0 <? n)); [discriminate |].
    destruct (modbus_backend_read port fuel (Some b) (Some bytes) n w)
      as [[len1 w1] |] eqn:Hread; [| discriminate].
    destruct (Z.ltb_spec len1 0) as [Hneg | Hpos].
    + destruct (modbus_backend_close (Some b) w1) as [[rc b'] w2].
      injection Hrun as Hl _ _. lia.
    + injection Hrun as Hl Hi Hw. subst. auto.
  - unfold modbus_send in Hrun.
    destruct buf as [bytes |]; [| discriminate].
    destruct (inst_backend i) as [b |] eqn:Hb; [| discriminate].
    destruct (negb (0 <? n)); [discriminate |].
    destruct (modbus_backend_write (Some b) (Some bytes) n w)
      as [len1 w1] eqn:Hwrite.
    destruct (Z.ltb_spec len1 0) as [Hneg | Hpos].
    + destruct (modbus_backend_close (Some b) w1) as [[rc b'] w2].
      injection Hrun as Hl _ _. lia.
    + injection Hrun as Hl Hi Hw. subst. auto.
Qed.

Lemma modbus_recv_send_success_keeps_instance_witness :
  let b := mock_backend (Some (mock_ops 0 2 true)) 7 in
  let i := mock_inst b in
  (i = i
   /\ modbus_backend_read mock_port 200 (inst_backend i) (Some []) 8
        (mkMock 0 []) = Some (0, mkMock 302 []))
  /\ (i = i
      /\ modbus_backend_write (inst_backend i) (Some [1; 2]) 2 (mkMock 0 [])
         = (2, mkMock 0 [])).
Proof.
  intros b i. split.
  - destruct (modbus_recv_send_success_keeps_instance mock_world mock_port
                200 i i (Some []) 8 0 (mkMock 0 []) (mkMock 302 [])
                ltac:(lia)) as [H _].
    apply H. reflexivity.
  - destruct (modbus_recv_send_success_keeps_instance mock_world mock_port
                200 i i (Some [1; 2]) 2 2 (mkMock 0 []) (mkMock 0 [])
                ltac:(lia)) as [_ H].
    apply H. reflexivity.
Defined.

(** X16: connecting is idempotent and disconnecting undoes it.  After a
    [modbus_connect] that returned 0, a second [modbus_connect] returns 0
    again and changes neither the instance nor the world (the open
    operation does not run twice); and when the instance started closed, a
    [modbus_disconn] that returns 0 brings back the instance as it was
    before the connect. *)
Theorem modbus_connect_disconn :
  forall (W : Type) (i i1 : mb_inst_t W) (w w1 : W),
    modbus_connect (Some i) w = Returns (0, i1, w1) ->
    modbus_connect (Some i1) w1 = Returns (0, i1, w1)
    /\ (forall i2 w2,
           inst_hinst i = 0 ->
           modbus_disconn (Some i1) w1 = Returns (0, i2, w2) ->
           i2 = i).
Proof.
  intros W i i1 w w1 Hc. unfold modbus_connect in Hc.
  destruct (inst_backend i) as [b |] eqn:Hb; [| discriminate].
  destruct (open_result b w) as [b1 [Hb1 [_ [Hiff Hset]]]].
  destruct (modbus_backend_open (Some b) w) as [[rc ob] wo] eqn:Hopen.
  cbn [fst snd] in Hb1, Hiff. subst ob.
  injection Hc as Hrc Hi Hw. subst rc i1 wo.
  assert (Hopen1 : hinst b1 <> 0) by (apply Hiff; reflexivity).
  split.
  - unfold modbus_connect. cbn [with_backend inst_backend].
    rewrite (open_when_open b1 w1 Hopen1). reflexivity.
  - intros i2 w2 Hclosed Hd. unfold inst_hinst in Hclosed.
    rewrite Hb in Hclosed.
    unfold modbus_disconn in Hd. cbn [with_backend inst_backend] in Hd.
    destruct (close_result b1 w1) as [b2 [Hb2 [_ [Hiff2 Hset2]]]].
    destruct (modbus_backend_close (Some b1) w1) as [[rc ob] wo].
    cbn [fst snd] in Hb2, Hiff2. subst ob.
    injection Hd as Hrc Hi _. subst rc i2.
    assert (Hz : hinst b2 = 0) by (apply Hiff2; reflexivity).
    assert (Hbb : b2 = b).
    { rewrite Hset2, Hset, Hz. destruct b. simpl in *. subst. reflexivity. }
    rewrite Hbb. destruct i. simpl in *. subst. reflexivity.
Qed.

Lemma modbus_connect_disconn_witness :
  let b := mock_backend (Some (mock_open_ops 9 0)) 0 in
  let i := mock_inst b in
  let i1 := mock_inst (set_hinst b 9) in
  let w := mkMock 0 [] in
  modbus_connect (Some i) w = Returns (0, i1, w)
  /\ modbus_connect (Some i1) w = Returns (0, i1, w)
  /\ inst_hinst i = 0
  /\ modbus_disconn (Some i1) w = Returns (0, i, w)
  /\ i = i.
Proof.
  intros b i i1 w.
  assert (Hc : modbus_connect (Some i) w = Returns (0, i1, w))
    by reflexivity.
  assert (Hz : inst_hinst i = 0) by reflexivity.
  assert (Hd : modbus_disconn (Some i1) w = Returns (0, i, w))
    by reflexivity.
  destruct (modbus_connect_disconn mock_world i i1 w w Hc) as [H1 H2].
  split; [exact Hc |]. split; [exact H1 |]. split; [exact Hz |].
  split; [exact Hd |]. exact (H2 i w Hz Hd).
Defined.

(* ------------------------------------------------------------------ *)
(** * The capacities the read loop offers *)

Section ReadCapacity.

Context {W : Type} (port : modbus_port_t W).
Variable backend : mb_backend_t W.
Variables read read' : Z -> Z -> W -> Z * W.
Variable bufsize : Z.

Hypothesis within :
  forall cap w,
    0 < cap <= bufsize -> fst (read (hinst backend) cap w) <= cap.

Hypothesis agree :
  forall cap w,
    0 < cap <= bufsize ->
    read (hinst backend) cap w = read' (hinst backend) cap w.

(** From a count within the buffer the loop only offers capacities from 1
    to [bufsize], and the count stays within the buffer. *)
Lemma read_loop_capacity (fuel : nat) :
  forall pos told_ms w,
    0 <= pos <= bufsize ->
    read_loop port fuel backend read bufsize pos told_ms w
    = read_loop port fuel backend read' bufsize pos told_ms w
    /\ (forall e pos' w',
           read_loop port fuel backend read bufsize pos told_ms w
           = Some (e, pos', w') ->
           pos <= pos' <= bufsize).
Proof.
  induction fuel as [| fuel IH]; intros pos told_ms w Hpos.
  - split; [reflexivity | discriminate].
  - rewrite !read_loop_unfold.
    destruct (Z.ltb_spec pos bufsize) as [Hlt | Hge].
    + rewrite <- (agree (bufsize - pos) w) by lia.
      pose proof (within (bufsize - pos) w ltac:(lia)) as Hcap.
      destruct (read (hinst backend) (bufsize - pos) w) as [len w1].
      cbn [fst] in Hcap.
      destruct (Z.ltb_spec len 0) as [Hneg | Hnn].
      { split; [reflexivity |].
        intros e pos' w' H. injection H as _ Hp _. lia. }
      destruct (Z.ltb_spec 0 len) as [Hgt | Hz].
      * destruct (modbus_port_get_ms port w1) as [t w2].
        destruct (IH (pos + len) t w2 ltac:(lia)) as [Heq Hbound].
        split; [exact Heq |].
        intros e pos' w' H. specialize (Hbound e pos' w' H). lia.
      * destruct (modbus_port_get_ms port w1) as [t w2]. cbv zeta.
        destruct (IH pos told_ms (modbus_port_delay_ms port 2 w2) Hpos)
          as [Heq Hbound].
        rewrite <- !Heq.
        split; [reflexivity |].
        intros e pos' w' H.
        destruct (negb (pos =? 0));
          [destruct (byte_tmo_ms backend <? s32 (t - told_ms))
          | destruct (ack_tmo_ms backend <? s32 (t - told_ms))];
          try (injection H as _ Hp _; lia);
          exact (Hbound e pos' w' H).
    + split; [reflexivity |].
      intros e pos' w' H. injection H as _ Hp _. lia.
Qed.

End ReadCapacity.

(** X17: with an inner read that reports at most the capacity it is
    offered, the read loop only ever polls the transport with the
    backend's handle and a capacity between 1 and the buffer size, and
    the count it ends with lies within the buffer.  Two inner reads that
    agree on these calls give the same run of the loop, whatever they do
    when offered a capacity of 0 or less or more than the buffer holds. *)
Theorem read_loop_polls_within_buffer :
  forall (W : Type) (port : modbus_port_t W) (backend : mb_backend_t W)
         (read read' : Z -> Z -> W -> Z * W) (bufsize : Z) (fuel : nat)
         (told_ms : Z) (w : W),
    0 < bufsize ->
    (forall cap w0,
        0 < cap <= bufsize -> fst (read (hinst backend) cap w0) <= cap) ->
    (forall cap w0,
        0 < cap <= bufsize ->
        read (hinst backend) cap w0 = read' (hinst backend) cap w0) ->
    read_loop port fuel backend read bufsize 0 told_ms w
    = read_loop port fuel backend read' bufsize 0 told_ms w
    /\ (forall e pos w',
           read_loop port fuel backend read bufsize 0 told_ms w
           = Some (e, pos, w') ->
           0 <= pos <= bufsize).
Proof.
  intros W port backend read read' bufsize fuel told_ms w Hsize Hwithin
    Hagree.
  apply read_loop_capacity; [exact Hwithin | exact Hagree | lia].
Qed.

(** A mock read that misbehaves outside the capacities the loop offers. *)
Lemma read_loop_polls_within_buffer_witness :
  let b := mock_backend (Some (mock_ops 0 0 true)) 7 in
  let wild := fun (h cap : Z) (w : mock_world) =>
                if (0 <? cap) && (cap <=? 8) then mock_read h cap w
                else (1000, w) in
  read_loop mock_port 30 b mock_read 8 0 0 (mkMock 0 [3; 0; 2])
  = read_loop mock_port 30 b wild 8 0 0 (mkMock 0 [3; 0; 2])
  /\ read_loop mock_port 30 b mock_read 8 0 0 (mkMock 0 [3; 0; 2])
     = Some (ExitByteTmo 34, 5, mkMock 36 []).
Proof.
  intros b wild.
  split; [| reflexivity].
  apply (read_loop_polls_within_buffer mock_world mock_port b mock_read wild
           8 30 0 (mkMock 0 [3; 0; 2])).
  - lia.
  - intros cap w0 Hcap.
    destruct mock_read_ok as [Hwithin _]. apply Hwithin. lia.
  - intros cap w0 Hcap. unfold wild.
    destruct (Z.ltb_spec 0 cap); [| lia].
    destruct (Z.leb_spec cap 8); [reflexivity | lia].
Defined.

(* ------------------------------------------------------------------ *)
(** * How long the read loop waits *)

Section ReadTiming.

Context {W : Type} (port : modbus_port_t W).
Variable backend : mb_backend_t W.
Variable read : Z -> Z -> W -> Z * W.
Variable bufsize : Z.
Variable J : Z.

Hypothesis clock_good : clock_ok port J.
Hypothesis read_time : forall h cap,
    advances port (fun w => snd (read h cap w)) 0 J.
Hypothesis tmo_good : tmo_ok J backend.

Lemma read_loop_idle_bound (fuel : nat) :
  forall pos told_ms w e pos' w',
    0 <= pos ->
    0 <= clock_of port w - told_ms <= Z.max (tmo_at backend pos) 0 + 2 * J ->
    read_loop port fuel backend read bufsize pos told_ms w
    = Some (e, pos', w') ->
    match e with
    | ExitAckTmo t =>
        pos = 0
        /\ ack_tmo_ms backend < t
        /\ t <= clock_of port w' - told_ms
           <= Z.max (ack_tmo_ms backend) 0 + 4 * J
    | ExitByteTmo t =>
        byte_tmo_ms backend < t <= Z.max (byte_tmo_ms backend) 0 + 3 * J
    | _ => True
    end.
Proof.
  destruct tmo_good as [HJ HT]. unfold tmo_max in HT.
  destruct clock_good as [Hget Hdelay].
  induction fuel as [| fuel IH]; intros pos told_ms w e pos' w' Hpos Hinv Hrun.
  - discriminate.
  - rewrite read_loop_unfold in Hrun.
    destruct (Z.ltb_spec pos bufsize) as [Hlt | Hge].
    2:{ injection Hrun as He _ _. subst e. exact I. }
    pose proof (read_time (hinst backend) (bufsize - pos) w) as Hrt.
    cbv beta in Hrt.
    destruct (read (hinst backend) (bufsize - pos) w) as [len w1].
    cbn [snd] in Hrt.
    pose proof (Hget w1) as Hg. cbv beta in Hg.
    assert (Hnow : clock_of port w1 = fst (modbus_port_get_ms port w1))
      by reflexivity.
    destruct (modbus_port_get_ms port w1) as [t w2].
    cbn [fst snd] in Hg, Hnow.
    destruct (Z.ltb_spec len 0) as [Hneg | Hnn].
    { injection Hrun as He _ _. subst e. exact I. }
    destruct (Z.ltb_spec 0 len) as [Hgt | Hz].
    { assert (Hne : (pos + len =? 0) = false) by (apply Z.eqb_neq; lia).
      specialize (IH (pos + len) t w2 e pos' w' ltac:(lia)).
      unfold tmo_at in IH. rewrite Hne in IH.
      specialize (IH ltac:(lia) Hrun).
      destruct e as [l | | tb | ta]; try exact I.
      - exact IH.
      - destruct IH as [Hp0 _]. lia. }
    cbv zeta in Hrun.
    pose proof (Hdelay w2) as Hd.
    unfold tmo_at in Hinv, IH.
    destruct (Z.eqb_spec pos 0) as [Hp0 | Hpn]; cbn [negb] in Hrun.
    + assert (Hs32 : s32 (t - told_ms) = t - told_ms)
        by (apply s32_small; lia).
      rewrite Hs32 in Hrun.
      destruct (Z.ltb_spec (ack_tmo_ms backend) (t - told_ms)) as [Hx | Hc].
      * injection Hrun as He _ Hw. subst e w'. repeat split; lia.
      * specialize (IH pos told_ms (modbus_port_delay_ms port 2 w2)
                      e pos' w' Hpos).
        destruct (Z.eqb_spec pos 0) as [_ | Hcontra]; [| contradiction].
        apply (IH ltac:(lia) Hrun).
    + assert (Hs32 : s32 (t - told_ms) = t - told_ms)
        by (apply s32_small; lia).
      rewrite Hs32 in Hrun.
      destruct (Z.ltb_spec (byte_tmo_ms backend) (t - told_ms)) as [Hx | Hc].
      * injection Hrun as He _ _. subst e. lia.
      * specialize (IH pos told_ms (modbus_port_delay_ms port 2 w2)
                      e pos' w' Hpos).
        destruct (Z.eqb_spec pos 0) as [Hcontra | _]; [contradiction |].
        apply (IH ltac:(lia) Hrun).
Qed.

End ReadTiming.

(** X18: how long [modbus_backend_read] waits.  With a clock and an inner
    read whose steps take at most [J] ms, a read that returns 0 has taken,
    on the clock, more than the response timeout and at most the response
    timeout (0 if negative) plus 4 J ms; and a read that was ended by the
    inter-byte timeout measured an idle time above that timeout by at
    most 3 J ms. *)
Theorem modbus_backend_read_timing :
  forall (W : Type) (port : modbus_port_t W) (J : Z) (b : mb_backend_t W)
         (ops : mb_backend_ops_t W) (read : Z -> Z -> W -> Z * W)
         (buf : option (list Z)) (bufsize : Z) (fuel : nat) (w w' : W)
         (r : Z),
    clock_ok port J -> read_ok port J read -> tmo_ok J b ->
    bk_ops b = Some ops -> op_read ops = Some read ->
    modbus_backend_read port fuel (Some b) buf bufsize w = Some (r, w') ->
    (r = 0 ->
     ack_tmo_ms b < clock_of port w' - clock_of port w
     <= Z.max (ack_tmo_ms b) 0 + 4 * J)
    /\ (forall t pos,
           read_left_by port fuel (Some b) bufsize w (ExitByteTmo t) pos w' ->
           byte_tmo_ms b < t <= Z.max (byte_tmo_ms b) 0 + 3 * J).
Proof.
  intros W port J b ops read buf bufsize fuel w w' r Hclock [Hcap Htime] Htmo
    Hops Hread Hrun.
  pose proof (get_ms_advances port J Hclock w) as Hg0. cbv beta in Hg0.
  assert (Hnow : clock_of port w = fst (modbus_port_get_ms port w))
    by reflexivity.
  assert (HJ : 0 <= J) by (destruct Htmo; assumption).
  assert (Hinv : forall told w0,
             modbus_port_get_ms port w = (told, w0) ->
             0 <= clock_of port w0 - told
             <= Z.max (if 0 =? 0 then ack_tmo_ms b else byte_tmo_ms b) 0
                + 2 * J).
  { intros told w0 Hgm. rewrite Hgm in Hg0, Hnow. cbn [fst snd] in Hg0, Hnow.
    cbn [Z.eqb]. lia. }
  split.
  - intros Hr. subst r. unfold modbus_backend_read in Hrun.
    destruct buf as [bytes |]; [| discriminate].
    destruct (Z.leb_spec bufsize 0) as [Hsz | Hsz]; [discriminate |].
    destruct (hinst b =? 0); [discriminate |].
    rewrite Hops, Hread in Hrun.
    destruct (modbus_port_get_ms port w) as [told w0] eqn:Hgm.
    cbn [fst] in Hnow.
    destruct (read_loop port fuel b read bufsize 0 told w0)
      as [[[e pos] w1] |] eqn:Hloop; [| discriminate].
    injection Hrun as Hres Hw. subst w1.
    destruct (read_loop_sound port b read bufsize Hcap fuel 0 told w0 e pos w'
                ltac:(lia) Hloop) as [Hrange Hsound].
    pose proof (read_loop_idle_bound port b read bufsize J Hclock Htime Htmo
                  fuel 0 told w0 e pos w' ltac:(lia) (Hinv told w0 eq_refl)
                  Hloop) as Hbound.
    destruct e as [l | | tb | ta]; simpl in Hres, Hsound.
    + discriminate.
    + lia.
    + lia.
    + lia.
  - intros t pos [b2 [ops2 [read2 [Hb2 [Hops2 [Hread2 Hloop]]]]]].
    injection Hb2 as Hb2. subst b2. rewrite Hops in Hops2.
    injection Hops2 as Hops2. subst ops2. rewrite Hread in Hread2.
    injection Hread2 as Hread2. subst read2.
    destruct (modbus_port_get_ms port w) as [told w0] eqn:Hgm.
    cbn [fst snd] in Hloop.
    exact (read_loop_idle_bound port b read bufsize J Hclock Htime Htmo
             fuel 0 told w0 (ExitByteTmo t) pos w' ltac:(lia)
             (Hinv told w0 eq_refl) Hloop).
Qed.

Lemma modbus_backend_read_timing_witness :
  let b := mock_backend (Some (mock_ops 0 0 true)) 7 in
  let w := mkMock 0 [] in
  let w' := mkMock 302 [] in
  (0 = 0 ->
   ack_tmo_ms b < clock_of mock_port w' - clock_of mock_port w
   <= Z.max (ack_tmo_ms b) 0 + 4 * 2)
  /\ (forall t pos,
         read_left_by mock_port 200 (Some b) 8 w (ExitByteTmo t) pos w' ->
         byte_tmo_ms b < t <= Z.max (byte_tmo_ms b) 0 + 3 * 2).
Proof.
  intros b w w'.
  apply (modbus_backend_read_timing mock_world mock_port 2 b
           (mock_ops 0 0 true) mock_read (Some []) 8 200 w w' 0
           mock_clock_ok mock_read_ok).
  - unfold tmo_ok, tmo_max. simpl. lia.
  - reflexivity.
  - reflexivity.
  - reflexivity.
Defined.
